(** * Indexer stream synchronisation (src/indexer/subscribers.ts)

    A shallow embedding of the accumulation functions, the transport
    controller [IndexerStream] and the two accumulating wrappers, with the
    properties of the specification stated over it.

    - JavaScript numbers are IEEE doubles: [number] keeps NaN, the two
      infinities and the negative zero apart from the finite values, which
      are represented by their exact rational value.
    - A JavaScript [Map] is an object on the heap; its content is a finite
      map keyed by the SameValueZero class of the key.  The iteration order
      of a [Map] is never read by the code and is not represented.
    - The asynchronous controller is a state machine driven by what its
      environment delivers (server-sent events, settled fetch requests,
      cancellation); callbacks are observed as a trace of outputs and are
      assumed to return normally.
    - [fetchSingleDataSetFromIndexer] (src/indexer/fetch.ts) and the
      subscription of the hook [useIndexerStreamOfSingleDataSet] are given
      by the callbacks they hand to the single class; the promise of the
      former is a value that is settled at most once. *)

From Stdlib Require Import QArith Qcanon.
From stdpp Require Import base numbers option list sorting strings gmap fin_maps.

Local Open Scope string_scope.
Local Open Scope list_scope.

(** ** JavaScript values *)

Module JS.

Inductive number :=
  | NaN
  | Infinity
  | NegInfinity
  | NegZero
  | Finite (q : Qc).

Definition num (z : Z) : number := Finite (Qc_of_Z z).

#[global] Instance number_eq_dec : EqDecision number.
Proof. solve_decision. Defined.

#[global] Instance number_countable : Countable number.
Proof.
  refine (inj_countable'
    (λ n, match n with
          | NaN => inl 0%nat | Infinity => inl 1%nat
          | NegInfinity => inl 2%nat | NegZero => inl 3%nat
          | Finite q => inr q end)
    (λ s, match s with
          | inl 0%nat => NaN | inl 1%nat => Infinity
          | inl 2%nat => NegInfinity | inl _ => NegZero
          | inr q => Finite q end) _).
  by intros [].
Defined.

(** The two zeros are one key and compare equal. *)
Definition unsigned_zero (n : number) : number :=
  match n with NegZero => num 0 | _ => n end.

(** [a === b] on numbers. *)
Definition number_strict_equals (a b : number) : bool :=
  match a, b with
  | NaN, _ | _, NaN => false
  | _, _ => bool_decide (unsigned_zero a = unsigned_zero b)
  end.

(** The rational a finite number (or a zero) stands for. *)
Definition rational (n : number) : Qc :=
  match n with Finite q => q | _ => Qc_of_Z 0 end.

(** [a < b] on numbers: false as soon as one side is NaN. *)
Definition number_lt (a b : number) : bool :=
  match a, b with
  | NaN, _ | _, NaN => false
  | _, NegInfinity | Infinity, _ => false
  | NegInfinity, _ | _, Infinity => true
  | _, _ => bool_decide (rational a < rational b)%Qc
  end.

(** [a > b] is [b < a]. *)
Definition number_gt (a b : number) : bool := number_lt b a.

(** [a <= b] on numbers. *)
Definition number_le (a b : number) : bool :=
  number_lt a b || number_strict_equals a b.

(** Truthiness of a number: everything but NaN and the zeros. *)
Definition number_truthy (n : number) : bool :=
  match n with
  | NaN | NegZero => false
  | Finite q => negb (bool_decide (q = Qc_of_Z 0))
  | _ => true
  end.

(** Truthiness of a string: non-empty. *)
Definition string_truthy (s : string) : bool :=
  negb (bool_decide (s = "")).

(** [type value = string | number] *)
Inductive value :=
  | Str (s : string)
  | Num (n : number).

#[global] Instance value_eq_dec : EqDecision value.
Proof. solve_decision. Defined.

#[global] Instance value_countable : Countable value.
Proof.
  refine (inj_countable'
    (λ v, match v with Str s => inl s | Num n => inr n end)
    (λ s, match s with inl s => Str s | inr n => Num n end) _).
  by intros [].
Defined.

(** [a === b] on primitives. *)
Definition value_strict_equals (a b : value) : bool :=
  match a, b with
  | Str s, Str t => bool_decide (s = t)
  | Num m, Num n => number_strict_equals m n
  | _, _ => false
  end.

(** The second component of a row, [value | value[]]. *)
Inductive values :=
  | One (v : value)
  | Many (vs : list value).

#[global] Instance values_eq_dec : EqDecision values.
Proof. solve_decision. Defined.

(** [sentinel === data] where the left side is a primitive or undefined.
    An array is never strictly equal to a primitive, and the type of a row
    excludes an undefined second component. *)
Definition strict_equals (sentinel : option value) (data : values) : bool :=
  match sentinel, data with
  | Some s, One v => value_strict_equals s v
  | _, _ => false
  end.

(** [new Error(message)] and [new Error(message, { cause })] *)
Inductive Error :=
  | Err (message : string)
  | ErrCause (message : string) (cause : Error).

#[global] Instance Error_eq_dec : EqDecision Error.
Proof. solve_decision. Defined.

End JS.
Import JS.

(** [BaseDataRow = [id: value, values: value | value[]]] *)
Definition BaseDataRow : Type := value * values.

(** ** Map objects *)

(** Content of a [Map<DataRow['0'], DataRow['1']>]. *)
Abbreviation DataSet := (gmap value values).

Module Map.

(** The key under which [id] is stored: SameValueZero identifies the two
    zeros (and NaN with itself). *)
Definition key (id : value) : value :=
  match id with
  | Num n => Num (unsigned_zero n)
  | Str s => Str s
  end.

Definition set (id : value) (data : values) (m : DataSet) : DataSet :=
  <[key id := data]> m.

Definition delete (id : value) (m : DataSet) : DataSet :=
  base.delete (key id) m.

Definition get (id : value) (m : DataSet) : option values :=
  m !! key id.

Definition has (id : value) (m : DataSet) : bool :=
  bool_decide (is_Some (get id m)).

End Map.

(** ** The heap of Map objects *)

(** A reference to a [Map] object is its index in the heap; objects are
    never freed, and every reference the code holds is below the length of
    the heap. *)
Definition ref := nat.
Abbreviation heap := (list (gmap value values)).

(** [new Map(content)] *)
Definition new_Map (content : DataSet) (h : heap) : ref * heap :=
  (length h, h ++ [content]).

(** ** Accumulation *)

Record AccumulatorOptions := {
  (* declared as the literal type [0]; compared with [===] *)
  mapEntryRemovalValue : option value;
}.

(** Body of the [for ... of] loop in [accumulateUpdatesUsingMutation]. *)
Definition accumulate_row (opts : AccumulatorOptions) (row : BaseDataRow)
    (m : DataSet) : DataSet :=
  let '(id, data) := row in
  if strict_equals (mapEntryRemovalValue opts) data
  then Map.delete id m
  else Map.set id data m.

(** [accumulateUpdatesUsingMutation(map, dataUpdates, opts)]: every
    iteration updates the object behind [map] in place; the reference itself
    is returned. *)
Fixpoint accumulateUpdatesUsingMutation (map : ref)
    (dataUpdates : list BaseDataRow) (opts : AccumulatorOptions)
    (h : heap) : ref * heap :=
  match dataUpdates with
  | [] => (map, h)
  | row :: rest =>
      accumulateUpdatesUsingMutation map rest opts
        (<[map := accumulate_row opts row (h !!! map)]> h)
  end.

(** [accumulateUpdates(currentMap, dataUpdates, opts)] *)
Definition accumulateUpdates (currentMap : ref)
    (dataUpdates : list BaseDataRow) (opts : AccumulatorOptions)
    (h : heap) : ref * heap :=
  let '(newMap, h1) := new_Map (h !!! currentMap) h in
  accumulateUpdatesUsingMutation newMap dataUpdates opts h1.

(** The content [accumulateUpdatesUsingMutation] leaves in the object it is
    given: the loop body applied to the rows from left to right. *)
Definition accumulated (opts : AccumulatorOptions)
    (dataUpdates : list BaseDataRow) (m : DataSet) : DataSet :=
  foldl (λ m row, accumulate_row opts row m) m dataUpdates.

(** ** Requests, pages and events *)

(** The query parameters the controller reads or writes.  A numeric
    parameter is kept as the number its text denotes: [Number(...)] of the
    text when read, and the height that [toFixed()] prints when written. *)
Record URL := {
  pagination_before : option string;
  pagination_key : option string;
  block_range_from_height : option number;
  block_range_to_height : option number;
}.

Record BlockRange := {
  from_height : number;
  to_height : number;
}.

Record Pagination := {
  (* [null] and a missing key are both [None] *)
  next_key : option string;
}.

Record IndexerPage (DataRow : Type) := {
  data : option (list DataRow);
  pagination : option Pagination;
  block_range : option BlockRange;
}.
Arguments data {DataRow} _.
Arguments pagination {DataRow} _.
Arguments block_range {DataRow} _.

(** How a [fetch] settles. *)
Inductive FetchResult (DataRow : Type) :=
  (* a response arrived; [json] is [None] when [response.json()] rejects *)
  | Response (status : Z) (json : option (IndexerPage DataRow))
  (* [fetch] rejected, for a reason other than cancellation *)
  | NetworkError (e : Error).
Arguments Response {DataRow} _ _.
Arguments NetworkError {DataRow} _.

(** [e.data] of an ['update'] message. *)
Inductive MessageData (DataRow : Type) :=
  | Empty
  | Malformed
  (* [JSON.parse] succeeded; [None] is a falsy JSON value *)
  | Json (dataUpdates : option (list DataRow)).
Arguments Empty {DataRow}.
Arguments Malformed {DataRow}.
Arguments Json {DataRow} _.

(** What the environment delivers to one controller. *)
Inductive input (DataRow : Type) :=
  (* the promise chain set up by the constructor starts to run;
     [eventSource] tells whether [new EventSource(url)] returns *)
  | Start (eventSource : bool)
  (* an ['update'] message; [height] is
     [Number(e.lastEventId.split(':').at(0))] *)
  | SseUpdate (d : MessageData DataRow) (height : number)
  | SseEnd
  | SseError
  (* the pending [fetch] settles *)
  | Fetched (r : FetchResult DataRow)
  (* [unsubscribe()], or [abort()] on a shared controller *)
  | Unsubscribe.
Arguments Start {DataRow} _.
Arguments SseUpdate {DataRow} _ _.
Arguments SseEnd {DataRow}.
Arguments SseError {DataRow}.
Arguments Fetched {DataRow} _.
Arguments Unsubscribe {DataRow}.

(** What one controller does: its callbacks, and the effects the
    properties below speak about. *)
Inductive output (DataRow : Type) :=
  | OnUpdate (dataUpdates : list DataRow) (height : number)
  | OnCompleted
  | OnError (e : Error)
  | ConsoleError (message : string)
  | Fetch (u : URL)
  | SetTimeout (ms : number)
  (* not an effect: marks the entry of the body of the outer [do] loop *)
  | OuterPass.
Arguments OnUpdate {DataRow} _ _.
Arguments OnCompleted {DataRow}.
Arguments OnError {DataRow} _.
Arguments ConsoleError {DataRow} _.
Arguments Fetch {DataRow} _.
Arguments SetTimeout {DataRow} _.
Arguments OuterPass {DataRow}.

Record AbortController := {
  aborted : bool;
}.

Module StreamOptions.
Record t := {
  abortController : option AbortController;
  (* [undefined] is [false] *)
  disableSSE : bool;
  backoffFunc : option (nat → number);
}.
End StreamOptions.

(** The rejection of a [fetch] whose signal is aborted. *)
Definition AbortError : Error := Err "AbortError".

(** ** [class IndexerStream] *)

Module IndexerStream.
Section DataRow.
Context {DataRow : Type}.

(** Local variables of [subscribeToLongPolling] while a request is
    pending. *)
Record LongPolling := {
  url : URL;
  toHeight : number;
  knownHeight : number;
  retries : nat;
  (* [string | undefined]; a string held here is non-empty *)
  nextKey : option string;
}.

Record t := {
  abortController : AbortController;
  backoffFunc : nat → number;
  maxRetries : nat;
  (* arguments captured by the promise chain of the constructor *)
  endpoint : URL;
  disableSSE : bool;
  (* the chain has started *)
  started : bool;
  (* the listeners of [subscribeToSSE] are registered *)
  listening : bool;
  (* the promise of [subscribeToSSE] is not settled *)
  negotiating : bool;
  (* [subscribeToLongPolling] awaits a [fetch] *)
  polling : option LongPolling;
}.

Definition set_chain (s : t) (st li ne : bool) (po : option LongPolling) : t :=
  {| abortController := abortController s; backoffFunc := backoffFunc s;
     maxRetries := maxRetries s; endpoint := endpoint s;
     disableSSE := disableSSE s;
     started := st; listening := li; negotiating := ne; polling := po |}.

Definition set_polling (s : t) (po : option LongPolling) : t :=
  set_chain s (started s) (listening s) (negotiating s) po.

(** [abortController.abort()]: the signal is aborted, which closes the
    event source and removes the listeners registered with the signal. *)
Definition abort (s : t) : t :=
  {| abortController := {| aborted := true |}; backoffFunc := backoffFunc s;
     maxRetries := maxRetries s; endpoint := endpoint s;
     disableSSE := disableSSE s;
     started := started s; listening := false;
     negotiating := negotiating s; polling := polling s |}.

(** [private backoffFunc = (retries) => retries * 1000] *)
Definition default_backoffFunc (retries : nat) : number :=
  num (Z.of_nat retries * 1000).

(** The synchronous part of the constructor. *)
Definition constructor (endpoint : URL) (opts : StreamOptions.t) : t :=
  {| abortController :=
       default {| aborted := false |} (StreamOptions.abortController opts);
     backoffFunc :=
       default default_backoffFunc (StreamOptions.backoffFunc opts);
     maxRetries := 5;
     endpoint := endpoint;
     disableSSE := StreamOptions.disableSSE opts;
     started := false; listening := false; negotiating := false;
     polling := None |}.

(** The last [.catch] of the constructor, entered when
    [subscribeToLongPolling] rejects with [e]. *)
Definition on_failure (s : t) (e : Error) : t * list (output DataRow) :=
  (set_polling (abort s) None,
   [ConsoleError "Could not establish a connection to the indexer URL";
    OnError e]).

(** The [catch] block of [subscribeToLongPolling]. *)
Definition reject_polling (s : t) (e : Error) : t * list (output DataRow) :=
  on_failure s (ErrCause "Long-Polling Error" e).

(** Head of the inner loop body: the URL is updated and requested. *)
Definition request (s : t) (p : LongPolling) : t * list (output DataRow) :=
  let u := url p in
  let u :=
    {| pagination_before := pagination_before u;
       pagination_key :=
         if nextKey p is Some k then Some k else pagination_key u;
       block_range_from_height :=
         if number_truthy (knownHeight p) then Some (knownHeight p)
         else block_range_from_height u;
       block_range_to_height := block_range_to_height u |} in
  if aborted (abortController s) then reject_polling s AbortError
  else
    (set_polling s (Some {| url := u; toHeight := toHeight p;
                            knownHeight := knownHeight p;
                            retries := retries p; nextKey := nextKey p |}),
     [Fetch u]).

(** Entry of the body of the outer loop. *)
Definition outer_pass (s : t) (u : URL) (toHeight knownHeight : number)
    : t * list (output DataRow) :=
  let '(s, out) :=
    request s {| url := u; toHeight := toHeight; knownHeight := knownHeight;
                 retries := 0; nextKey := None |} in
  (s, OuterPass :: out).

(** The conditions of the two [do ... while] loops, reached at the end of
    the inner body and by [continue]; then the code after the loops. *)
Definition loop_conditions (s : t) (p : LongPolling)
    : t * list (output DataRow) :=
  if nextKey p is Some _ then request s p
  else if number_lt (knownHeight p) (toHeight p)
  then outer_pass s (url p) (toHeight p) (knownHeight p)
  else (set_polling s None, [OnCompleted]).

Definition subscribeToLongPolling (s : t) : t * list (output DataRow) :=
  let u := endpoint s in
  let toHeight :=
    if default false (string_truthy <$> pagination_before u) then num 0
    else
      let n := default (num 0) (block_range_to_height u) in
      if number_truthy n then n else Infinity in
  outer_pass s u toHeight (num 0).

(** The rest of the inner loop body, once the [fetch] has settled. *)
Definition fetched (s : t) (p : LongPolling) (r : FetchResult DataRow)
    : t * list (output DataRow) :=
  match r with
  | NetworkError e => reject_polling s e
  | Response status json =>
      if bool_decide (status = 200%Z) then
        match json with
        | None => reject_polling s (Err "SyntaxError")
        | Some page =>
            let range := block_range page in
            let height :=
              if range is Some r then to_height r else NaN in
            let knownHeight' :=
              match range with
              | Some r =>
                  if number_gt (to_height r) (knownHeight p)
                  then to_height r else knownHeight p
              | None => knownHeight p
              end in
            let nextKey' :=
              k ← pagination page ≫= next_key;
              if string_truthy k then Some k else None in
            let '(s, out) :=
              loop_conditions s
                {| url := url p; toHeight := toHeight p;
                   knownHeight := knownHeight'; retries := retries p;
                   nextKey := nextKey' |} in
            (s, OnUpdate (default [] (data page)) height :: out)
        end
      else if bool_decide (retries p < maxRetries s)%nat then
        let '(s', out) :=
          loop_conditions s
            {| url := url p; toHeight := toHeight p;
               knownHeight := knownHeight p; retries := S (retries p);
               nextKey := nextKey p |} in
        (s', ConsoleError "Could not fetch long-polling data"
             :: SetTimeout (backoffFunc s (retries p)) :: out)
      else
        reject_polling s (Err "Could not fetch data after 5 times.")
  end.

(** [reject] inside [subscribeToSSE]: the first [.catch] of the constructor
    starts long polling, unless the promise is already settled. *)
Definition reject_sse (s : t) : t * list (output DataRow) :=
  if negotiating s
  then subscribeToLongPolling
         (set_chain s (started s) (listening s) false (polling s))
  else (s, []).

Definition subscribeToSSE (s : t) (eventSource : bool)
    : t * list (output DataRow) :=
  let s := set_chain s (started s) (listening s) true (polling s) in
  if eventSource then
    (* a listener given an aborted signal is not registered *)
    (set_chain s (started s) (negb (aborted (abortController s)))
       true (polling s), [])
  else reject_sse s.

(** The ['update'] listener. *)
Definition on_update (s : t) (d : MessageData DataRow) (height : number)
    : t * list (output DataRow) :=
  match d with
  | Empty => (s, [])
  | Malformed => reject_sse s
  | Json None => (s, [])
  | Json (Some dataUpdates) => (s, [OnUpdate dataUpdates height])
  end.

(** The ['end'] listener. *)
Definition on_end (s : t) : t * list (output DataRow) :=
  (set_chain s (started s) (listening s) false (polling s), [OnCompleted]).

(** The ['error'] listener; [eventSource.CLOSED] is the constant 2. *)
Definition on_error (s : t) : t * list (output DataRow) :=
  let '(s, out) := reject_sse s in
  (s, OnError (ErrCause "SSE error" (Err "error")) :: out).

(** [unsubscribe()] *)
Definition unsubscribe (s : t) : t * list (output DataRow) :=
  if aborted (abortController s) then (s, [])
  else
    let s := abort s in
    if polling s is Some _ then reject_polling s AbortError else (s, []).

Definition step (s : t) (i : input DataRow) : t * list (output DataRow) :=
  match i with
  | Start eventSource =>
      if started s then (s, [])
      else
        let s := set_chain s true (listening s) (negotiating s) (polling s) in
        if disableSSE s then subscribeToLongPolling s
        else subscribeToSSE s eventSource
  | SseUpdate d height =>
      if listening s then on_update s d height else (s, [])
  | SseEnd => if listening s then on_end s else (s, [])
  | SseError => if listening s then on_error s else (s, [])
  | Fetched r =>
      if polling s is Some p then fetched s p r else (s, [])
  | Unsubscribe => unsubscribe s
  end.

Fixpoint run (s : t) (inputs : list (input DataRow))
    : t * list (output DataRow) :=
  match inputs with
  | [] => (s, [])
  | i :: rest =>
      let '(s, out) := step s i in
      let '(s, out') := run s rest in
      (s, out ++ out')
  end.

End DataRow.
End IndexerStream.

(** ** The accumulating classes *)

(** Calls of the consumer's callbacks by an accumulating class; a data set
    is handed over as a reference. *)
Inductive callback (Updates DataSets : Type) :=
  | onUpdate (dataUpdates : Updates) (height : number)
  | onAccumulated (dataSet : DataSets) (height : number)
  | onCompleted (dataSet : DataSets) (height : number)
  | onError (e : Error).
Arguments onUpdate {Updates DataSets} _ _.
Arguments onAccumulated {Updates DataSets} _ _.
Arguments onCompleted {Updates DataSets} _ _.
Arguments onError {Updates DataSets} _.

(** Type of the replaceable [accumulateUpdates] field. *)
Definition accumulator : Type :=
  ref → list BaseDataRow → AccumulatorOptions → heap → ref * heap.

(** [export function accumulateUpdates], under a name the classes below
    do not shadow with their field. *)
Abbreviation accumulateUpdates_function := accumulateUpdates.

(** The options object handed to the inner [IndexerStream]. *)
Definition inner_options (opts : StreamOptions.t) : StreamOptions.t :=
  {| StreamOptions.abortController := StreamOptions.abortController opts;
     StreamOptions.disableSSE := StreamOptions.disableSSE opts;
     StreamOptions.backoffFunc := None |}.

(** *** [class IndexerStreamAccumulateSingleDataSet] *)

Module IndexerStreamAccumulateSingleDataSet.

Record t := {
  dataSet : ref;
  dataHeight : number;
  stream : IndexerStream.t;
  accumulateUpdates : accumulator;
  (* [opts], captured by the callbacks given to the stream *)
  opts : AccumulatorOptions;
}.

Definition constructor (endpoint : URL) (aopts : AccumulatorOptions)
    (sopts : StreamOptions.t) (h : heap) : t * heap :=
  let '(m, h) := new_Map ∅ h in
  ({| dataSet := m; dataHeight := num 0;
      stream := IndexerStream.constructor endpoint (inner_options sopts);
      accumulateUpdates := accumulateUpdates_function;
      opts := aopts |}, h).

Definition accumulateDataSet (self : t) (dataUpdates : list BaseDataRow)
    (o : AccumulatorOptions) (h : heap) : ref * heap :=
  accumulateUpdates self (dataSet self) dataUpdates o h.

(** The [onUpdate] callback given to the stream. *)
Definition on_update (self : t) (dataUpdates : list BaseDataRow)
    (height : number) (h : heap)
    : t * heap * list (callback (list BaseDataRow) ref) :=
  let '(d, h) :=
    accumulateDataSet self dataUpdates
      {| mapEntryRemovalValue := mapEntryRemovalValue (opts self) |} h in
  ({| dataSet := d; dataHeight := height; stream := stream self;
      accumulateUpdates := accumulateUpdates self; opts := opts self |},
   h, [onUpdate dataUpdates height; onAccumulated d height]).

(** One output of the stream, as the callbacks given to it treat it. *)
Definition deliver (self : t) (h : heap) (o : output BaseDataRow)
    : t * heap * list (callback (list BaseDataRow) ref) :=
  match o with
  | OnUpdate dataUpdates height => on_update self dataUpdates height h
  | OnCompleted => (self, h, [onCompleted (dataSet self) (dataHeight self)])
  | OnError e => (self, h, [onError e])
  | _ => (self, h, [])
  end.

Fixpoint deliver_all (self : t) (h : heap) (out : list (output BaseDataRow))
    : t * heap * list (callback (list BaseDataRow) ref) :=
  match out with
  | [] => (self, h, [])
  | o :: out =>
      let '(self, h, c) := deliver self h o in
      let '(self, h, c') := deliver_all self h out in
      (self, h, c ++ c')
  end.

Definition set_stream (self : t) (s : IndexerStream.t) : t :=
  {| dataSet := dataSet self; dataHeight := dataHeight self; stream := s;
     accumulateUpdates := accumulateUpdates self; opts := opts self |}.

(** The environment delivers [i] to the stream of [self]; the result holds
    the outputs of the stream and the calls they cause. *)
Definition step (self : t) (h : heap) (i : input BaseDataRow)
    : t * heap * list (output BaseDataRow)
      * list (callback (list BaseDataRow) ref) :=
  let '(s, out) := IndexerStream.step (stream self) i in
  let '(self, h, c) := deliver_all (set_stream self s) h out in
  (self, h, out, c).

Fixpoint run (self : t) (h : heap) (inputs : list (input BaseDataRow))
    : t * heap * list (output BaseDataRow)
      * list (callback (list BaseDataRow) ref) :=
  match inputs with
  | [] => (self, h, [], [])
  | i :: rest =>
      let '(self, h, out, c) := step self h i in
      let '(self, h, out', c') := run self h rest in
      (self, h, out ++ out', c ++ c')
  end.

(** [unsubscribe()] is [this.stream?.unsubscribe()]. *)
Definition unsubscribe (self : t) (h : heap) := step self h Unsubscribe.

(** Assignment to the public field, as in
    [stream.accumulateUpdates = accumulateUpdatesUsingMutation]. *)
Definition set_accumulateUpdates (self : t) (f : accumulator) : t :=
  {| dataSet := dataSet self; dataHeight := dataHeight self;
     stream := stream self; accumulateUpdates := f; opts := opts self |}.

End IndexerStreamAccumulateSingleDataSet.

(** *** [class IndexerStreamAccumulateDualDataSet] *)

(** The class is given by its constructor and by the callbacks it hands to
    its stream.  Its [onUpdate] callback throws on a batch that is not a
    pair, which the trace of the stream does not follow: the class has no
    [run] of its own, and the properties below use batches that are
    pairs. *)
Module IndexerStreamAccumulateDualDataSet.

Record t := {
  (* always an array of two references *)
  dataSets : ref * ref;
  dataHeight : number;
  stream : IndexerStream.t;
  accumulateUpdates : accumulator;
  opts : AccumulatorOptions;
}.

Definition constructor (endpoint : URL) (aopts : AccumulatorOptions)
    (sopts : StreamOptions.t) (h : heap) : t * heap :=
  let '(m0, h) := new_Map ∅ h in
  let '(m1, h) := new_Map ∅ h in
  ({| dataSets := (m0, m1); dataHeight := num 0;
      stream := IndexerStream.constructor endpoint (inner_options sopts);
      accumulateUpdates := accumulateUpdates_function;
      opts := aopts |}, h).

(** [None]: [dataUpdates[0]] or [dataUpdates[1]] is undefined and iterating
    it throws a TypeError. *)
Definition accumulateDataSet (self : t)
    (dataUpdates : list (list BaseDataRow)) (o : AccumulatorOptions)
    (h : heap) : option (t * heap) :=
  u0 ← dataUpdates !! 0%nat;
  u1 ← dataUpdates !! 1%nat;
  let '(d0, h) := accumulateUpdates self (dataSets self).1 u0 o h in
  let '(d1, h) := accumulateUpdates self (dataSets self).2 u1 o h in
  Some ({| dataSets := (d0, d1); dataHeight := dataHeight self;
           stream := stream self;
           accumulateUpdates := accumulateUpdates self;
           opts := opts self |}, h).

(** The [onUpdate] callback given to the stream. *)
Definition on_update (self : t) (dataUpdates : list (list BaseDataRow))
    (height : number) (h : heap)
    : option (t * heap
              * list (callback (list (list BaseDataRow)) (ref * ref))) :=
  let self :=
    {| dataSets := dataSets self; dataHeight := height;
       stream := stream self; accumulateUpdates := accumulateUpdates self;
       opts := opts self |} in
  '(self, h) ←
    accumulateDataSet self dataUpdates
      {| mapEntryRemovalValue := mapEntryRemovalValue (opts self) |} h;
  Some (self, h,
        [onUpdate dataUpdates height;
         onAccumulated (dataSets self) (dataHeight self)]).

(** The [onCompleted] callback given to the stream. *)
Definition on_completed (self : t)
    : list (callback (list (list BaseDataRow)) (ref * ref)) :=
  [onCompleted (dataSets self) (dataHeight self)].

(** Assignment to the public field. *)
Definition set_accumulateUpdates (self : t) (f : accumulator) : t :=
  {| dataSets := dataSets self; dataHeight := dataHeight self;
     stream := stream self; accumulateUpdates := f; opts := opts self |}.

End IndexerStreamAccumulateDualDataSet.

Module Single := IndexerStreamAccumulateSingleDataSet.
Module Dual := IndexerStreamAccumulateDualDataSet.

(** ** [fetchSingleDataSetFromIndexer] (src/indexer/fetch.ts) *)

(** State of the promise that [fetchDataFromIndexer] returns. *)
Inductive Promise (A : Type) :=
  | Pending
  | Resolved (a : A)
  | Rejected (e : Error).
Arguments Pending {A}.
Arguments Resolved {A} _.
Arguments Rejected {A} _.

(** [fetchDataFromIndexer] with [IndexerStreamAccumulateSingleDataSet] as
    its [IndexerClass]. *)
Module fetch.

(** The stream the function creates, and the promise it returns. *)
Record t := {
  stream : Single.t;
  promise : Promise ref;
}.

(** [resolve(data)] and [reject(error)]: a settled promise stays as it
    is. *)
Definition resolve (self : t) (data : ref) : t :=
  {| stream := stream self;
     promise :=
       if promise self is Pending then Resolved data else promise self |}.

Definition reject (self : t) (e : Error) : t :=
  {| stream := stream self;
     promise :=
       if promise self is Pending then Rejected e else promise self |}.

(** [url.searchParams.append('pagination.before', before.toFixed(0))], where
    [before] stands for the numeral that [toFixed] prints for the seconds of
    the clock.  A parameter that is already there stays in front, and [get]
    reads the first value. *)
Definition append_pagination_before (url : URL) (before : string) : URL :=
  {| pagination_before := Some (default before (pagination_before url));
     pagination_key := pagination_key url;
     block_range_from_height := block_range_from_height url;
     block_range_to_height := block_range_to_height url |}.

(** The synchronous part of [fetchSingleDataSetFromIndexer(url, opts)]. *)
Definition fetchSingleDataSetFromIndexer (baseURL : URL) (before : string)
    (aopts : AccumulatorOptions) (sopts : StreamOptions.t) (h : heap)
    : t * heap :=
  let '(stream, h) :=
    Single.constructor (append_pagination_before baseURL before) aopts sopts
      h in
  ({| stream :=
        Single.set_accumulateUpdates stream accumulateUpdatesUsingMutation;
      promise := Pending |}, h).

(** The [onCompleted] callback, [stream.unsubscribe(); resolve(data)].  A
    request that the cancellation interrupts is rejected asynchronously: its
    error reaches [reject] after [resolve] has run. *)
Definition on_completed (self : t) (h : heap) (data : ref)
    : t * heap * list (output BaseDataRow) :=
  let '(stream, h, out, calls) := Single.unsubscribe (stream self) h in
  let self := resolve {| stream := stream; promise := promise self |} data in
  (foldl (λ self c, if c is onError e then reject self e else self)
     self calls,
   h, out).

(** One call of the stream, as the callbacks given to it treat it; no
    [onUpdate] and no [onAccumulated] callback is given. *)
Definition handle (self : t) (h : heap)
    (c : callback (list BaseDataRow) ref)
    : t * heap * list (output BaseDataRow) :=
  match c with
  | onCompleted data _ => on_completed self h data
  | onError e => (reject self e, h, [])
  | _ => (self, h, [])
  end.

Fixpoint handle_all (self : t) (h : heap)
    (calls : list (callback (list BaseDataRow) ref))
    : t * heap * list (output BaseDataRow) :=
  match calls with
  | [] => (self, h, [])
  | c :: calls =>
      let '(self, h, out) := handle self h c in
      let '(self, h, out') := handle_all self h calls in
      (self, h, out ++ out')
  end.

Definition set_stream (self : t) (stream : Single.t) : t :=
  {| stream := stream; promise := promise self |}.

(** The environment delivers [i] to the stream; the result holds the
    outputs of the stream. *)
Definition step (self : t) (h : heap) (i : input BaseDataRow)
    : t * heap * list (output BaseDataRow) :=
  let '(stream, h, out, calls) := Single.step (stream self) h i in
  let '(self, h, out') := handle_all (set_stream self stream) h calls in
  (self, h, out ++ out').

Fixpoint run (self : t) (h : heap) (inputs : list (input BaseDataRow))
    : t * heap * list (output BaseDataRow) :=
  match inputs with
  | [] => (self, h, [])
  | i :: rest =>
      let '(self, h, out) := step self h i in
      let '(self, h, out') := run self h rest in
      (self, h, out ++ out')
  end.

End fetch.

(** ** [useIndexerStreamOfSingleDataSet] (the hooks of src/indexer) *)

(** The subscription that [useIndexerStream] hands to
    [useSWRSubscription], with [IndexerStreamAccumulateSingleDataSet] as its
    [IndexerClass]. *)
Module useIndexerStream.

(** A call [next(error, data)]; [next(error)] leaves [data] undefined. *)
Record next := {
  error : option Error;
  data : option ref;
}.

(** [subscribe(url, { next })] up to the construction of the stream; the
    options of the hook are accumulator options only. *)
Definition subscribe (url : URL) (opts : AccumulatorOptions) (h : heap)
    : Single.t * heap :=
  Single.constructor url opts
    {| StreamOptions.abortController := None;
       StreamOptions.disableSSE := false;
       StreamOptions.backoffFunc := None |} h.

(** One call of the stream, as the callbacks given to it treat it; no
    [onUpdate] and no [onCompleted] callback is given. *)
Definition handle (c : callback (list BaseDataRow) ref) : list next :=
  match c with
  | onAccumulated dataSet _ => [{| error := None; data := Some dataSet |}]
  | onError e => [{| error := Some e; data := None |}]
  | _ => []
  end.

Definition step (stream : Single.t) (h : heap) (i : input BaseDataRow)
    : Single.t * heap * list next :=
  let '(stream, h, _, calls) := Single.step stream h i in
  (stream, h, calls ≫= handle).

Fixpoint run (stream : Single.t) (h : heap)
    (inputs : list (input BaseDataRow)) : Single.t * heap * list next :=
  match inputs with
  | [] => (stream, h, [])
  | i :: rest =>
      let '(stream, h, calls) := step stream h i in
      let '(stream, h, calls') := run stream h rest in
      (stream, h, calls ++ calls')
  end.

(** The function that [subscribe] returns, [() => stream.unsubscribe()]. *)
Definition dispose (stream : Single.t) (h : heap)
    : Single.t * heap * list next :=
  step stream h Unsubscribe.

End useIndexerStream.

(** ** Notions the properties are stated with *)

(** The merge as the specification words it: for each [(id, value)] in
    order, remove [id] when the sentinel is defined and the value equals it,
    otherwise set [id] to the value. *)
Definition equals_sentinel (v : values) (sentinel : value) : bool :=
  match v with
  | One x => value_strict_equals x sentinel
  | Many _ => false
  end.

Definition merge_row (sentinel : option value) (snapshot : DataSet)
    (row : BaseDataRow) : DataSet :=
  match sentinel with
  | Some s =>
      if equals_sentinel row.2 s then Map.delete row.1 snapshot
      else Map.set row.1 row.2 snapshot
  | None => Map.set row.1 row.2 snapshot
  end.

Fixpoint merge (snapshot : DataSet) (updates : list BaseDataRow)
    (sentinel : option value) : DataSet :=
  match updates with
  | [] => snapshot
  | row :: updates => merge (merge_row sentinel snapshot row) updates sentinel
  end.

(** The second component of the last row of a batch stored under [k]. *)
Fixpoint last_write (k : value) (updates : list BaseDataRow)
    : option values :=
  match updates with
  | [] => None
  | (id, data) :: updates =>
      match last_write k updates with
      | Some d => Some d
      | None => if bool_decide (Map.key id = k) then Some data else None
      end
  end.

(** The heights handed to [onUpdate], in order. *)
Definition update_heights {DataRow} (out : list (output DataRow))
    : list number :=
  omap (λ o, if o is OnUpdate _ height then Some height else None) out.

(** The height the transport reports with a batch of rows, when the input
    carries one: the prefix of the event id, or [block_range.to_height]. *)
Definition reported_height {DataRow} (i : input DataRow) : option number :=
  match i with
  | SseUpdate (Json (Some _)) height => Some height
  | Fetched (Response 200 (Some page)) =>
      Some (if block_range page is Some r then to_height r else NaN)
  | _ => None
  end.

Definition non_decreasing (heights : list number) : Prop :=
  Sorted (λ a b, number_le a b = true) heights.

Definition is_OuterPass {DataRow} (o : output DataRow) : bool :=
  if o is OuterPass then true else false.

Definition is_onCompleted {U D} (c : callback U D) : bool :=
  if c is onCompleted _ _ then true else false.

(** Number of passes of the outer loop. *)
Definition passes {DataRow} (out : list (output DataRow)) : nat :=
  length (List.filter is_OuterPass out).

(** The completion events among the calls of an accumulating class. *)
Definition completions {U D} (calls : list (callback U D))
    : list (callback U D) :=
  List.filter is_onCompleted calls.

(** The two functions a class can have in its [accumulateUpdates] field. *)
Definition known_accumulator (f : accumulator) : Prop :=
  f = accumulateUpdates ∨ f = accumulateUpdatesUsingMutation.

(** The values the declared type of [mapEntryRemovalValue] admits. *)
Definition declared_sentinel (opts : AccumulatorOptions) : Prop :=
  mapEntryRemovalValue opts = None
  ∨ mapEntryRemovalValue opts = Some (Num (num 0)).

(** The delays of the retries, in order. *)
Definition delays {DataRow} (out : list (output DataRow)) : list number :=
  omap (λ o, if o is SetTimeout ms then Some ms else None) out.

(** A response that is not a success. *)
Definition failure {DataRow} (status : Z) : input DataRow :=
  Fetched (Response status None).

(** Invariant of a controller: long polling runs only once the promise of
    [subscribeToSSE] is settled, and its known height is a number that is
    not negative. *)
Definition settled (s : IndexerStream.t) : Prop :=
  (IndexerStream.started s = false →
   IndexerStream.negotiating s = false ∧ IndexerStream.polling s = None)
  ∧ ∀ p, IndexerStream.polling s = Some p →
         IndexerStream.negotiating s = false
         ∧ number_le (num 0) (IndexerStream.knownHeight p) = true.

(** A controller on which nothing that is delivered has an effect. *)
Definition inert (s : IndexerStream.t) : Prop :=
  IndexerStream.started s = true
  ∧ IndexerStream.listening s = false
  ∧ IndexerStream.polling s = None
  ∧ aborted (IndexerStream.abortController s) = true.

(** A pending request for the first page of a pass of the outer loop, with
    no upper height in sight. *)
Definition first_page (s : IndexerStream.t) : Prop :=
  ∃ p, IndexerStream.polling s = Some p
       ∧ IndexerStream.nextKey p = None
       ∧ IndexerStream.retries p = 0
       ∧ number_lt (IndexerStream.knownHeight p) (IndexerStream.toHeight p)
         = true
       ∧ aborted (IndexerStream.abortController s) = false
       ∧ 0 < IndexerStream.maxRetries s.

(** A URL without query parameters, and one capped by
    [pagination.before]. *)
Definition plain_url : URL :=
  {| pagination_before := None; pagination_key := None;
     block_range_from_height := None; block_range_to_height := None |}.

Definition capped_url : URL :=
  {| pagination_before := Some "1700000000"; pagination_key := None;
     block_range_from_height := None; block_range_to_height := None |}.

(** [{ disableSSE: true }], with a custom back-off when one is given. *)
Definition pull_mode (backoff : option (nat → number)) : StreamOptions.t :=
  {| StreamOptions.abortController := None;
     StreamOptions.disableSSE := true;
     StreamOptions.backoffFunc := backoff |}.

(** No options. *)
Definition live_mode : StreamOptions.t :=
  {| StreamOptions.abortController := None;
     StreamOptions.disableSSE := false;
     StreamOptions.backoffFunc := None |}.

(** A page of rows with an optional cursor and an optional height. *)
Definition page_of {DataRow} (rows : list DataRow) (key : option string)
    (height : option number) : IndexerPage DataRow :=
  {| data := Some rows;
     pagination := Some {| next_key := key |};
     block_range :=
       (λ n, {| from_height := num 0; to_height := n |}) <$> height |}.

Definition success {DataRow} (page : IndexerPage DataRow) : input DataRow :=
  Fetched (Response 200 (Some page)).

(** The keys under which the rows of a batch are stored. *)
Definition ids (updates : list BaseDataRow) : list value :=
  (λ row, Map.key row.1) <$> updates.

(** The requests among the outputs of a stream, and the batches handed to
    [onUpdate], in order. *)
Definition requests {DataRow} (out : list (output DataRow)) : list URL :=
  omap (λ o, if o is Fetch u then Some u else None) out.

Definition batches {DataRow} (out : list (output DataRow))
    : list (list DataRow) :=
  omap (λ o, if o is OnUpdate dataUpdates _ then Some dataUpdates else None)
    out.

(** The updates and the errors among the outputs of a stream. *)
Definition stream_updates {DataRow} (out : list (output DataRow))
    : list (list DataRow * number) :=
  omap (λ o, if o is OnUpdate dataUpdates height
             then Some (dataUpdates, height) else None) out.

Definition stream_errors {DataRow} (out : list (output DataRow))
    : list Error :=
  omap (λ o, if o is OnError e then Some e else None) out.

Definition is_OnCompleted {DataRow} (o : output DataRow) : bool :=
  if o is OnCompleted then true else false.

(** Outputs that deliver data, complete the stream or issue a request. *)
Definition active {DataRow} (o : output DataRow) : bool :=
  match o with
  | OnUpdate _ _ | OnCompleted | Fetch _ => true
  | _ => false
  end.

(** The updates and the errors among the calls of an accumulating class,
    and the data sets handed to [onAccumulated] with their heights. *)
Definition forwarded_updates {U D} (calls : list (callback U D))
    : list (U * number) :=
  omap (λ c, if c is onUpdate dataUpdates height
             then Some (dataUpdates, height) else None) calls.

Definition forwarded_errors {U D} (calls : list (callback U D))
    : list Error :=
  omap (λ c, if c is onError e then Some e else None) calls.

Definition published {U D} (calls : list (callback U D)) : list D :=
  omap (λ c, if c is onAccumulated d _ then Some d else None) calls.

Definition accumulated_heights {U D} (calls : list (callback U D))
    : list number :=
  omap (λ c, if c is onAccumulated _ height then Some height else None) calls.

(** The content after each batch of a sequence, starting from [m]. *)
Fixpoint snapshots (opts : AccumulatorOptions) (m : DataSet)
    (bs : list (list BaseDataRow)) : list DataSet :=
  match bs with
  | [] => []
  | b :: bs => accumulated opts b m :: snapshots opts (accumulated opts b m) bs
  end.

(** What an endpoint can answer short of ending a page sequence: a failure,
    or a page that carries a cursor. *)
Inductive answer (DataRow : Type) :=
  | Failed (status : Z)
  | Paged (rows : list DataRow) (key : string) (height : option number).
Arguments Failed {DataRow} _.
Arguments Paged {DataRow} _ _ _.

Definition answer_input {DataRow} (a : answer DataRow) : input DataRow :=
  match a with
  | Failed status => failure status
  | Paged rows key height => success (page_of rows (Some key) height)
  end.

Definition answer_ok {DataRow} (a : answer DataRow) : Prop :=
  match a with
  | Failed status => status ≠ 200%Z
  | Paged _ key _ => string_truthy key = true
  end.

Definition failures {DataRow} (answers : list (answer DataRow)) : nat :=
  length (List.filter (λ a, if a is Failed _ then true else false) answers).

(** The rows of the pages among the answers, page by page. *)
Definition answer_rows {DataRow} (answers : list (answer DataRow))
    : list (list DataRow) :=
  omap (λ a, if a is Paged rows _ _ then Some rows else None) answers.

(** The first answer is not a failure. *)
Definition starts_with_page {DataRow} (answers : list (answer DataRow))
    : Prop :=
  if answers is Failed _ :: _ then False else True.

(** The errors of the two transports. *)
Definition fatal : Error :=
  ErrCause "Long-Polling Error" (Err "Could not fetch data after 5 times.").

Definition sse_error : Error := ErrCause "SSE error" (Err "error").

(** A request is pending inside a page sequence, after [retries]
    failures. *)
Definition paging (s : IndexerStream.t) (retries : nat) (toHeight : number)
    : Prop :=
  aborted (IndexerStream.abortController s) = false
  ∧ ∃ p key, IndexerStream.polling s = Some p
             ∧ IndexerStream.nextKey p = Some key
             ∧ IndexerStream.retries p = retries
             ∧ IndexerStream.toHeight p = toHeight.

(** The known height of a pending request is not negative. *)
Definition known_height_not_negative (s : IndexerStream.t) : Prop :=
  ∀ p, IndexerStream.polling s = Some p →
       number_lt (IndexerStream.knownHeight p) (num 0) = false.

(** Fields of a controller that no page and no failure changes. *)
Definition same_options (s s' : IndexerStream.t) : Prop :=
  IndexerStream.maxRetries s' = IndexerStream.maxRetries s
  ∧ IndexerStream.backoffFunc s' = IndexerStream.backoffFunc s
  ∧ IndexerStream.started s' = IndexerStream.started s
  ∧ IndexerStream.listening s' = IndexerStream.listening s
  ∧ IndexerStream.negotiating s' = IndexerStream.negotiating s.

(** A live subscription: the listeners are registered, the promise of
    [subscribeToSSE] is pending and long polling has not started. *)
Definition live_state (s : IndexerStream.t) : Prop :=
  IndexerStream.started s = true
  ∧ IndexerStream.listening s = true
  ∧ IndexerStream.negotiating s = true
  ∧ IndexerStream.polling s = None
  ∧ aborted (IndexerStream.abortController s) = false.

(** An input that does not report the height [Infinity]. *)
Definition finite_height {DataRow} (i : input DataRow) : Prop :=
  match i with
  | Fetched (Response _ (Some page)) =>
      match block_range page with
      | Some r => to_height r ≠ Infinity
      | None => True
      end
  | _ => True
  end.


(** The known height after a [fetch] has settled. *)
Definition advance {DataRow} (r : FetchResult DataRow) (known : number)
    : number :=
  match r with
  | Response 200 (Some page) =>
      match block_range page with
      | Some range =>
          if number_gt (to_height range) known then to_height range
          else known
      | None => known
      end
  | _ => known
  end.

(** The upper height of [subscribeToLongPolling] for an endpoint. *)
Definition upper_height (endpoint : URL) : number :=
  if default false (string_truthy <$> pagination_before endpoint) then num 0
  else
    let n := default (num 0) (block_range_to_height endpoint) in
    if number_truthy n then n else Infinity.

(** The page cursor the controller keeps from a page: [next_key] unless it
    is missing, null or empty. *)
Definition cursor {DataRow} (page : IndexerPage DataRow) : option string :=
  k ← pagination page ≫= next_key;
  if string_truthy k then Some k else None.

(** The flags of the promise chain that long polling leaves alone. *)
Definition same_flags (s s' : IndexerStream.t) : Prop :=
  IndexerStream.started s' = IndexerStream.started s
  ∧ IndexerStream.negotiating s' = IndexerStream.negotiating s
  ∧ IndexerStream.disableSSE s' = IndexerStream.disableSSE s
  ∧ IndexerStream.endpoint s' = IndexerStream.endpoint s
  ∧ (IndexerStream.listening s = false →
     IndexerStream.listening s' = false).

(** A request for [p'] follows from the loop variables [p]. *)
Definition next_request {DataRow} (p p' : IndexerStream.LongPolling)
    (out : list (output DataRow)) : Prop :=
  requests out = [IndexerStream.url p']
  ∧ IndexerStream.knownHeight p' = IndexerStream.knownHeight p
  ∧ IndexerStream.toHeight p' = IndexerStream.toHeight p
  ∧ (number_truthy (IndexerStream.knownHeight p') = true →
     block_range_from_height (IndexerStream.url p')
     = Some (IndexerStream.knownHeight p'))
  ∧ (is_Some (pagination_key (IndexerStream.url p)) →
     is_Some (pagination_key (IndexerStream.url p'))).

(** An ['update'] message that carries rows. *)
Definition update_input {DataRow} (u : list DataRow * number)
    : input DataRow :=
  SseUpdate (Json (Some u.1)) u.2.

(** A cancelled controller: the signal is aborted, no listener is
    registered and no request is pending. *)
Definition cancelled (s : IndexerStream.t) : Prop :=
  aborted (IndexerStream.abortController s) = true
  ∧ IndexerStream.listening s = false
  ∧ IndexerStream.polling s = None.

(** A controller whose signal is aborted is cancelled. *)
Definition cancelled_if_aborted (s : IndexerStream.t) : Prop :=
  aborted (IndexerStream.abortController s) = true → cancelled s.

(** The controller with another [disableSSE] option. *)
Definition with_disableSSE (s : IndexerStream.t) (b : bool)
    : IndexerStream.t :=
  {| IndexerStream.abortController := IndexerStream.abortController s;
     IndexerStream.backoffFunc := IndexerStream.backoffFunc s;
     IndexerStream.maxRetries := IndexerStream.maxRetries s;
     IndexerStream.endpoint := IndexerStream.endpoint s;
     IndexerStream.disableSSE := b;
     IndexerStream.started := IndexerStream.started s;
     IndexerStream.listening := IndexerStream.listening s;
     IndexerStream.negotiating := IndexerStream.negotiating s;
     IndexerStream.polling := IndexerStream.polling s |}.

(** The options with [disableSSE: true]. *)
Definition without_SSE (opts : StreamOptions.t) : StreamOptions.t :=
  {| StreamOptions.abortController := StreamOptions.abortController opts;
     StreamOptions.disableSSE := true;
     StreamOptions.backoffFunc := StreamOptions.backoffFunc opts |}.

(** [f] does not read the option. *)
Definition ignores_disableSSE {DataRow}
    (f : IndexerStream.t → IndexerStream.t * list (output DataRow)) : Prop :=
  ∀ s b, f (with_disableSSE s b) = (with_disableSSE (f s).1 b, (f s).2).



(** ** Properties of the accumulation *)

Lemma value_strict_equals_comm (a b : value) :
  value_strict_equals a b = value_strict_equals b a.
Proof.
  destruct a as [s|m], b as [t|n]; simpl; try done.
  - apply bool_decide_ext. naive_solver.
  - destruct m, n; simpl; try done; apply bool_decide_ext; naive_solver.
Qed.

(** The loop body is one step of the merge of the specification. *)
Lemma accumulate_row_merge_row (opts : AccumulatorOptions)
    (row : BaseDataRow) (m : DataSet) :
  accumulate_row opts row m = merge_row (mapEntryRemovalValue opts) m row.
Proof.
  destruct row as [id data], opts as [[s|]]; simpl; try done.
  unfold merge_row; simpl. destruct data as [v|vs]; simpl; try done.
  by rewrite value_strict_equals_comm.
Qed.

Lemma accumulated_merge (opts : AccumulatorOptions)
    (dataUpdates : list BaseDataRow) (m : DataSet) :
  accumulated opts dataUpdates m
  = merge m dataUpdates (mapEntryRemovalValue opts).
Proof.
  revert m. induction dataUpdates as [|row rest IH]; intros m; simpl.
  - done.
  - unfold accumulated in *. simpl. by rewrite IH, accumulate_row_merge_row.
Qed.

(** In place: the object behind [map] ends with the accumulated content and
    nothing else on the heap changes. *)
Lemma accumulateUpdatesUsingMutation_heap (map : ref)
    (dataUpdates : list BaseDataRow) (opts : AccumulatorOptions) (h : heap) :
  accumulateUpdatesUsingMutation map dataUpdates opts h
  = (map, <[map := accumulated opts dataUpdates (h !!! map)]> h).
Proof.
  revert h. induction dataUpdates as [|row rest IH]; intros h; simpl.
  - f_equal. destruct (decide (map < length h)) as [Hlt|Hge].
    + symmetry. apply list_insert_id. by apply list_lookup_lookup_total_lt.
    + symmetry. apply list_insert_ge. lia.
  - rewrite IH. f_equal. destruct (decide (map < length h)) as [Hlt|Hge].
    + rewrite list_lookup_total_insert_eq by done.
      by rewrite list_insert_insert_eq.
    + by rewrite !(list_insert_ge h) by lia.
Qed.

Lemma accumulateUpdates_heap (currentMap : ref)
    (dataUpdates : list BaseDataRow) (opts : AccumulatorOptions) (h : heap) :
  accumulateUpdates currentMap dataUpdates opts h
  = (length h, h ++ [accumulated opts dataUpdates (h !!! currentMap)]).
Proof.
  unfold accumulateUpdates, new_Map.
  rewrite accumulateUpdatesUsingMutation_heap. f_equal.
  rewrite lookup_total_app_r by done. rewrite Nat.sub_diag. simpl.
  replace (length h) with (length h + 0) at 1 by lia.
  by rewrite insert_app_r.
Qed.

(** Last write wins: what a batch leaves under a key. *)
Lemma accumulated_lookup (opts : AccumulatorOptions)
    (dataUpdates : list BaseDataRow) (m : DataSet) (k : value) :
  accumulated opts dataUpdates m !! k
  = match last_write k dataUpdates with
    | None => m !! k
    | Some d =>
        if strict_equals (mapEntryRemovalValue opts) d then None else Some d
    end.
Proof.
  revert m. induction dataUpdates as [|[id data] rest IH]; intros m.
  - done.
  - unfold accumulated in *. simpl. rewrite IH.
    destruct (last_write k rest) as [d|]; [done|].
    unfold accumulate_row, Map.delete, Map.set.
    case_bool_decide as Hk.
    + subst k. destruct (strict_equals _ data).
      * apply lookup_delete_eq.
      * apply lookup_insert_eq.
    + destruct (strict_equals _ data).
      * by apply lookup_delete_ne.
      * by apply lookup_insert_ne.
Qed.

Lemma accumulated_idempotent (opts : AccumulatorOptions)
    (dataUpdates : list BaseDataRow) (m : DataSet) :
  accumulated opts dataUpdates (accumulated opts dataUpdates m)
  = accumulated opts dataUpdates m.
Proof.
  apply map_eq; intros k. rewrite !accumulated_lookup.
  by destruct (last_write k dataUpdates).
Qed.

Lemma lookup_total_snoc (h : heap) (m : DataSet) :
  (h ++ [m]) !!! length h = m.
Proof. rewrite lookup_total_app_r by done. by rewrite Nat.sub_diag. Qed.

Lemma has_after_two_rows (aopts : AccumulatorOptions) (r1 r2 : BaseDataRow)
    (m : DataSet) :
  strict_equals (mapEntryRemovalValue aopts) r1.2 = false →
  strict_equals (mapEntryRemovalValue aopts) r2.2 = false →
  let snapshot := accumulated aopts [r2] (accumulated aopts [r1] m) in
  Map.has r1.1 snapshot = true ∧ Map.has r2.1 snapshot = true.
Proof.
  destruct r1 as [id1 d1], r2 as [id2 d2]. simpl. intros -> ->.
  unfold Map.has, Map.get, Map.set.
  split; apply bool_decide_eq_true.
  - destruct (decide (Map.key id2 = Map.key id1)) as [->|Hne].
    + rewrite lookup_insert_eq. by eexists.
    + rewrite lookup_insert_ne, lookup_insert_eq by done. by eexists.
  - rewrite lookup_insert_eq. by eexists.
Qed.

(** C1.  The merge handles the rows of the batch in the order given: with
    the sentinel defined and equal to the value the id is removed, otherwise
    the id is set to the value.  Both accumulation functions leave, in the
    object they return, the merge of the specification applied to the
    content they were given.  With sentinel 0, the batch [[(k, 0)]] removes
    [k] from a snapshot that has it (every other id keeps its value) and
    leaves a snapshot without [k] as it is. *)
Theorem accumulate_is_merge (map : ref) (dataUpdates : list BaseDataRow)
    (opts : AccumulatorOptions) (h : heap) (k : value) :
  map < length h →
  let snapshot := h !!! map in
  let zero := {| mapEntryRemovalValue := Some (Num (num 0)) |} in
  let removal := [(k, One (Num (num 0)))] in
  let mutated := accumulateUpdatesUsingMutation map dataUpdates opts h in
  let copied := accumulateUpdates map dataUpdates opts h in
  let removed := accumulateUpdatesUsingMutation map removal zero h in
  (mutated.1 = map
   ∧ mutated.2 !! map
     = Some (merge snapshot dataUpdates (mapEntryRemovalValue opts)))
  ∧ copied.2 !! copied.1
    = Some (merge snapshot dataUpdates (mapEntryRemovalValue opts))
  ∧ (∀ id, Map.get id (merge snapshot dataUpdates (mapEntryRemovalValue opts))
       = match last_write (Map.key id) dataUpdates with
         | None => Map.get id snapshot
         | Some value =>
             if strict_equals (mapEntryRemovalValue opts) value
             then None else Some value
         end)
  ∧ (Map.has k snapshot = true →
     Map.has k (removed.2 !!! map) = false
     ∧ ∀ id, Map.key id ≠ Map.key k →
         Map.get id (removed.2 !!! map) = Map.get id snapshot)
  ∧ (Map.has k snapshot = false → removed.2 = h).
Proof.
  intros Hmap snapshot zero removal mutated copied removed.
  subst mutated copied removed.
  rewrite !accumulateUpdatesUsingMutation_heap, accumulateUpdates_heap.
  simpl. fold snapshot.
  rewrite list_lookup_insert_eq by done.
  rewrite lookup_app_r by done. rewrite Nat.sub_diag. simpl.
  rewrite !accumulated_merge.
  rewrite list_lookup_total_insert_eq by done.
  split_and!; try done.
  - intros id. rewrite <-accumulated_merge. apply accumulated_lookup.
  - intros _. simpl. unfold merge_row, Map.has, Map.get, Map.delete. simpl.
    replace (number_strict_equals (num 0) (num 0)) with true by done.
    split.
    + apply bool_decide_eq_false. rewrite lookup_delete_eq.
      by intros [? ?].
    + intros id Hid. by rewrite lookup_delete_ne.
  - intros Hk. simpl. unfold merge_row, Map.delete. simpl.
    replace (number_strict_equals (num 0) (num 0)) with true by done.
    apply bool_decide_eq_false in Hk. unfold Map.get in Hk.
    rewrite delete_id.
    + apply list_insert_id. by apply list_lookup_lookup_total_lt.
    + by apply eq_None_not_Some.
Qed.

Lemma accumulate_is_merge_witness :
  (accumulateUpdatesUsingMutation 0
     [(Num (num 1), One (Num (num 0))); (Str "a", One (Str "x"))]
     {| mapEntryRemovalValue := Some (Num (num 0)) |}
     [{[Num (num 1) := One (Num (num 7))]}]).1 = 0.
Proof.
  refine (proj1 (proj1 (accumulate_is_merge 0 _ _
    [{[Num (num 1) := One (Num (num 7))]}] (Num (num 1)) _))).
  simpl. lia.
Defined.

(** C7.  The copying merge returns a new object and leaves the object it
    was given, and every other object of the heap, with the content it had
    before the call. *)
Theorem accumulateUpdates_leaves_original (currentMap : ref)
    (dataUpdates : list BaseDataRow) (opts : AccumulatorOptions) (h : heap) :
  currentMap < length h →
  let result := accumulateUpdates currentMap dataUpdates opts h in
  result.1 ≠ currentMap
  ∧ h !! result.1 = None
  ∧ result.2 !!! currentMap = h !!! currentMap
  ∧ take (length h) result.2 = h
  ∧ result.2 !! result.1
    = Some (accumulated opts dataUpdates (h !!! currentMap)).
Proof.
  intros Hcur result. subst result. rewrite accumulateUpdates_heap. simpl.
  split_and!.
  - lia.
  - by apply lookup_ge_None_2.
  - by rewrite lookup_total_app_l.
  - by rewrite take_app_length.
  - rewrite lookup_app_r by done. by rewrite Nat.sub_diag.
Qed.

Lemma accumulateUpdates_leaves_original_witness :
  (accumulateUpdates 0 [(Num (num 1), One (Str "x"))]
     {| mapEntryRemovalValue := None |} [∅]).2 !!! 0%nat
  = (∅ : DataSet).
Proof.
  refine (proj1 (proj2 (proj2 (accumulateUpdates_leaves_original 0
    [(Num (num 1), One (Str "x"))] {| mapEntryRemovalValue := None |}
    [∅] _)))).
  simpl. lia.
Defined.

(** The mutating merge, by contrast, changes the object it is given. *)
Example accumulateUpdatesUsingMutation_changes_original :
  (accumulateUpdatesUsingMutation 0 [(Num (num 1), One (Str "x"))]
     {| mapEntryRemovalValue := None |} [∅]).2 !!! 0%nat
  = ({[Num (num 1) := One (Str "x")]} : DataSet).
Proof. reflexivity. Qed.

(** C8.  Applying the merge twice with the same batch gives the snapshot
    that applying it once gives: in place the heap is the same after the
    second run as after the first, and the copy made by a second copying
    merge has the content of the copy made by the first. *)
Theorem accumulate_twice (map : ref) (dataUpdates : list BaseDataRow)
    (opts : AccumulatorOptions) (h : heap) (snapshot : DataSet) :
  let sentinel := mapEntryRemovalValue opts in
  let once := accumulateUpdatesUsingMutation map dataUpdates opts h in
  let copy := accumulateUpdates map dataUpdates opts h in
  let copy' := accumulateUpdates copy.1 dataUpdates opts copy.2 in
  merge (merge snapshot dataUpdates sentinel) dataUpdates sentinel
  = merge snapshot dataUpdates sentinel
  ∧ accumulateUpdatesUsingMutation once.1 dataUpdates opts once.2 = once
  ∧ copy'.2 !! copy'.1 = copy.2 !! copy.1.
Proof.
  intros sentinel once copy copy'. subst sentinel once copy copy'.
  split_and!.
  - rewrite <-!accumulated_merge. apply accumulated_idempotent.
  - rewrite !accumulateUpdatesUsingMutation_heap. simpl. f_equal.
    destruct (decide (map < length h)) as [Hlt|Hge].
    + rewrite list_lookup_total_insert_eq by done.
      by rewrite list_insert_insert_eq, accumulated_idempotent.
    + by rewrite !(list_insert_ge h) by lia.
  - rewrite !accumulateUpdates_heap. simpl.
    rewrite !lookup_app_r by done. rewrite !Nat.sub_diag. simpl.
    rewrite lookup_total_app_r by done. rewrite Nat.sub_diag. simpl.
    by rewrite accumulated_idempotent.
Qed.

(** ** Order of numbers *)

(** On zeros and finite numbers [<=] is the order of the rationals. *)
Lemma number_le_finite (a b : number) :
  match a, b with
  | (NegZero | Finite _), (NegZero | Finite _) =>
      number_le a b = true ↔ (rational a ≤ rational b)%Qc
  | _, _ => True
  end.
Proof.
  assert (∀ p q : Qc,
    bool_decide (p < q)%Qc || bool_decide (Finite p = Finite q) = true
    ↔ (p ≤ q)%Qc) as Hle.
  { intros p q. rewrite orb_true_iff, !bool_decide_eq_true. split.
    - intros [?|[= ->]]; [by apply Qclt_le_weak|apply Qcle_refl].
    - intros [?| ->]%Qcle_lt_or_eq; auto. }
  destruct a, b; try done; apply Hle.
Qed.

#[global] Instance number_le_transitive :
  Transitive (λ a b, number_le a b = true).
Proof.
  intros a b c Hab Hbc.
  pose proof (number_le_finite a b) as H1.
  pose proof (number_le_finite b c) as H2.
  pose proof (number_le_finite a c) as H3.
  destruct a, b, c; try done;
    apply H3; apply H1 in Hab; apply H2 in Hbc; by eapply Qcle_trans.
Qed.

Lemma number_lt_finite (a b : number) :
  match a, b with
  | (NegZero | Finite _), (NegZero | Finite _) =>
      number_lt a b = true ↔ (rational a < rational b)%Qc
  | _, _ => True
  end.
Proof. destruct a, b; try done; apply bool_decide_eq_true. Qed.

Lemma number_lt_trans (a b c : number) :
  number_lt a b = true → number_lt b c = true → number_lt a c = true.
Proof.
  intros Hab Hbc.
  pose proof (number_lt_finite a b) as H1.
  pose proof (number_lt_finite b c) as H2.
  pose proof (number_lt_finite a c) as H3.
  destruct a, b, c; try done;
    apply H3; apply H1 in Hab; apply H2 in Hbc; by eapply Qclt_trans.
Qed.

Lemma number_le_lt_trans (a b c : number) :
  number_le a b = true → number_lt b c = true → number_lt a c = true.
Proof.
  intros Hab Hbc.
  pose proof (number_le_finite a b) as H1.
  pose proof (number_lt_finite b c) as H2.
  pose proof (number_lt_finite a c) as H3.
  destruct a, b, c; try done;
    apply H3; apply H1 in Hab; apply H2 in Hbc; by eapply Qcle_lt_trans.
Qed.

Lemma number_lt_le (a b : number) :
  number_lt a b = true → number_le a b = true.
Proof. unfold number_le. by intros ->. Qed.

Lemma number_le_refl (a b : number) :
  number_le b a = true → number_le a a = true.
Proof.
  intros Hba. pose proof (number_le_finite a a) as H.
  destruct a; try done.
  - by destruct b.
  - apply H, Qcle_refl.
Qed.

Lemma StronglySorted_sublist {A} (R : relation A) (l1 l2 : list A) :
  l1 `sublist_of` l2 → StronglySorted R l2 → StronglySorted R l1.
Proof.
  induction 1 as [|x l1 l2 Hsub IH|x l1 l2 Hsub IH]; intros Hsorted.
  - done.
  - apply StronglySorted_inv in Hsorted as [Hl2 Hx]. constructor; [auto|].
    rewrite Forall_forall in *. intros y Hy. apply Hx.
    by eapply elem_of_sublist.
  - apply StronglySorted_inv in Hsorted as [Hl2 _]. auto.
Qed.

Lemma omap_cons_option_list {A B} (f : A → option B) (x : A) (l : list A) :
  omap f (x :: l) = option_list (f x) ++ omap f l.
Proof. simpl. by destruct (f x). Qed.

Lemma non_decreasing_sublist (l1 l2 : list number) :
  l1 `sublist_of` l2 → non_decreasing l2 → non_decreasing l1.
Proof.
  intros Hsub Hl2. apply StronglySorted_Sorted.
  eapply StronglySorted_sublist; [done|].
  by apply Sorted_StronglySorted; [apply number_le_transitive|].
Qed.

(** ** Properties of the controller *)

Section Controller.
Context {DataRow : Type}.
Implicit Types (s : IndexerStream.t) (p : IndexerStream.LongPolling).
Implicit Types (i : input DataRow) (out : list (output DataRow)).

(** [x ∉ o1 :: ... :: on :: out] when [x] differs from the outputs in
    front and [out] is known not to hold it. *)
Ltac not_in_trace :=
  repeat (apply not_elem_of_cons; split; [done|]);
  first [apply not_elem_of_nil | done | auto].

Lemma step_inert s i : inert s → IndexerStream.step s i = (s, []).
Proof.
  intros (Hst & Hli & Hpo & Hab). destruct i; simpl.
  - by rewrite Hst.
  - by rewrite Hli.
  - by rewrite Hli.
  - by rewrite Hli.
  - by rewrite Hpo.
  - unfold IndexerStream.unsubscribe. by rewrite Hab.
Qed.

Lemma run_inert s (inputs : list (input DataRow)) :
  inert s → IndexerStream.run s inputs = (s, []).
Proof.
  intros Hs. induction inputs as [|i rest IH]; simpl.
  - done.
  - by rewrite step_inert, IH.
Qed.

Lemma inert_on_failure s e :
  IndexerStream.started s = true →
  inert (IndexerStream.on_failure (DataRow:=DataRow) s e).1.
Proof. intros Hst. by repeat split. Qed.

(** In live mode a cancellation before any event silences the controller:
    the listeners are registered with the signal of the controller. *)
Lemma unsubscribe_in_live_mode (endpoint : URL)
    (rest : list (input DataRow)) :
  let s := IndexerStream.constructor endpoint live_mode in
  (IndexerStream.run s (Unsubscribe :: Start true :: rest)).2 = []
  ∧ (IndexerStream.run s (Start true :: Unsubscribe :: rest)).2 = [].
Proof.
  split; simpl; by rewrite run_inert.
Qed.

(** C4 (the code departs from it).  In pull mode a cancellation that
    precedes every event is followed by a call of [onError]: the aborted
    request rejects, and the rejection takes the path of a failed
    subscription.  This holds whether the cancellation comes before or
    after the promise chain of the constructor has issued the first
    request, and whatever is delivered afterwards. *)
Theorem unsubscribe_in_pull_mode (endpoint : URL)
    (backoff : option (nat → number)) (eventSource : bool)
    (rest : list (input DataRow)) :
  let s := IndexerStream.constructor endpoint (pull_mode backoff) in
  let failed :=
    [ConsoleError "Could not establish a connection to the indexer URL";
     OnError (ErrCause "Long-Polling Error" AbortError)] in
  (IndexerStream.run s (Unsubscribe :: Start eventSource :: rest)).2
  = OuterPass :: failed
  ∧ ∃ u,
      (IndexerStream.run s (Start eventSource :: Unsubscribe :: rest)).2
      = OuterPass :: Fetch u :: failed.
Proof.
  split; [|eexists]; simpl; by rewrite run_inert.
Qed.

Lemma run_cons s i (rest : list (input DataRow)) :
  IndexerStream.run s (i :: rest)
  = ((IndexerStream.run (IndexerStream.step s i).1 rest).1,
     (IndexerStream.step s i).2
     ++ (IndexerStream.run (IndexerStream.step s i).1 rest).2).
Proof.
  simpl. destruct (IndexerStream.step s i) as [s1 out]. simpl.
  by destruct (IndexerStream.run s1 rest).
Qed.

Lemma run_without_request s (statuses : list Z) :
  IndexerStream.polling s = None →
  IndexerStream.run s (failure (DataRow:=DataRow) <$> statuses) = (s, []).
Proof.
  intros Hs. induction statuses as [|status rest IH].
  - done.
  - rewrite fmap_cons, run_cons.
    assert (IndexerStream.step s (failure (DataRow:=DataRow) status)
            = (s, [])) as -> by (simpl; by rewrite Hs).
    simpl. by rewrite IH.
Qed.

Lemma first_page_failure s (status : Z) :
  first_page s → status ≠ 200%Z →
  ∃ s' u,
    IndexerStream.step s (failure (DataRow:=DataRow) status)
    = (s', [ConsoleError "Could not fetch long-polling data";
            SetTimeout (IndexerStream.backoffFunc s 0);
            OuterPass; Fetch u])
    ∧ first_page s'
    ∧ IndexerStream.backoffFunc s' = IndexerStream.backoffFunc s.
Proof.
  intros (p & Hp & Hkey & Hretries & Hlt & Hab & Hmax) Hstatus.
  unfold failure. simpl. rewrite Hp. simpl.
  rewrite bool_decide_eq_false_2 by done.
  rewrite Hretries, bool_decide_eq_true_2 by done.
  unfold IndexerStream.loop_conditions. simpl. rewrite Hkey, Hlt.
  unfold IndexerStream.outer_pass, IndexerStream.request. simpl.
  rewrite Hab. do 2 eexists. split; [done|]. split; [|done].
  eexists. simpl. by repeat split.
Qed.

Lemma first_page_failures s (statuses : list Z) :
  first_page s → Forall (λ status, status ≠ 200%Z) statuses →
  let result :=
    IndexerStream.run s (failure (DataRow:=DataRow) <$> statuses) in
  first_page result.1
  ∧ (∀ e, OnError e ∉ result.2)
  ∧ (OnCompleted ∉ result.2)
  ∧ delays result.2
    = replicate (length statuses) (IndexerStream.backoffFunc s 0).
Proof.
  intros Hs Hall. revert s Hs.
  induction Hall as [|status statuses Hstatus _ IH]; intros s Hs.
  - split_and!; [done|intros e; apply not_elem_of_nil
                |apply not_elem_of_nil|done].
  - cbn zeta. rewrite fmap_cons, run_cons.
    destruct (first_page_failure s status Hs Hstatus)
      as (s' & u & -> & Hs' & Hbackoff).
    destruct (IH s' Hs') as (? & Herr & Hcompleted & Hdelays).
    simpl. split_and!; [done|..].
    + intros e. not_in_trace.
    + not_in_trace.
    + by rewrite Hdelays, Hbackoff.
Qed.

(** C2 (the code departs from it).  In pull mode, on a URL without an upper
    height, no number of consecutive failures of the request for the first
    page of a pass raises the fatal error: [continue] leads to the loop
    conditions, the inner loop ends because there is no page cursor, and
    the next pass of the outer loop starts with [retries] at 0.  The
    controller goes on polling and every delay is that of retry 0.  On a
    URL capped by [pagination.before] the outer loop ends instead, and the
    first failure is followed by the completion event. *)
Theorem failures_on_first_page (endpoint : URL)
    (backoff : option (nat → number)) (eventSource : bool)
    (statuses : list Z) :
  pagination_before endpoint = None →
  block_range_to_height endpoint = None →
  Forall (λ status, status ≠ 200%Z) statuses →
  let s := IndexerStream.constructor endpoint (pull_mode backoff) in
  let result :=
    IndexerStream.run (DataRow:=DataRow) s
      (Start eventSource :: (failure <$> statuses)) in
  let capped :=
    IndexerStream.run (DataRow:=DataRow)
      (IndexerStream.constructor capped_url (pull_mode backoff))
      (Start eventSource :: (failure <$> statuses)) in
  ((∀ e, OnError e ∉ result.2)
   ∧ is_Some (IndexerStream.polling result.1)
   ∧ delays result.2
     = replicate (length statuses) (IndexerStream.backoffFunc s 0))
  ∧ (statuses ≠ [] → (∀ e, OnError e ∉ capped.2) ∧ OnCompleted ∈ capped.2).
Proof.
  intros Hbefore Hto Hall s result capped. split.
  - subst result. simpl.
    unfold IndexerStream.subscribeToLongPolling, IndexerStream.outer_pass.
    simpl. rewrite Hbefore, Hto. simpl.
    match goal with |- context [IndexerStream.run ?s1 _] =>
      assert (first_page s1) as Hs1
        by (eexists; simpl; by repeat split; try done; lia);
      pose proof (first_page_failures s1 statuses Hs1 Hall) as Hrun;
      destruct (IndexerStream.run s1 (failure <$> statuses)) as [s2 out]
    end.
    simpl in *. destruct Hrun as ((p & Hp & _) & Herr & _ & Hdelays).
    split_and!.
    + intros e. not_in_trace.
    + by rewrite Hp.
    + done.
  - intros Hne. subst capped. destruct Hall as [|status rest Hstatus _];
      [done|].
    simpl. rewrite bool_decide_eq_false_2 by done. simpl.
    rewrite run_without_request by done. simpl. split.
    + intros e. not_in_trace.
    + rewrite !elem_of_cons. auto 10.
Qed.

(** The loops never hand rows to [onUpdate] by themselves. *)
Lemma request_heights s p :
  update_heights (IndexerStream.request (DataRow:=DataRow) s p).2 = [].
Proof. unfold IndexerStream.request. by destruct (aborted _). Qed.

Lemma outer_pass_heights s u (toHeight knownHeight : number) :
  update_heights
    (IndexerStream.outer_pass (DataRow:=DataRow) s u toHeight knownHeight).2
  = [].
Proof.
  unfold IndexerStream.outer_pass.
  match goal with |- context [IndexerStream.request ?s ?p] =>
    pose proof (request_heights s p) as H;
    destruct (IndexerStream.request (DataRow:=DataRow) s p)
  end.
  done.
Qed.

Lemma loop_conditions_heights s p :
  update_heights (IndexerStream.loop_conditions (DataRow:=DataRow) s p).2
  = [].
Proof.
  unfold IndexerStream.loop_conditions.
  destruct (IndexerStream.nextKey p); [apply request_heights|].
  destruct (number_lt _ _); [apply outer_pass_heights|done].
Qed.

Lemma reject_sse_heights s :
  update_heights (IndexerStream.reject_sse (DataRow:=DataRow) s).2 = [].
Proof.
  unfold IndexerStream.reject_sse, IndexerStream.subscribeToLongPolling.
  destruct (IndexerStream.negotiating s); [apply outer_pass_heights|done].
Qed.

Lemma fetched_heights s p (r : FetchResult DataRow) :
  update_heights (IndexerStream.fetched s p r).2
  `sublist_of` option_list (reported_height (Fetched r)).
Proof.
  assert (∀ s p o1 o2,
    update_heights
      (let '(s', out) := IndexerStream.loop_conditions (DataRow:=DataRow) s p
       in (s', ConsoleError o1 :: SetTimeout o2 :: out)).2 = []) as Hretry.
  { intros s0 p0 o1 o2. pose proof (loop_conditions_heights s0 p0) as H.
    by destruct (IndexerStream.loop_conditions s0 p0). }
  assert (∀ s p rows height,
    update_heights
      (let '(s', out) := IndexerStream.loop_conditions (DataRow:=DataRow) s p
       in (s', OnUpdate rows height :: out)).2 = [height]) as Hpage.
  { intros s0 p0 rows height.
    pose proof (loop_conditions_heights s0 p0) as H.
    destruct (IndexerStream.loop_conditions s0 p0). simpl in *.
    by rewrite H. }
  destruct r as [status json|e]; [|apply sublist_nil_l].
  unfold IndexerStream.fetched. case_bool_decide as Hstatus.
  - subst status. destruct json as [page|]; [|apply sublist_nil_l].
    by rewrite Hpage.
  - match goal with |- ?l `sublist_of` _ =>
      assert (l = []) as ->; [|apply sublist_nil_l]
    end.
    case_bool_decide; [apply Hretry|done].
Qed.

(** One step of the controller calls [onUpdate] at most once, with the
    height its input reports. *)
Lemma step_heights s i :
  update_heights (IndexerStream.step s i).2
  `sublist_of` option_list (reported_height i).
Proof.
  destruct i as [eventSource|d height| | |r|].
  - simpl. destruct (IndexerStream.started s); [done|].
    destruct (IndexerStream.disableSSE s).
    + unfold IndexerStream.subscribeToLongPolling.
      by rewrite outer_pass_heights.
    + unfold IndexerStream.subscribeToSSE.
      destruct eventSource; [done|]. by rewrite reject_sse_heights.
  - simpl. destruct (IndexerStream.listening s); [|apply sublist_nil_l].
    destruct d as [| |[rows|]]; simpl; try done.
    by rewrite reject_sse_heights.
  - simpl. by destruct (IndexerStream.listening s).
  - simpl. destruct (IndexerStream.listening s); [|done].
    unfold IndexerStream.on_error.
    pose proof (reject_sse_heights s) as H.
    destruct (IndexerStream.reject_sse s). simpl in *. by rewrite H.
  - unfold IndexerStream.step.
    destruct (IndexerStream.polling s) as [p|]; [|apply sublist_nil_l].
    apply fetched_heights.
  - simpl. unfold IndexerStream.unsubscribe.
    destruct (aborted _); [done|]. simpl.
    by destruct (IndexerStream.polling s).
Qed.

Lemma run_heights s (inputs : list (input DataRow)) :
  update_heights (IndexerStream.run s inputs).2
  `sublist_of` omap reported_height inputs.
Proof.
  revert s. induction inputs as [|i rest IH]; intros s.
  - done.
  - rewrite run_cons, omap_cons_option_list. cbn [snd].
    unfold update_heights at 1. rewrite omap_app.
    apply sublist_app; [apply step_heights|apply IH].
Qed.

(** C3 (as amended).  The heights handed to [onUpdate] are heights the
    transport reported, in the order of their arrival; when the reported
    heights are non-decreasing, so are the heights handed to [onUpdate]. *)
Theorem update_heights_follow_transport s (inputs : list (input DataRow)) :
  non_decreasing (omap reported_height inputs) →
  update_heights (IndexerStream.run s inputs).2
  `sublist_of` omap reported_height inputs
  ∧ non_decreasing (update_heights (IndexerStream.run s inputs).2).
Proof.
  intros Hsorted. split; [apply run_heights|].
  eapply non_decreasing_sublist; [apply run_heights|done].
Qed.

Lemma loop_conditions_knownHeight s p p' :
  IndexerStream.polling
    (IndexerStream.loop_conditions (DataRow:=DataRow) s p).1 = Some p' →
  IndexerStream.knownHeight p' = IndexerStream.knownHeight p.
Proof.
  unfold IndexerStream.loop_conditions, IndexerStream.outer_pass,
    IndexerStream.request.
  destruct (IndexerStream.nextKey p),
    (number_lt (IndexerStream.knownHeight p) (IndexerStream.toHeight p)),
    (aborted (IndexerStream.abortController s));
    simpl; intros; by simplify_eq.
Qed.

(** C10.  A successful response whose body has no [block_range] still
    hands the rows of the page to [onUpdate], with NaN as height, and the
    known height with which the next request is made is the one the
    controller had. *)
Theorem page_without_block_range s p (page : IndexerPage DataRow) :
  IndexerStream.polling s = Some p →
  block_range page = None →
  let result := IndexerStream.step s (success page) in
  (∃ out, result.2 = OnUpdate (default [] (data page)) NaN :: out)
  ∧ ∀ p', IndexerStream.polling result.1 = Some p' →
          IndexerStream.knownHeight p' = IndexerStream.knownHeight p.
Proof.
  intros Hp Hrange. simpl. rewrite Hp. simpl. rewrite Hrange.
  match goal with |- context [IndexerStream.loop_conditions ?s ?p] =>
    pose proof (loop_conditions_knownHeight s p) as H;
    destruct (IndexerStream.loop_conditions (DataRow:=DataRow) s p)
  end.
  simpl in *. split; [by eexists|done].
Qed.

(** Pull mode under a cap: how the controller starts, and what a page
    with and without a cursor leads to. *)
Lemma start_in_pull_mode (endpoint : URL) (sopts : StreamOptions.t)
    (eventSource : bool) :
  StreamOptions.disableSSE sopts = true ∨ eventSource = false →
  default false (aborted <$> StreamOptions.abortController sopts) = false →
  ∃ s p u,
    IndexerStream.step (DataRow:=DataRow)
      (IndexerStream.constructor endpoint sopts) (Start eventSource)
    = (s, [OuterPass; Fetch u])
    ∧ IndexerStream.polling s = Some p
    ∧ aborted (IndexerStream.abortController s) = false
    ∧ IndexerStream.knownHeight p = num 0
    ∧ IndexerStream.toHeight p
      = if default false (string_truthy <$> pagination_before endpoint)
        then num 0
        else
          let n := default (num 0) (block_range_to_height endpoint) in
          if number_truthy n then n else Infinity.
Proof.
  intros Hpull Hsignal.
  assert (aborted (default {| aborted := false |}
                     (StreamOptions.abortController sopts)) = false) as Hab.
  { by destruct (StreamOptions.abortController sopts). }
  cbn [IndexerStream.step IndexerStream.constructor IndexerStream.started
       IndexerStream.set_chain IndexerStream.disableSSE].
  assert (∀ s, IndexerStream.abortController s
               = default {| aborted := false |}
                   (StreamOptions.abortController sopts) →
    ∃ s' p u,
      IndexerStream.subscribeToLongPolling (DataRow:=DataRow) s
      = (s', [OuterPass; Fetch u])
      ∧ IndexerStream.polling s' = Some p
      ∧ aborted (IndexerStream.abortController s') = false
      ∧ IndexerStream.knownHeight p = num 0
      ∧ IndexerStream.toHeight p
        = if default false
               (string_truthy <$> pagination_before (IndexerStream.endpoint s))
          then num 0
          else
            let n :=
              default (num 0)
                (block_range_to_height (IndexerStream.endpoint s)) in
            if number_truthy n then n else Infinity) as Hpoll.
  { intros s Hs.
    unfold IndexerStream.subscribeToLongPolling, IndexerStream.outer_pass,
      IndexerStream.request.
    cbn [IndexerStream.knownHeight IndexerStream.nextKey IndexerStream.url
         IndexerStream.toHeight IndexerStream.retries].
    rewrite Hs, Hab. do 3 eexists. split; [reflexivity|].
    cbn. by rewrite Hs, Hab. }
  destruct Hpull as [-> | ->].
  - by apply Hpoll.
  - destruct (StreamOptions.disableSSE sopts); [by apply Hpoll|].
    unfold IndexerStream.subscribeToSSE, IndexerStream.reject_sse.
    cbn [IndexerStream.set_chain IndexerStream.negotiating].
    by apply Hpoll.
Qed.

Lemma page_with_cursor s p (rows : list DataRow) (key : string)
    (height : option number) :
  IndexerStream.polling s = Some p →
  aborted (IndexerStream.abortController s) = false →
  string_truthy key = true →
  ∃ s' p' u,
    IndexerStream.step s (success (page_of rows (Some key) height))
    = (s', [OnUpdate rows (default NaN height); Fetch u])
    ∧ IndexerStream.polling s' = Some p'
    ∧ aborted (IndexerStream.abortController s') = false
    ∧ IndexerStream.toHeight p' = IndexerStream.toHeight p
    ∧ (number_lt (IndexerStream.knownHeight p) (num 0) = false →
       number_lt (IndexerStream.knownHeight p') (num 0) = false).
Proof.
  intros Hp Hab Hkey.
  unfold success, page_of. cbn [IndexerStream.step]. rewrite Hp.
  unfold IndexerStream.fetched.
  rewrite bool_decide_eq_true_2 by done.
  cbn [block_range pagination data next_key mbind option_bind default].
  rewrite Hkey.
  unfold IndexerStream.loop_conditions, IndexerStream.request.
  cbn [IndexerStream.nextKey IndexerStream.knownHeight IndexerStream.url
       IndexerStream.toHeight IndexerStream.retries].
  rewrite Hab. do 3 eexists. split.
  { f_equal. f_equal. f_equal. by destruct height. }
  cbn. split_and!; [done..|].
  intros Hknown. destruct height as [n|]; [|done]. cbn.
  destruct (number_gt n (IndexerStream.knownHeight p)) eqn:Hgt; [|done].
  apply not_true_is_false. intros Hn.
  by rewrite (number_lt_trans (IndexerStream.knownHeight p) n (num 0))
    in Hknown.
Qed.

Lemma last_page_under_cap s p (rows : list DataRow)
    (height : option number) :
  IndexerStream.polling s = Some p →
  IndexerStream.toHeight p = num 0 →
  number_lt (IndexerStream.knownHeight p) (num 0) = false →
  ∃ s',
    IndexerStream.step s (success (page_of rows None height))
    = (s', [OnUpdate rows (default NaN height); OnCompleted])
    ∧ IndexerStream.polling s' = None.
Proof.
  intros Hp Hto Hknown.
  unfold success, page_of. cbn [IndexerStream.step]. rewrite Hp.
  unfold IndexerStream.fetched.
  rewrite bool_decide_eq_true_2 by done.
  cbn [block_range pagination data next_key mbind option_bind default].
  unfold IndexerStream.loop_conditions.
  cbn [IndexerStream.nextKey IndexerStream.knownHeight IndexerStream.url
       IndexerStream.toHeight IndexerStream.retries].
  rewrite Hto.
  assert (number_lt
            match (λ n, {| from_height := num 0; to_height := n |}) <$> height
            with
            | Some r =>
                if number_gt (to_height r) (IndexerStream.knownHeight p)
                then to_height r else IndexerStream.knownHeight p
            | None => IndexerStream.knownHeight p
            end (num 0) = false) as ->.
  { destruct height as [n|]; [|done]. cbn.
    destruct (number_gt n (IndexerStream.knownHeight p)) eqn:Hgt; [|done].
    apply not_true_is_false. intros Hn.
    by rewrite (number_lt_trans (IndexerStream.knownHeight p) n (num 0))
      in Hknown. }
  eexists. split.
  - f_equal. f_equal. f_equal. by destruct height.
  - done.
Qed.

(** *** The known height *)

Lemma request_settled s p :
  IndexerStream.started s = true →
  IndexerStream.negotiating s = false →
  number_le (num 0) (IndexerStream.knownHeight p) = true →
  let s' := (IndexerStream.request (DataRow:=DataRow) s p).1 in
  settled s'
  ∧ ∀ p', IndexerStream.polling s' = Some p' →
          IndexerStream.knownHeight p' = IndexerStream.knownHeight p.
Proof.
  intros Hst Hne Hp. unfold IndexerStream.request.
  destruct (aborted (IndexerStream.abortController s));
    unfold settled; simpl; rewrite Hst.
  - by repeat split.
  - split; [split|]; [done| |]; by intros p' [= <-].
Qed.

Lemma loop_conditions_settled s p :
  IndexerStream.started s = true →
  IndexerStream.negotiating s = false →
  number_le (num 0) (IndexerStream.knownHeight p) = true →
  let s' := (IndexerStream.loop_conditions (DataRow:=DataRow) s p).1 in
  settled s'
  ∧ ∀ p', IndexerStream.polling s' = Some p' →
          IndexerStream.knownHeight p' = IndexerStream.knownHeight p.
Proof.
  intros Hst Hne Hp. unfold IndexerStream.loop_conditions.
  destruct (IndexerStream.nextKey p); [by apply request_settled|].
  destruct (number_lt _ _).
  - unfold IndexerStream.outer_pass.
    match goal with |- context [IndexerStream.request ?s ?p] =>
      pose proof (request_settled s p Hst Hne Hp) as H;
      destruct (IndexerStream.request (DataRow:=DataRow) s p)
    end.
    done.
  - unfold settled. simpl. rewrite Hst. by repeat split.
Qed.

Lemma subscribeToLongPolling_settled s :
  IndexerStream.started s = true →
  IndexerStream.negotiating s = false →
  settled (IndexerStream.subscribeToLongPolling (DataRow:=DataRow) s).1.
Proof.
  intros Hst Hne.
  unfold IndexerStream.subscribeToLongPolling, IndexerStream.outer_pass.
  match goal with |- context [IndexerStream.request ?s ?p] =>
    pose proof (request_settled s p Hst Hne eq_refl) as [H _];
    destruct (IndexerStream.request (DataRow:=DataRow) s p)
  end.
  done.
Qed.

Lemma fetched_settled s p (r : FetchResult DataRow) :
  IndexerStream.started s = true →
  IndexerStream.negotiating s = false →
  number_le (num 0) (IndexerStream.knownHeight p) = true →
  let s' := (IndexerStream.fetched s p r).1 in
  settled s'
  ∧ ∀ p', IndexerStream.polling s' = Some p' →
          number_le (IndexerStream.knownHeight p)
            (IndexerStream.knownHeight p') = true.
Proof.
  intros Hst Hne Hp.
  assert (settled (IndexerStream.set_polling (IndexerStream.abort s) None))
    as Hfail by (unfold settled; simpl; rewrite Hst; by repeat split).
  pose proof (number_le_refl _ _ Hp) as Hrefl.
  destruct r as [status json|e]; [|by split]. unfold IndexerStream.fetched.
  case_bool_decide.
  - destruct json as [page|]; [|by split].
    match goal with |- context [IndexerStream.loop_conditions _ ?q] =>
      assert (number_le (num 0) (IndexerStream.knownHeight q) = true
              ∧ number_le (IndexerStream.knownHeight p)
                  (IndexerStream.knownHeight q) = true) as [Hp' Hle];
      [|pose proof (loop_conditions_settled s q Hst Hne Hp') as [H1 H2];
        destruct (IndexerStream.loop_conditions (DataRow:=DataRow) s q)]
    end.
    + simpl. destruct (block_range page) as [range|]; [|done].
      unfold number_gt.
      destruct (number_lt (IndexerStream.knownHeight p) (to_height range))
        eqn:Hlt; [|done].
      split; [|by apply number_lt_le].
      by eapply number_lt_le, number_le_lt_trans.
    + simpl in *. split; [done|]. intros p' Hp''.
      by rewrite (H2 p' Hp'').
  - case_bool_decide; [|by split].
    match goal with |- context [IndexerStream.loop_conditions ?s ?p] =>
      pose proof (loop_conditions_settled s p Hst Hne Hp) as [H1 H2];
      destruct (IndexerStream.loop_conditions (DataRow:=DataRow) s p)
    end.
    simpl in *. split; [done|]. intros p' Hp''. by rewrite (H2 p' Hp'').
Qed.

Lemma settled_monotone s p p' :
  settled s → IndexerStream.polling s = Some p →
  IndexerStream.polling s = Some p' →
  number_le (IndexerStream.knownHeight p) (IndexerStream.knownHeight p')
  = true.
Proof.
  intros [_ Hs] Hp Hp'. rewrite Hp in Hp'. injection Hp' as <-.
  destruct (Hs p Hp) as [_ H0]. by eapply number_le_refl.
Qed.

Lemma settled_started s p :
  settled s → IndexerStream.polling s = Some p →
  IndexerStream.started s = true ∧ IndexerStream.negotiating s = false.
Proof.
  intros [Hs1 Hs2] Hp. split; [|by apply (Hs2 p)].
  destruct (IndexerStream.started s); [done|].
  destruct Hs1 as [_ Hnone]; [done|]. by rewrite Hnone in Hp.
Qed.

Lemma reject_sse_settled s :
  settled s →
  let s' := (IndexerStream.reject_sse (DataRow:=DataRow) s).1 in
  settled s'
  ∧ ∀ p p', IndexerStream.polling s = Some p →
            IndexerStream.polling s' = Some p' →
            number_le (IndexerStream.knownHeight p)
              (IndexerStream.knownHeight p') = true.
Proof.
  intros Hs. unfold IndexerStream.reject_sse.
  destruct (IndexerStream.negotiating s) eqn:Hne.
  - split.
    + apply subscribeToLongPolling_settled; [|done]. simpl.
      destruct Hs as [Hs _]. destruct (IndexerStream.started s); [done|].
      destruct Hs as [Hs _]; [done|]. by rewrite Hs in Hne.
    + intros p p' Hp. destruct (settled_started s p Hs Hp) as [_ Hfalse].
      by rewrite Hfalse in Hne.
  - split; [done|]. intros p p'. by apply settled_monotone.
Qed.

(** The known height of a controller never decreases, whatever the
    endpoint reports. *)
Lemma step_settled s (i : input DataRow) :
  settled s →
  let s' := (IndexerStream.step s i).1 in
  settled s'
  ∧ ∀ p p', IndexerStream.polling s = Some p →
            IndexerStream.polling s' = Some p' →
            number_le (IndexerStream.knownHeight p)
              (IndexerStream.knownHeight p') = true.
Proof.
  intros Hs.
  assert (∀ p p', IndexerStream.polling s = Some p →
                  IndexerStream.polling s = Some p' →
                  number_le (IndexerStream.knownHeight p)
                    (IndexerStream.knownHeight p') = true) as Hsame
    by (intros p p'; by apply settled_monotone).
  destruct i as [eventSource|d height| | |r|]; cbn [IndexerStream.step].
  - destruct (IndexerStream.started s) eqn:Hst; [by split|].
    destruct Hs as [Hs _]. destruct (Hs Hst) as [Hne Hnone].
    split; [|intros p p' Hp; by rewrite Hnone in Hp].
    cbn [IndexerStream.disableSSE IndexerStream.set_chain].
    destruct (IndexerStream.disableSSE s).
    + by apply subscribeToLongPolling_settled.
    + unfold IndexerStream.subscribeToSSE. destruct eventSource.
      * unfold settled. simpl. rewrite Hnone. by split.
      * unfold IndexerStream.reject_sse.
        cbn [IndexerStream.set_chain IndexerStream.negotiating].
        by apply subscribeToLongPolling_settled.
  - destruct (IndexerStream.listening s); [|by split].
    destruct d as [| |[rows|]]; try (by split).
    by apply reject_sse_settled.
  - destruct (IndexerStream.listening s); [|by split].
    split; [|done]. destruct Hs as [Hs1 Hs2]. split.
    + simpl. intros Hst. by destruct (Hs1 Hst) as [_ ->].
    + simpl. intros p Hp. split; [done|]. by apply (Hs2 p).
  - destruct (IndexerStream.listening s); [|by split].
    unfold IndexerStream.on_error.
    pose proof (reject_sse_settled s Hs) as H.
    by destruct (IndexerStream.reject_sse s).
  - destruct (IndexerStream.polling s) as [p|] eqn:Hp; [|by split].
    destruct (settled_started s p Hs Hp) as [Hst Hne].
    destruct Hs as [_ Hs]. destruct (Hs p Hp) as [_ H0].
    destruct (fetched_settled s p r Hst Hne H0) as [H1 H2].
    split; [done|]. intros ? p' [= <-]. apply H2.
  - unfold IndexerStream.unsubscribe.
    destruct (aborted (IndexerStream.abortController s)); [by split|].
    destruct Hs as [Hs1 Hs2].
    destruct (IndexerStream.polling s) as [p|] eqn:Hp; simpl; rewrite ?Hp.
    + split; [|done]. destruct (Hs2 p eq_refl) as [Hne _].
      unfold settled. simpl. by split.
    + split; [|done]. unfold settled. simpl. rewrite Hp. split; [|done].
      intros Hst. by destruct (Hs1 Hst).
Qed.

Lemma run_settled s (inputs : list (input DataRow)) :
  settled s → settled (IndexerStream.run s inputs).1.
Proof.
  revert s. induction inputs as [|i rest IH]; intros s Hs; [done|].
  rewrite run_cons. simpl. apply IH. by apply step_settled.
Qed.

(** X5.  The known height of long polling never decreases: for a stream
    reached from its construction by any inputs, the request that is
    pending after one more input has a known height that is at least the
    one before. *)
Lemma known_height_never_decreases (endpoint : URL) (opts : StreamOptions.t)
    (inputs : list (input DataRow)) (i : input DataRow) p p' :
  let s := (IndexerStream.run (IndexerStream.constructor endpoint opts)
              inputs).1 in
  IndexerStream.polling s = Some p →
  IndexerStream.polling (IndexerStream.step s i).1 = Some p' →
  number_le (IndexerStream.knownHeight p) (IndexerStream.knownHeight p')
  = true.
Proof.
  intros s. apply step_settled. apply run_settled. by split.
Qed.

End Controller.

(** Witnesses and a counterexample for the properties of the controller. *)

Lemma failures_on_first_page_witness :
  delays
    (IndexerStream.run (DataRow:=BaseDataRow)
       (IndexerStream.constructor plain_url (pull_mode None))
       (Start true :: (failure <$> replicate 6 500%Z))).2
  = replicate 6 (num 0).
Proof.
  refine (proj2 (proj2 (proj1 (failures_on_first_page (DataRow:=BaseDataRow)
    plain_url None true (replicate 6 500%Z) _ _ _)))).
  - reflexivity.
  - reflexivity.
  - repeat constructor; lia.
Defined.

(** Within a page sequence the retries do add up: the sixth consecutive
    failure raises the fatal error, and no completion event follows. *)
Example failures_within_pagination :
  (IndexerStream.run (DataRow:=BaseDataRow)
     (IndexerStream.constructor plain_url (pull_mode None))
     (Start true :: success (page_of [] (Some "a") None)
      :: (failure <$> replicate 6 500%Z))).2
  = [OuterPass; Fetch plain_url; OnUpdate [] NaN]
    ++ flat_map
         (λ retries,
            [Fetch {| pagination_before := None; pagination_key := Some "a";
                      block_range_from_height := None;
                      block_range_to_height := None |};
             ConsoleError "Could not fetch long-polling data";
             SetTimeout (IndexerStream.default_backoffFunc retries)])
         (seq 0 5)
    ++ [Fetch {| pagination_before := None; pagination_key := Some "a";
                 block_range_from_height := None;
                 block_range_to_height := None |};
        ConsoleError "Could not establish a connection to the indexer URL";
        OnError (ErrCause "Long-Polling Error"
                   (Err "Could not fetch data after 5 times."))].
Proof. reflexivity. Qed.

(** C3 (as stated, refuted).  Two pages whose reported heights are 10 and
    then 5 are handed to [onUpdate] with the heights 10 and then 5; a page
    at height 10 followed by a page without [block_range] is handed over
    with the heights 10 and then NaN. *)
Lemma update_heights_decrease :
  let lower :=
    (IndexerStream.run
       (IndexerStream.constructor plain_url (pull_mode None))
       [Start true;
        success (page_of ([] : list BaseDataRow) None (Some (num 10)));
        success (page_of [] None (Some (num 5)))]).2 in
  let missing :=
    (IndexerStream.run
       (IndexerStream.constructor plain_url (pull_mode None))
       [Start true;
        success (page_of ([] : list BaseDataRow) None (Some (num 10)));
        success (page_of [] None None)]).2 in
  (update_heights lower = [num 10; num 5]
   ∧ ¬ non_decreasing (update_heights lower))
  ∧ (update_heights missing = [num 10; NaN]
     ∧ ¬ non_decreasing (update_heights missing)).
Proof.
  assert (∀ a b, number_le a b = false → ¬ non_decreasing [a; b]) as Hpair.
  { intros a b Hab Hsorted. apply Sorted_inv in Hsorted as [_ Hhd].
    apply HdRel_inv in Hhd. by rewrite Hab in Hhd. }
  split; (split; [reflexivity|apply Hpair; reflexivity]).
Qed.

Lemma update_heights_follow_transport_witness :
  non_decreasing
    (update_heights
       (IndexerStream.run
          (IndexerStream.constructor plain_url (pull_mode None))
          [Start true;
           success (page_of ([] : list BaseDataRow) None (Some (num 5)));
           success (page_of [] None (Some (num 10)))]).2).
Proof.
  refine (proj2 (update_heights_follow_transport _ _ _)).
  repeat constructor; vm_compute; reflexivity.
Defined.

Lemma page_without_block_range_witness :
  ∃ out,
    (IndexerStream.step
       (IndexerStream.step
          (IndexerStream.constructor plain_url (pull_mode None))
          (Start (DataRow:=BaseDataRow) true)).1
       (success (page_of [(Num (num 1), One (Str "x"))] (Some "a") None))).2
    = OnUpdate [(Num (num 1), One (Str "x"))] NaN :: out.
Proof.
  refine (proj1 (page_without_block_range _ _ _ _ _)); reflexivity.
Defined.

(** ** Properties of the accumulating classes *)

Lemma dual_on_update (self : Dual.t) (h : heap)
    (u0 u1 : list BaseDataRow) (height : number) :
  (Dual.dataSets self).1 < length h →
  (Dual.dataSets self).2 < length h →
  (Dual.dataSets self).1 ≠ (Dual.dataSets self).2 →
  known_accumulator (Dual.accumulateUpdates self) →
  ∃ self' h',
    Dual.on_update self [u0; u1] height h
    = Some (self', h',
            [onUpdate [u0; u1] height;
             onAccumulated (Dual.dataSets self') height])
    ∧ Dual.dataHeight self' = height
    ∧ h' !! (Dual.dataSets self').1
      = Some (merge (h !!! (Dual.dataSets self).1) u0
                (mapEntryRemovalValue (Dual.opts self)))
    ∧ h' !! (Dual.dataSets self').2
      = Some (merge (h !!! (Dual.dataSets self).2) u1
                (mapEntryRemovalValue (Dual.opts self))).
Proof.
  intros H0 H1 Hne Hacc.
  destruct self as [[d0 d1] dataHeight stream acc opts]. simpl in *.
  unfold Dual.on_update, Dual.accumulateDataSet.
  cbn -[accumulateUpdates accumulateUpdatesUsingMutation].
  destruct Hacc as [-> | ->].
  - rewrite !accumulateUpdates_heap. cbn [fst snd mbind option_bind].
    do 2 eexists. split; [reflexivity|].
    cbn [Dual.dataHeight Dual.dataSets fst snd].
    split; [done|]. rewrite !accumulated_merge.
    cbn [mapEntryRemovalValue]. split.
    + rewrite lookup_app_l by (rewrite length_app; simpl; lia).
      rewrite lookup_app_r by done. by rewrite Nat.sub_diag.
    + rewrite length_app. simpl.
      rewrite lookup_app_r by (rewrite length_app; simpl; lia).
      rewrite length_app. simpl. rewrite Nat.sub_diag. simpl.
      by rewrite lookup_total_app_l by done.
  - rewrite !accumulateUpdatesUsingMutation_heap.
    cbn [fst snd mbind option_bind].
    do 2 eexists. split; [reflexivity|].
    cbn [Dual.dataHeight Dual.dataSets fst snd].
    split; [done|]. rewrite !accumulated_merge.
    cbn [mapEntryRemovalValue]. split.
    + rewrite list_lookup_insert_ne by done. by rewrite list_lookup_insert_eq.
    + rewrite list_lookup_insert_eq by (by rewrite length_insert).
      by rewrite list_lookup_total_insert_ne.
Qed.

(** C9.  On a batch that is a pair of row arrays at one height, the dual
    class merges the first array into its first data set and the second
    into its second, each data set depending on its own array only, and
    hands both to [onAccumulated] as an ordered pair with that height.  A
    newly constructed instance that receives [[(1, "x")], [(1, "y")]] at
    height 10 holds [{1: "x"}] and [{1: "y"}], at height 10. *)
Theorem dual_pairing (self : Dual.t) (h : heap)
    (u0 u1 : list BaseDataRow) (height : number)
    (endpoint : URL) (aopts : AccumulatorOptions) (sopts : StreamOptions.t)
    (h0 : heap) :
  (Dual.dataSets self).1 < length h →
  (Dual.dataSets self).2 < length h →
  (Dual.dataSets self).1 ≠ (Dual.dataSets self).2 →
  known_accumulator (Dual.accumulateUpdates self) →
  declared_sentinel aopts →
  let sentinel := mapEntryRemovalValue (Dual.opts self) in
  let created := Dual.constructor endpoint aopts sopts h0 in
  let batch :=
    [[(Num (num 1), One (Str "x"))]; [(Num (num 1), One (Str "y"))]] in
  (∃ self' h',
     Dual.on_update self [u0; u1] height h
     = Some (self', h',
             [onUpdate [u0; u1] height;
              onAccumulated (Dual.dataSets self') height])
     ∧ Dual.dataHeight self' = height
     ∧ h' !! (Dual.dataSets self').1
       = Some (merge (h !!! (Dual.dataSets self).1) u0 sentinel)
     ∧ h' !! (Dual.dataSets self').2
       = Some (merge (h !!! (Dual.dataSets self).2) u1 sentinel))
  ∧ (∃ self' h',
       Dual.on_update created.1 batch (num 10) created.2
       = Some (self', h',
               [onUpdate batch (num 10);
                onAccumulated (Dual.dataSets self') (num 10)])
       ∧ Dual.dataHeight self' = num 10
       ∧ h' !! (Dual.dataSets self').1
         = Some {[Num (num 1) := One (Str "x")]}
       ∧ h' !! (Dual.dataSets self').2
         = Some {[Num (num 1) := One (Str "y")]}).
Proof.
  intros H0 H1 Hne Hacc Haopts sentinel created batch.
  split; [by apply dual_on_update|].
  destruct (dual_on_update created.1 created.2
              [(Num (num 1), One (Str "x"))] [(Num (num 1), One (Str "y"))]
              (num 10)) as (self' & h' & Hrun & Hheight & Hfirst & Hsecond).
  - simpl. rewrite !length_app. simpl. lia.
  - simpl. rewrite !length_app. simpl. lia.
  - simpl. rewrite !length_app. simpl. lia.
  - by left.
  - exists self', h'. split_and!; [done..| |].
    + rewrite Hfirst. simpl. f_equal.
      rewrite lookup_total_app_l by (rewrite length_app; simpl; lia).
      rewrite lookup_total_app_r by done. rewrite Nat.sub_diag.
      by destruct Haopts as [-> | ->].
    + rewrite Hsecond. simpl. f_equal. rewrite length_app. simpl.
      rewrite lookup_total_app_r by (rewrite length_app; simpl; lia).
      rewrite length_app. simpl. rewrite Nat.sub_diag.
      by destruct Haopts as [-> | ->].
Qed.

Lemma dual_pairing_witness :
  ∃ self' h',
    Dual.on_update
      (Dual.constructor plain_url {| mapEntryRemovalValue := None |}
         live_mode []).1
      [[(Num (num 1), One (Str "x"))]; [(Num (num 1), One (Str "y"))]]
      (num 10)
      (Dual.constructor plain_url {| mapEntryRemovalValue := None |}
         live_mode []).2
    = Some (self', h',
            [onUpdate
               [[(Num (num 1), One (Str "x"))];
                [(Num (num 1), One (Str "y"))]] (num 10);
             onAccumulated (Dual.dataSets self') (num 10)])
    ∧ Dual.dataHeight self' = num 10
    ∧ h' !! (Dual.dataSets self').1 = Some {[Num (num 1) := One (Str "x")]}
    ∧ h' !! (Dual.dataSets self').2 = Some {[Num (num 1) := One (Str "y")]}.
Proof.
  refine (proj2 (dual_pairing
    (Dual.constructor plain_url {| mapEntryRemovalValue := None |}
       live_mode []).1
    (Dual.constructor plain_url {| mapEntryRemovalValue := None |}
       live_mode []).2
    [] [] NaN plain_url {| mapEntryRemovalValue := None |} live_mode []
    _ _ _ _ _)).
  - simpl. lia.
  - simpl. lia.
  - simpl. lia.
  - left. reflexivity.
  - left. reflexivity.
Defined.

(** C5 (the code departs from it).  The accumulating classes hand only
    [abortController] and [disableSSE] to their stream: a custom back-off
    function in their options never reaches it, and the delays of the
    retries are those of the default function.  A stream constructed
    directly with the same options does use the custom function. *)
Theorem custom_backoff_not_forwarded (endpoint : URL)
    (aopts : AccumulatorOptions) (f : nat → number) (h : heap) :
  let sopts := pull_mode (Some f) in
  let single := (Single.constructor endpoint aopts sopts h).1 in
  let dual := (Dual.constructor endpoint aopts sopts h).1 in
  let inputs :=
    [Start true; success (page_of [] (Some "a") None);
     failure 500; failure 500] in
  IndexerStream.backoffFunc (Single.stream single)
  = IndexerStream.default_backoffFunc
  ∧ IndexerStream.backoffFunc (Dual.stream dual)
    = IndexerStream.default_backoffFunc
  ∧ IndexerStream.backoffFunc (IndexerStream.constructor endpoint sopts) = f
  ∧ delays
      (Single.run (Single.constructor plain_url aopts sopts h).1
         (Single.constructor plain_url aopts sopts h).2 inputs).1.2
    = [num 0; num 1000]
  ∧ delays
      (IndexerStream.run (DataRow:=list BaseDataRow)
         (Dual.stream (Dual.constructor plain_url aopts sopts h).1)
         [Start true; success (page_of [[]; []] (Some "a") None);
          failure 500; failure 500]).2
    = [num 0; num 1000]
  ∧ delays
      (IndexerStream.run (DataRow:=BaseDataRow)
         (IndexerStream.constructor plain_url sopts) inputs).2
    = [f 0; f 1].
Proof. split_and!; reflexivity. Qed.

(** C6 (as stated, refuted).  With 0 as removal value and a first row whose
    value is 0, the final data set does not hold the id of that row. *)
Lemma pull_pagination_removed_row :
  let aopts := {| mapEntryRemovalValue := Some (Num (num 0)) |} in
  let r1 := (Num (num 1), One (Num (num 0))) in
  let r2 := (Num (num 2), One (Num (num 5))) in
  let created := Single.constructor capped_url aopts (pull_mode None) [] in
  let result :=
    Single.run created.1 created.2
      [Start true;
       success (page_of [r1] (Some "a") None);
       success (page_of [r2] None None)] in
  Map.has r1.1 (result.1.1.2 !!! Single.dataSet result.1.1.1) = false.
Proof. reflexivity. Qed.

(** C6 (as amended).  In pull mode, on a URL capped by
    [pagination.before], the pages [{data: [r1], next_key: "a"}] and
    [{data: [r2], next_key: null}] leave a final data set that holds the
    ids of [r1] and [r2], provided that neither value is the removal
    value; the outer loop makes one pass and one completion event fires,
    with the final data set. *)
Theorem pull_pagination_exhaustion (endpoint : URL)
    (aopts : AccumulatorOptions) (sopts : StreamOptions.t)
    (eventSource : bool) (f : accumulator) (h0 : heap)
    (r1 r2 : BaseDataRow) (height1 height2 : option number) :
  default false (string_truthy <$> pagination_before endpoint) = true →
  StreamOptions.disableSSE sopts = true ∨ eventSource = false →
  default false (aborted <$> StreamOptions.abortController sopts) = false →
  known_accumulator f →
  strict_equals (mapEntryRemovalValue aopts) r1.2 = false →
  strict_equals (mapEntryRemovalValue aopts) r2.2 = false →
  let created := Single.constructor endpoint aopts sopts h0 in
  let result :=
    Single.run (Single.set_accumulateUpdates created.1 f) created.2
      [Start eventSource;
       success (page_of [r1] (Some "a") height1);
       success (page_of [r2] None height2)] in
  let snapshot := result.1.1.2 !!! Single.dataSet result.1.1.1 in
  Map.has r1.1 snapshot = true
  ∧ Map.has r2.1 snapshot = true
  ∧ passes result.1.2 = 1
  ∧ completions result.2
    = [onCompleted (Single.dataSet result.1.1.1)
         (Single.dataHeight result.1.1.1)].
Proof.
  intros Hcap Hpull Hsignal Hf Hr1 Hr2 created result snapshot.
  destruct (start_in_pull_mode (DataRow:=BaseDataRow) endpoint
              (inner_options sopts) eventSource Hpull Hsignal)
    as (s1 & p1 & u1 & Hstep1 & Hp1 & Hab1 & Hknown1 & Hto1).
  rewrite Hcap in Hto1.
  destruct (page_with_cursor s1 p1 [r1] "a" height1 Hp1 Hab1 eq_refl)
    as (s2 & p2 & u2 & Hstep2 & Hp2 & Hab2 & Hto2 & Hknown2).
  rewrite Hto1 in Hto2. rewrite Hknown1 in Hknown2.
  specialize (Hknown2 eq_refl).
  destruct (last_page_under_cap s2 p2 [r2] height2 Hp2 Hto2 Hknown2)
    as (s3 & Hstep3 & Hp3).
  subst snapshot result created.
  unfold Single.constructor, new_Map, Single.set_accumulateUpdates.
  cbn [fst snd Single.dataSet Single.dataHeight Single.stream Single.opts
       Single.accumulateUpdates].
  unfold Single.run, Single.step.
  cbn [Single.stream]. rewrite Hstep1.
  cbn [Single.deliver_all Single.deliver Single.set_stream Single.stream
       Single.dataSet Single.dataHeight Single.opts Single.accumulateUpdates
       app].
  rewrite Hstep2.
  unfold Single.deliver_all, Single.deliver, Single.on_update,
    Single.accumulateDataSet.
  cbn [Single.set_stream Single.stream
       Single.dataSet Single.dataHeight Single.opts Single.accumulateUpdates
       app].
  destruct Hf as [-> | ->].
  - rewrite accumulateUpdates_heap.
    cbn [Single.set_stream Single.stream Single.dataSet Single.dataHeight
         Single.opts Single.accumulateUpdates app].
    rewrite Hstep3.
    cbn [Single.set_stream Single.stream Single.dataSet Single.dataHeight
         Single.opts Single.accumulateUpdates app].
    rewrite accumulateUpdates_heap.
    cbn [Single.set_stream Single.stream Single.dataSet Single.dataHeight
         Single.opts Single.accumulateUpdates app fst snd].
    rewrite !lookup_total_snoc.
    split_and!; [apply has_after_two_rows..|reflexivity|reflexivity]; done.
  - rewrite accumulateUpdatesUsingMutation_heap.
    cbn [Single.set_stream Single.stream Single.dataSet Single.dataHeight
         Single.opts Single.accumulateUpdates app].
    rewrite Hstep3.
    cbn [Single.set_stream Single.stream Single.dataSet Single.dataHeight
         Single.opts Single.accumulateUpdates app].
    rewrite accumulateUpdatesUsingMutation_heap.
    cbn [Single.set_stream Single.stream Single.dataSet Single.dataHeight
         Single.opts Single.accumulateUpdates app fst snd].
    rewrite list_insert_insert_eq.
    rewrite !list_lookup_total_insert_eq
      by (rewrite length_app; simpl; lia).
    rewrite lookup_total_snoc.
    split_and!; [apply has_after_two_rows..|reflexivity|reflexivity]; done.
Qed.

Lemma pull_pagination_exhaustion_witness :
  Map.has (Num (num 1))
    ((Single.run
        (Single.set_accumulateUpdates
           (Single.constructor capped_url {| mapEntryRemovalValue := None |}
              (pull_mode None) []).1 accumulateUpdates)
        (Single.constructor capped_url {| mapEntryRemovalValue := None |}
           (pull_mode None) []).2
        [Start true;
         success (page_of [(Num (num 1), One (Str "x"))] (Some "a") None);
         success (page_of [(Num (num 2), One (Str "y"))] None None)]).1.1.2
     !!! Single.dataSet
           (Single.run
              (Single.set_accumulateUpdates
                 (Single.constructor capped_url
                    {| mapEntryRemovalValue := None |}
                    (pull_mode None) []).1 accumulateUpdates)
              (Single.constructor capped_url
                 {| mapEntryRemovalValue := None |} (pull_mode None) []).2
              [Start true;
               success
                 (page_of [(Num (num 1), One (Str "x"))] (Some "a") None);
               success
                 (page_of [(Num (num 2), One (Str "y"))] None None)]).1.1.1)
  = true.
Proof.
  refine (proj1 (pull_pagination_exhaustion capped_url
    {| mapEntryRemovalValue := None |} (pull_mode None) true
    accumulateUpdates []
    (Num (num 1), One (Str "x")) (Num (num 2), One (Str "y")) None None
    _ _ _ _ _ _)).
  - reflexivity.
  - left. reflexivity.
  - reflexivity.
  - left. reflexivity.
  - reflexivity.
  - reflexivity.
Defined.

(** ** Further properties of the accumulation *)

Lemma last_write_None (k : value) (updates : list BaseDataRow) :
  last_write k updates = None ↔ k ∉ ids updates.
Proof.
  induction updates as [|[id data] rest IH]; simpl.
  - split; [intros _; apply not_elem_of_nil|done].
  - rewrite not_elem_of_cons, <-IH.
    destruct (last_write k rest).
    + split; [done|]. by intros [_ ?].
    + case_bool_decide as Hk; simpl in Hk.
      * split; [done|]. by intros [? _].
      * split; [|done]. intros _. split; [congruence|done].
Qed.

Lemma accumulated_app (opts : AccumulatorOptions)
    (u1 u2 : list BaseDataRow) (m : DataSet) :
  accumulated opts (u1 ++ u2) m = accumulated opts u2 (accumulated opts u1 m).
Proof. unfold accumulated. apply foldl_app. Qed.

Lemma accumulated_commute (opts : AccumulatorOptions)
    (a b : list BaseDataRow) (m : DataSet) :
  (∀ k, k ∈ ids a → k ∉ ids b) →
  accumulated opts b (accumulated opts a m)
  = accumulated opts a (accumulated opts b m).
Proof.
  intros Hdisjoint. apply map_eq; intros k. rewrite !accumulated_lookup.
  destruct (last_write k a) as [da|] eqn:Ha,
    (last_write k b) as [db|] eqn:Hb; try done.
  assert (k ∈ ids a) as Hk.
  { destruct (decide (k ∈ ids a)) as [|Hn]; [done|].
    apply last_write_None in Hn. congruence. }
  apply Hdisjoint, last_write_None in Hk. congruence.
Qed.

(** X1.  Two batches that share no id can be merged in either order: the
    mutating function leaves the same content in the object, and a copy
    made with the one concatenation holds what a copy made with the other
    holds. *)
Theorem merge_disjoint_batches_commute (map : ref)
    (a b : list BaseDataRow) (opts : AccumulatorOptions) (h : heap) :
  (∀ k, k ∈ ids a → k ∉ ids b) →
  let after_a := (accumulateUpdatesUsingMutation map a opts h).2 in
  let after_b := (accumulateUpdatesUsingMutation map b opts h).2 in
  accumulateUpdatesUsingMutation map b opts after_a
  = accumulateUpdatesUsingMutation map a opts after_b
  ∧ (accumulateUpdates map (a ++ b) opts h).2
      !! (accumulateUpdates map (a ++ b) opts h).1
    = (accumulateUpdates map (b ++ a) opts h).2
        !! (accumulateUpdates map (b ++ a) opts h).1.
Proof.
  intros Hdisjoint after_a after_b. subst after_a after_b.
  rewrite !accumulateUpdatesUsingMutation_heap, !accumulateUpdates_heap.
  simpl. split.
  - f_equal. destruct (decide (map < length h)) as [Hlt|Hge].
    + rewrite !list_lookup_total_insert_eq by done.
      rewrite !list_insert_insert_eq. by rewrite accumulated_commute.
    + by rewrite !(list_insert_ge h) by lia.
  - rewrite !lookup_app_r by done. rewrite Nat.sub_diag. simpl.
    by rewrite !accumulated_app, accumulated_commute.
Qed.

(** X2.  Batch boundaries do not matter to the mutating function: merging
    [u1 ++ u2] is merging [u1] and then [u2].  On the empty batch the
    mutating function returns its argument and changes nothing, and the
    copying function returns a new object with the content of the current
    one. *)
Theorem merge_batches_compose (map : ref) (u1 u2 : list BaseDataRow)
    (opts : AccumulatorOptions) (h : heap) :
  let first := accumulateUpdatesUsingMutation map u1 opts h in
  let empty := accumulateUpdates map [] opts h in
  accumulateUpdatesUsingMutation map (u1 ++ u2) opts h
  = accumulateUpdatesUsingMutation first.1 u2 opts first.2
  ∧ accumulateUpdatesUsingMutation map [] opts h = (map, h)
  ∧ empty.1 = length h
  ∧ empty.2 = h ++ [h !!! map].
Proof.
  intros first empty. subst first empty.
  rewrite !accumulateUpdatesUsingMutation_heap, accumulateUpdates_heap.
  simpl. split_and!; [| |done|done].
  - f_equal. destruct (decide (map < length h)) as [Hlt|Hge].
    + rewrite list_lookup_total_insert_eq by done.
      by rewrite list_insert_insert_eq, accumulated_app.
    + by rewrite !(list_insert_ge h) by lia.
  - f_equal. destruct (decide (map < length h)) as [Hlt|Hge].
    + apply list_insert_id. by apply list_lookup_lookup_total_lt.
    + apply list_insert_ge. lia.
Qed.

(** X3.  A merge touches the ids of its batch only: every other id keeps
    its entry; the ids afterwards are among the ids before and the ids of
    the batch, and are exactly those when no removal value is set; an id
    whose last row in the batch carries the removal value is absent
    afterwards. *)
Theorem merge_touches_batch_ids_only (map : ref)
    (dataUpdates : list BaseDataRow) (opts : AccumulatorOptions) (h : heap) :
  map < length h →
  let before := h !!! map in
  let after := (accumulateUpdatesUsingMutation map dataUpdates opts h).2
               !!! map in
  (∀ id, Map.key id ∉ ids dataUpdates →
         Map.get id after = Map.get id before)
  ∧ dom after ⊆ dom before ∪ list_to_set (ids dataUpdates)
  ∧ (mapEntryRemovalValue opts = None →
     dom after = dom before ∪ list_to_set (ids dataUpdates))
  ∧ (∀ id data, last_write (Map.key id) dataUpdates = Some data →
       strict_equals (mapEntryRemovalValue opts) data = true →
       Map.has id after = false).
Proof.
  intros Hmap before after. subst before after.
  rewrite accumulateUpdatesUsingMutation_heap. simpl.
  rewrite list_lookup_total_insert_eq by done.
  split_and!.
  - intros id Hid. unfold Map.get. rewrite accumulated_lookup.
    apply last_write_None in Hid. by rewrite Hid.
  - intros k. rewrite elem_of_union, !elem_of_dom, elem_of_list_to_set.
    rewrite accumulated_lookup.
    destruct (last_write k dataUpdates) as [d|] eqn:Hk; [|by left].
    intros _. right. destruct (decide (k ∈ ids dataUpdates)) as [|Hn]; [done|].
    apply last_write_None in Hn. congruence.
  - intros Hnone. apply set_eq. intros k.
    rewrite elem_of_union, !elem_of_dom, elem_of_list_to_set.
    rewrite accumulated_lookup, Hnone.
    destruct (last_write k dataUpdates) as [d|] eqn:Hk.
    + simpl. split; [intros _; right|by eexists].
      destruct (decide (k ∈ ids dataUpdates)) as [|Hn]; [done|].
      apply last_write_None in Hn. congruence.
    + apply last_write_None in Hk. split; [by left|]. by intros [?|?].
  - intros id data Hlast Hremoved. unfold Map.has, Map.get.
    apply bool_decide_eq_false. rewrite accumulated_lookup, Hlast, Hremoved.
    by intros [? ?].
Qed.

(** X4.  The removal test is [===]: with the removal value 0 a row whose
    value is -0 is removed, and a row whose value is the string 0 is
    stored; a row whose value is an array is stored whatever the removal
    value is; with the removal value NaN nothing is ever removed. *)
Theorem removal_is_strict (map : ref) (k : value) (vs : list value)
    (sentinel : option value) (dataUpdates : list BaseDataRow) (h : heap) :
  map < length h →
  let zero := {| mapEntryRemovalValue := Some (Num (num 0)) |} in
  let nan := {| mapEntryRemovalValue := Some (Num NaN) |} in
  let none := {| mapEntryRemovalValue := None |} in
  let result opts row :=
    (accumulateUpdatesUsingMutation map [row] opts h).2 !!! map in
  Map.get k (result zero (k, One (Num NegZero))) = None
  ∧ Map.get k (result zero (k, One (Str "0"))) = Some (One (Str "0"))
  ∧ Map.get k (result {| mapEntryRemovalValue := sentinel |} (k, Many vs))
    = Some (Many vs)
  ∧ accumulateUpdatesUsingMutation map dataUpdates nan h
    = accumulateUpdatesUsingMutation map dataUpdates none h.
Proof.
  intros Hmap zero nan none result. subst result.
  rewrite !accumulateUpdatesUsingMutation_heap. simpl.
  rewrite !list_lookup_total_insert_eq by done.
  unfold accumulated, Map.get, Map.delete, Map.set. simpl.
  split_and!.
  - apply lookup_delete_eq.
  - apply lookup_insert_eq.
  - destruct sentinel; apply lookup_insert_eq.
  - do 2 f_equal. apply map_eq; intros j.
    pose proof (accumulated_lookup nan dataUpdates (h !!! map) j) as H1.
    pose proof (accumulated_lookup none dataUpdates (h !!! map) j) as H2.
    unfold accumulated in H1, H2. rewrite H1, H2.
    by destruct (last_write j dataUpdates) as [[[s|n]|l]|].
Qed.

Lemma merge_disjoint_batches_commute_witness :
  accumulateUpdatesUsingMutation 0 [(Str "b", One (Str "y"))]
    {| mapEntryRemovalValue := None |}
    (accumulateUpdatesUsingMutation 0 [(Str "a", One (Str "x"))]
       {| mapEntryRemovalValue := None |} [∅]).2
  = accumulateUpdatesUsingMutation 0 [(Str "a", One (Str "x"))]
      {| mapEntryRemovalValue := None |}
      (accumulateUpdatesUsingMutation 0 [(Str "b", One (Str "y"))]
         {| mapEntryRemovalValue := None |} [∅]).2.
Proof.
  refine (proj1 (merge_disjoint_batches_commute 0
    [(Str "a", One (Str "x"))] [(Str "b", One (Str "y"))]
    {| mapEntryRemovalValue := None |} [∅] _)).
  intros k Ha Hb. simpl in Ha, Hb.
  apply list_elem_of_singleton in Ha, Hb. congruence.
Defined.

Lemma merge_touches_batch_ids_only_witness :
  dom ((accumulateUpdatesUsingMutation 0 [(Str "a", One (Str "x"))]
          {| mapEntryRemovalValue := None |}
          [({[Str "b" := One (Str "y")]} : DataSet)]).2 !!! 0)
  ⊆ dom ([({[Str "b" := One (Str "y")]} : DataSet)] !!! 0)
    ∪ list_to_set (ids [(Str "a", One (Str "x"))]).
Proof.
  refine (proj1 (proj2 (merge_touches_batch_ids_only 0
    [(Str "a", One (Str "x"))] {| mapEntryRemovalValue := None |}
    [({[Str "b" := One (Str "y")]} : DataSet)] _))).
  simpl. lia.
Defined.

Lemma removal_is_strict_witness :
  Map.get (Str "a")
    ((accumulateUpdatesUsingMutation 0 [(Str "a", One (Num NegZero))]
        {| mapEntryRemovalValue := Some (Num (num 0)) |} [∅]).2 !!! 0)
  = None.
Proof.
  refine (proj1 (removal_is_strict 0 (Str "a") [] None [] [∅] _)).
  simpl. lia.
Defined.

(** ** Further properties of the controller *)

(** *** Retries inside a page sequence *)

Section Retries.
Context {DataRow : Type}.
Implicit Types (s : IndexerStream.t) (p : IndexerStream.LongPolling).

Lemma answer_step s p (a : answer DataRow) :
  IndexerStream.polling s = Some p →
  aborted (IndexerStream.abortController s) = false →
  answer_ok a →
  starts_with_page [a] ∨ is_Some (IndexerStream.nextKey p) →
  (IndexerStream.retries p + failures [a] ≤ IndexerStream.maxRetries s)%nat →
  let result := IndexerStream.step s (answer_input a) in
  paging result.1 (IndexerStream.retries p + failures [a])
    (IndexerStream.toHeight p)
  ∧ (known_height_not_negative s → known_height_not_negative result.1)
  ∧ same_options s result.1
  ∧ delays result.2
    = IndexerStream.backoffFunc s
      <$> seq (IndexerStream.retries p) (failures [a])
  ∧ batches result.2 = answer_rows [a]
  ∧ length (requests result.2) = 1
  ∧ (∀ e, OnError e ∉ result.2)
  ∧ (OnCompleted ∉ result.2).
Proof.
  intros Hp Hab Hok Hkey Hbudget.
  assert (∀ (x : output DataRow) o1 o2 o3,
            x ≠ o1 → x ≠ o2 → x ≠ o3 → x ∉ [o1; o2; o3]) as Hnot3.
  { intros. repeat (apply not_elem_of_cons; split; [done|]).
    apply not_elem_of_nil. }
  assert (∀ (x : output DataRow) o1 o2,
            x ≠ o1 → x ≠ o2 → x ∉ [o1; o2]) as Hnot2.
  { intros. repeat (apply not_elem_of_cons; split; [done|]).
    apply not_elem_of_nil. }
  destruct a as [status|rows key' height]; simpl in Hok.
  - destruct Hkey as [[]|[key Hkey]].
    unfold answer_input, failure. cbn [IndexerStream.step]. rewrite Hp.
    unfold IndexerStream.fetched.
    rewrite bool_decide_eq_false_2 by done.
    rewrite bool_decide_eq_true_2
      by (unfold failures in Hbudget; simpl in *; lia).
    unfold IndexerStream.loop_conditions, IndexerStream.request.
    cbn [IndexerStream.nextKey IndexerStream.knownHeight IndexerStream.url
         IndexerStream.toHeight IndexerStream.retries].
    rewrite Hkey, Hab. cbn [fst snd].
    split_and!; try done.
    + split; [done|]. do 2 eexists. split_and!; try reflexivity.
      cbn. unfold failures. simpl. lia.
    + intros Hknown p' [= <-]. cbn. by apply Hknown.
    + intros e. by apply Hnot3.
    + by apply Hnot3.
  - clear Hkey. unfold answer_input, success, page_of.
    cbn [IndexerStream.step].
    rewrite Hp. unfold IndexerStream.fetched.
    rewrite bool_decide_eq_true_2 by done.
    cbn [block_range pagination data next_key mbind option_bind default].
    rewrite Hok.
    unfold IndexerStream.loop_conditions, IndexerStream.request.
    cbn [IndexerStream.nextKey IndexerStream.knownHeight IndexerStream.url
         IndexerStream.toHeight IndexerStream.retries].
    rewrite Hab. cbn [fst snd].
    split_and!; try done.
    + split; [done|]. do 2 eexists. split_and!; try reflexivity.
      cbn. unfold failures. simpl. lia.
    + intros Hknown p' [= <-]. specialize (Hknown p Hp). cbn.
      destruct height as [n|]; [|done]. cbn.
      destruct (number_gt n (IndexerStream.knownHeight p)) eqn:Hgt; [|done].
      apply not_true_is_false. intros Hn.
      by rewrite (number_lt_trans (IndexerStream.knownHeight p) n (num 0))
        in Hknown.
    + intros e. by apply Hnot2.
    + by apply Hnot2.
Qed.

Lemma answers_run s p (answers : list (answer DataRow)) :
  IndexerStream.polling s = Some p →
  aborted (IndexerStream.abortController s) = false →
  Forall answer_ok answers →
  starts_with_page answers ∨ is_Some (IndexerStream.nextKey p) →
  (IndexerStream.retries p + failures answers
   ≤ IndexerStream.maxRetries s)%nat →
  let result := IndexerStream.run s (answer_input <$> answers) in
  (answers ≠ [] →
   paging result.1 (IndexerStream.retries p + failures answers)
     (IndexerStream.toHeight p))
  ∧ (answers = [] → result.1 = s)
  ∧ (known_height_not_negative s → known_height_not_negative result.1)
  ∧ same_options s result.1
  ∧ delays result.2
    = IndexerStream.backoffFunc s
      <$> seq (IndexerStream.retries p) (failures answers)
  ∧ batches result.2 = answer_rows answers
  ∧ length (requests result.2) = length answers
  ∧ (∀ e, OnError e ∉ result.2)
  ∧ (OnCompleted ∉ result.2).
Proof.
  intros Hp Hab Hall. revert s p Hp Hab.
  induction Hall as [|a answers Ha _ IH]; intros s p Hp Hab Hkey Hbudget.
  - cbn. split_and!; try done.
    + intros e. apply not_elem_of_nil.
    + apply not_elem_of_nil.
  - assert (failures (a :: answers) = failures [a] + failures answers)%nat
      as Hsplit by (unfold failures; simpl; by destruct a).
    rewrite Hsplit in *.
    destruct (answer_step s p a Hp Hab Ha) as
      ((Hab1 & p1 & key1 & Hp1 & Hkey1 & Hr1 & Hto1) & Hknown1
       & (Hmax1 & Hb1 & Hst1 & Hli1 & Hne1) & Hd1 & Hbat1 & Hreq1 & He1
       & Hc1).
    { destruct Hkey as [Hkey|Hkey]; [left|by right]. by destruct a. }
    { lia. }
    destruct (IH _ p1 Hp1 Hab1) as
      (Hpaging & Hnil & Hknown2 & (Hmax2 & Hb2 & Hst2 & Hli2 & Hne2) & Hd
       & Hbat & Hreq & He & Hc).
    { right. by rewrite Hkey1. }
    { lia. }
    cbn zeta in *. rewrite fmap_cons, run_cons. cbn [fst snd].
    split_and!.
    + intros _. destruct answers as [|a' answers].
      * rewrite Hnil by done. unfold failures at 2. cbn [List.filter length].
        rewrite Nat.add_0_r. split; [done|]. by exists p1, key1.
      * destruct (Hpaging ltac:(done)) as (? & p2 & key2 & ? & ? & ? & ?).
        split; [done|]. exists p2, key2. split_and!; try done; [lia|].
        congruence.
    + done.
    + intros Hknown. by apply Hknown2, Hknown1.
    + unfold same_options. split_and!; congruence.
    + unfold delays in *. rewrite omap_app, Hd1, Hd, Hb1, Hr1.
      by rewrite seq_app, fmap_app.
    + unfold batches, answer_rows in *. rewrite omap_app, Hbat1, Hbat.
      by destruct a.
    + unfold requests in *. rewrite omap_app, length_app, Hreq. cbn. lia.
    + intros e. rewrite elem_of_app. intros [?|?]; [by eapply He1|by eapply He].
    + rewrite elem_of_app. by intros [?|?].
Qed.

Lemma run_snoc s (rest : list (input DataRow)) (i : input DataRow) :
  IndexerStream.run s (rest ++ [i])
  = ((IndexerStream.step (IndexerStream.run s rest).1 i).1,
     (IndexerStream.run s rest).2
     ++ (IndexerStream.step (IndexerStream.run s rest).1 i).2).
Proof.
  revert s. induction rest as [|j rest IH]; intros s.
  - rewrite app_nil_l, run_cons. simpl. by rewrite app_nil_r.
  - rewrite <-app_comm_cons, !run_cons, IH. simpl. by rewrite app_assoc.
Qed.

(** X6.  Inside a page sequence the failures of a pass add up, whatever
    pages come between them: [maxRetries] failures are each followed by a
    retry, after the delays that [backoffFunc] gives for 0, 1, ..., and the
    pages in between are handed over; the next failure ends the stream with
    the error of a stuck request, and no completion follows. *)
Theorem retry_budget_per_pass s p (key : string)
    (answers : list (answer DataRow)) (status : Z) :
  IndexerStream.polling s = Some p →
  IndexerStream.nextKey p = Some key →
  IndexerStream.retries p = 0 →
  aborted (IndexerStream.abortController s) = false →
  IndexerStream.maxRetries s = 5 →
  Forall answer_ok answers →
  failures answers = 5 →
  status ≠ 200%Z →
  let result :=
    IndexerStream.run s ((answer_input <$> answers) ++ [failure status]) in
  delays result.2 = IndexerStream.backoffFunc s <$> seq 0 5
  ∧ batches result.2 = answer_rows answers
  ∧ last result.2 = Some (OnError fatal)
  ∧ (OnCompleted ∉ result.2)
  ∧ IndexerStream.polling result.1 = None
  ∧ aborted (IndexerStream.abortController result.1) = true.
Proof.
  intros Hp Hkey Hr Hab Hmax5 Hall Hcount5 Hstatus.
  assert (failures answers = IndexerStream.maxRetries s) as Hcount
    by congruence.
  destruct (answers_run s p answers Hp Hab Hall) as
    (Hpaging & Hnil & _ & (Hmax & Hb & Hst & Hli & Hne) & Hd & Hbat & Hreq
     & He & Hc).
  { right. by rewrite Hkey. }
  { lia. }
  cbn zeta in *. rewrite run_snoc.
  set (r := IndexerStream.run s (answer_input <$> answers)) in *.
  assert (∃ p', IndexerStream.polling r.1 = Some p'
                ∧ IndexerStream.retries p' = IndexerStream.maxRetries r.1)
    as (p' & Hp' & Hr').
  { destruct answers as [|a answers].
    - rewrite Hnil by done. exists p. split; [done|].
      unfold failures in Hcount. cbn in Hcount. congruence.
    - destruct (Hpaging ltac:(done)) as (_ & p' & key' & ? & ? & ? & ?).
      exists p'. split; [done|]. lia. }
  assert (IndexerStream.step r.1 (failure status)
          = (IndexerStream.set_polling (IndexerStream.abort r.1) None,
             [ConsoleError
                "Could not establish a connection to the indexer URL";
              OnError fatal])) as ->.
  { unfold failure. cbn [IndexerStream.step]. rewrite Hp'.
    unfold IndexerStream.fetched.
    rewrite bool_decide_eq_false_2 by done.
    rewrite bool_decide_eq_false_2 by lia. done. }
  cbn [fst snd]. split_and!.
  - unfold delays in *. rewrite omap_app, Hd, Hr, Hcount5.
    apply app_nil_r.
  - unfold batches in *. rewrite omap_app, Hbat. cbn. by rewrite app_nil_r.
  - by rewrite last_app.
  - rewrite elem_of_app. intros [?|Hin]; [done|].
    by repeat (apply elem_of_cons in Hin as [?|Hin]; [done|]);
      apply elem_of_nil in Hin.
  - done.
  - done.
Qed.

End Retries.

Lemma retry_budget_per_pass_witness :
  last
    (IndexerStream.run (DataRow:=BaseDataRow)
       (IndexerStream.run (DataRow:=BaseDataRow)
          (IndexerStream.constructor plain_url (pull_mode None))
          [Start true; success (page_of [] (Some "a") None)]).1
       ((answer_input <$> replicate 5 (Failed 500)) ++ [failure 500])).2
  = Some (OnError fatal).
Proof.
  refine (proj1 (proj2 (proj2 (retry_budget_per_pass (DataRow:=BaseDataRow)
    (IndexerStream.run (DataRow:=BaseDataRow)
       (IndexerStream.constructor plain_url (pull_mode None))
       [Start true; success (page_of [] (Some "a") None)]).1
    _ "a" (replicate 5 (Failed 500)) 500 _ _ _ _ _ _ _ _)))).
  - reflexivity.
  - reflexivity.
  - reflexivity.
  - reflexivity.
  - reflexivity.
  - repeat constructor; simpl; lia.
  - reflexivity.
  - lia.
Defined.

(** *** Live subscriptions *)

Section Live.
Context {DataRow : Type}.
Implicit Types (s : IndexerStream.t) (p : IndexerStream.LongPolling).

Lemma start_live (endpoint : URL) (opts : StreamOptions.t) :
  StreamOptions.disableSSE opts = false →
  default false (aborted <$> StreamOptions.abortController opts) = false →
  ∃ s, IndexerStream.step (DataRow:=DataRow)
         (IndexerStream.constructor endpoint opts) (Start true) = (s, [])
       ∧ live_state s
       ∧ IndexerStream.endpoint s = endpoint.
Proof.
  intros Hsse Hab.
  assert (aborted (default {| aborted := false |}
                     (StreamOptions.abortController opts)) = false) as Hab'
    by (by destruct (StreamOptions.abortController opts)).
  eexists. cbn. rewrite Hsse. cbn. split; [reflexivity|].
  unfold live_state. cbn. by rewrite Hab'.
Qed.

(** X7.  A message whose payload is not JSON makes a live subscription fall
    back to long polling without a call of [onError]; the listeners stay
    registered, so that a later message is still handed over while long
    polling runs. *)
Theorem malformed_payload_falls_back s (height height' : number)
    (rows : list DataRow) :
  live_state s →
  ∃ s' u,
    IndexerStream.step (DataRow:=DataRow) s (SseUpdate Malformed height)
    = (s', [OuterPass; Fetch u])
    ∧ IndexerStream.listening s' = true
    ∧ is_Some (IndexerStream.polling s')
    ∧ IndexerStream.step s' (SseUpdate (Json (Some rows)) height')
      = (s', [OnUpdate rows height']).
Proof.
  intros (Hst & Hli & Hne & Hpo & Hab).
  cbn [IndexerStream.step]. rewrite Hli.
  unfold IndexerStream.on_update, IndexerStream.reject_sse. rewrite Hne.
  unfold IndexerStream.subscribeToLongPolling, IndexerStream.outer_pass,
    IndexerStream.request.
  cbn [IndexerStream.knownHeight IndexerStream.nextKey IndexerStream.url
       IndexerStream.toHeight IndexerStream.retries
       IndexerStream.abortController IndexerStream.set_chain].
  rewrite Hab. do 2 eexists. split; [reflexivity|].
  cbn. rewrite Hli. by split_and!.
Qed.

(** X8.  Every ['error'] event of a live subscription is handed to
    [onError]; the first one starts long polling, the later ones do not
    start it again. *)
Theorem sse_errors s (n : nat) :
  live_state s →
  ∃ u,
    (IndexerStream.run (DataRow:=DataRow) s (replicate (S n) SseError)).2
    = OnError sse_error :: OuterPass :: Fetch u
      :: replicate n (OnError sse_error).
Proof.
  intros (Hst & Hli & Hne & Hpo & Hab).
  rewrite replicate_S, run_cons.
  assert (∃ s' u,
    IndexerStream.step (DataRow:=DataRow) s SseError
    = (s', [OnError sse_error; OuterPass; Fetch u])
    ∧ IndexerStream.listening s' = true
    ∧ IndexerStream.negotiating s' = false) as (s' & u & -> & Hli' & Hne').
  { cbn [IndexerStream.step]. rewrite Hli.
    unfold IndexerStream.on_error, IndexerStream.reject_sse. rewrite Hne.
    unfold IndexerStream.subscribeToLongPolling, IndexerStream.outer_pass,
      IndexerStream.request.
    cbn [IndexerStream.knownHeight IndexerStream.nextKey IndexerStream.url
         IndexerStream.toHeight IndexerStream.retries
         IndexerStream.abortController IndexerStream.set_chain].
    rewrite Hab. do 2 eexists. split; [reflexivity|]. cbn. by rewrite Hli. }
  exists u. cbn [fst snd app]. do 3 f_equal.
  induction n as [|n IH]; [done|].
  rewrite replicate_S, run_cons.
  assert (IndexerStream.step (DataRow:=DataRow) s' SseError
          = (s', [OnError sse_error])) as ->.
  { cbn [IndexerStream.step]. rewrite Hli'.
    unfold IndexerStream.on_error, IndexerStream.reject_sse.
    by rewrite Hne'. }
  cbn [fst snd app]. by rewrite IH.
Qed.

(** A stream whose negotiation is over and that is not polling. *)
Lemma idle_step s (i : input DataRow) :
  IndexerStream.started s = true →
  IndexerStream.negotiating s = false →
  IndexerStream.polling s = None →
  let result := IndexerStream.step s i in
  (IndexerStream.started result.1 = true
   ∧ IndexerStream.negotiating result.1 = false
   ∧ IndexerStream.polling result.1 = None)
  ∧ requests result.2 = [].
Proof.
  intros Hst Hne Hpo. destruct i as [eventSource|d height| | |r|];
    cbn [IndexerStream.step].
  - by rewrite Hst.
  - destruct (IndexerStream.listening s); [|done].
    unfold IndexerStream.on_update, IndexerStream.reject_sse. rewrite Hne.
    by destruct d as [| |[rows|]].
  - by destruct (IndexerStream.listening s).
  - destruct (IndexerStream.listening s); [|done].
    unfold IndexerStream.on_error, IndexerStream.reject_sse.
    by rewrite Hne.
  - by rewrite Hpo.
  - unfold IndexerStream.unsubscribe.
    destruct (aborted (IndexerStream.abortController s)); [done|].
    cbn. by rewrite Hpo.
Qed.

Lemma idle_run s (inputs : list (input DataRow)) :
  IndexerStream.started s = true →
  IndexerStream.negotiating s = false →
  IndexerStream.polling s = None →
  requests (IndexerStream.run s inputs).2 = [].
Proof.
  revert s. induction inputs as [|i rest IH]; intros s Hst Hne Hpo; [done|].
  rewrite run_cons. cbn [snd]. unfold requests. rewrite omap_app.
  destruct (idle_step s i Hst Hne Hpo) as [(? & ? & ?) Hreq].
  unfold requests in Hreq. rewrite Hreq. by apply IH.
Qed.

(** X9.  After the ['end'] event of a live subscription no request is ever
    issued, but the listeners stay registered: a later message is handed
    over, a later ['end'] completes the stream once more, and a later
    ['error'] is reported. *)
Theorem after_end_in_live_mode s (rest : list (input DataRow))
    (rows : list DataRow) (height : number) :
  live_state s →
  let ended := (IndexerStream.step (DataRow:=DataRow) s SseEnd).1 in
  (IndexerStream.step (DataRow:=DataRow) s SseEnd).2 = [OnCompleted]
  ∧ requests (IndexerStream.run ended rest).2 = []
  ∧ IndexerStream.step ended (SseUpdate (Json (Some rows)) height)
    = (ended, [OnUpdate rows height])
  ∧ IndexerStream.step (DataRow:=DataRow) ended SseEnd
    = (ended, [OnCompleted])
  ∧ IndexerStream.step (DataRow:=DataRow) ended SseError
    = (ended, [OnError sse_error]).
Proof.
  intros (Hst & Hli & Hne & Hpo & Hab). cbn [IndexerStream.step].
  rewrite Hli. cbn [IndexerStream.on_end fst snd].
  split_and!.
  - done.
  - by apply idle_run.
  - cbn. by rewrite Hli, Hpo.
  - cbn. by rewrite Hli, Hpo.
  - cbn. by rewrite Hli, Hpo.
Qed.

(** The first ['error'] event of a live subscription. *)
Lemma first_sse_error s :
  live_state s →
  ∃ s' u,
    IndexerStream.step (DataRow:=DataRow) s SseError
    = (s', [OnError sse_error; OuterPass; Fetch u])
    ∧ IndexerStream.listening s' = true
    ∧ IndexerStream.negotiating s' = false.
Proof.
  intros (Hst & Hli & Hne & Hpo & Hab).
  cbn [IndexerStream.step]. rewrite Hli.
  unfold IndexerStream.on_error, IndexerStream.reject_sse. rewrite Hne.
  unfold IndexerStream.subscribeToLongPolling, IndexerStream.outer_pass,
    IndexerStream.request.
  cbn [IndexerStream.knownHeight IndexerStream.nextKey IndexerStream.url
       IndexerStream.toHeight IndexerStream.retries
       IndexerStream.abortController IndexerStream.set_chain].
  rewrite Hab. do 2 eexists. split; [reflexivity|]. cbn. by rewrite Hli.
Qed.

(** Messages with rows are handed over as they come. *)
Lemma live_updates s (updates : list (list DataRow * number)) :
  IndexerStream.listening s = true →
  IndexerStream.run s (update_input <$> updates)
  = (s, (λ u, OnUpdate u.1 u.2) <$> updates).
Proof.
  intros Hli. induction updates as [|u updates IH]; [done|].
  rewrite fmap_cons, run_cons. cbn [IndexerStream.step update_input].
  rewrite Hli. cbn [IndexerStream.on_update fst snd]. by rewrite IH.
Qed.

End Live.

Lemma malformed_payload_falls_back_witness :
  ∃ s' u,
    IndexerStream.step (DataRow:=BaseDataRow)
      (IndexerStream.step (DataRow:=BaseDataRow)
         (IndexerStream.constructor plain_url live_mode) (Start true)).1
      (SseUpdate Malformed (num 7))
    = (s', [OuterPass; Fetch u])
    ∧ IndexerStream.listening s' = true
    ∧ is_Some (IndexerStream.polling s')
    ∧ IndexerStream.step (DataRow:=BaseDataRow) s'
        (SseUpdate (Json (Some [])) (num 8))
      = (s', [OnUpdate [] (num 8)]).
Proof.
  refine (malformed_payload_falls_back (DataRow:=BaseDataRow)
    (IndexerStream.step (DataRow:=BaseDataRow)
       (IndexerStream.constructor plain_url live_mode) (Start true)).1
    (num 7) (num 8) [] _).
  repeat split; reflexivity.
Defined.

Lemma sse_errors_witness :
  ∃ u,
    (IndexerStream.run (DataRow:=BaseDataRow)
       (IndexerStream.step (DataRow:=BaseDataRow)
          (IndexerStream.constructor plain_url live_mode) (Start true)).1
       (replicate 3 SseError)).2
    = OnError sse_error :: OuterPass :: Fetch u
      :: replicate 2 (OnError sse_error).
Proof.
  refine (sse_errors (DataRow:=BaseDataRow)
    (IndexerStream.step (DataRow:=BaseDataRow)
       (IndexerStream.constructor plain_url live_mode) (Start true)).1
    2 _).
  repeat split; reflexivity.
Defined.

Lemma after_end_in_live_mode_witness :
  requests
    (IndexerStream.run (DataRow:=BaseDataRow)
       (IndexerStream.step (DataRow:=BaseDataRow)
          (IndexerStream.step (DataRow:=BaseDataRow)
             (IndexerStream.constructor plain_url live_mode) (Start true)).1
          SseEnd).1
       [SseError; failure 500]).2
  = [].
Proof.
  refine (proj1 (proj2 (after_end_in_live_mode (DataRow:=BaseDataRow)
    (IndexerStream.step (DataRow:=BaseDataRow)
       (IndexerStream.constructor plain_url live_mode) (Start true)).1
    [SseError; failure 500] [] NaN _))).
  repeat split; reflexivity.
Defined.

(** *** Requests and page sequences *)

Section Polling.
Context {DataRow : Type}.
Implicit Types (s : IndexerStream.t) (p : IndexerStream.LongPolling).

(** How long polling starts, on a controller that is not cancelled. *)
Lemma start_polling (endpoint : URL) (sopts : StreamOptions.t)
    (eventSource : bool) :
  StreamOptions.disableSSE sopts = true ∨ eventSource = false →
  default false (aborted <$> StreamOptions.abortController sopts) = false →
  ∃ s p u,
    IndexerStream.step (DataRow:=DataRow)
      (IndexerStream.constructor endpoint sopts) (Start eventSource)
    = (s, [OuterPass; Fetch u])
    ∧ IndexerStream.polling s = Some p
    ∧ aborted (IndexerStream.abortController s) = false
    ∧ IndexerStream.knownHeight p = num 0
    ∧ IndexerStream.toHeight p = upper_height endpoint
    ∧ IndexerStream.nextKey p = None
    ∧ IndexerStream.retries p = 0
    ∧ IndexerStream.maxRetries s = 5
    ∧ IndexerStream.listening s = false
    ∧ IndexerStream.backoffFunc s
      = default IndexerStream.default_backoffFunc
          (StreamOptions.backoffFunc sopts).
Proof.
  intros Hpull Hsignal.
  assert (aborted (default {| aborted := false |}
                     (StreamOptions.abortController sopts)) = false) as Hab.
  { by destruct (StreamOptions.abortController sopts). }
  cbn [IndexerStream.step IndexerStream.constructor IndexerStream.started
       IndexerStream.set_chain IndexerStream.disableSSE].
  assert (∀ s, IndexerStream.abortController s
               = default {| aborted := false |}
                   (StreamOptions.abortController sopts) →
    ∃ s' p u,
      IndexerStream.subscribeToLongPolling (DataRow:=DataRow) s
      = (s', [OuterPass; Fetch u])
      ∧ IndexerStream.polling s' = Some p
      ∧ aborted (IndexerStream.abortController s') = false
      ∧ IndexerStream.knownHeight p = num 0
      ∧ IndexerStream.toHeight p = upper_height (IndexerStream.endpoint s)
      ∧ IndexerStream.nextKey p = None
      ∧ IndexerStream.retries p = 0
      ∧ IndexerStream.maxRetries s' = IndexerStream.maxRetries s
      ∧ IndexerStream.listening s' = IndexerStream.listening s
      ∧ IndexerStream.backoffFunc s' = IndexerStream.backoffFunc s) as Hpoll.
  { intros s Hs.
    unfold IndexerStream.subscribeToLongPolling, IndexerStream.outer_pass,
      IndexerStream.request.
    cbn [IndexerStream.knownHeight IndexerStream.nextKey IndexerStream.url
         IndexerStream.toHeight IndexerStream.retries].
    rewrite Hs, Hab. do 3 eexists. split; [reflexivity|].
    cbn. by rewrite Hs, Hab. }
  destruct Hpull as [-> | ->].
  - by apply Hpoll.
  - destruct (StreamOptions.disableSSE sopts); [by apply Hpoll|].
    unfold IndexerStream.subscribeToSSE, IndexerStream.reject_sse.
    cbn [IndexerStream.set_chain IndexerStream.negotiating].
    by apply Hpoll.
Qed.

(** A page without a cursor, once the known height has reached the upper
    height: the stream completes. *)
Lemma last_page_completes s p (page : IndexerPage DataRow) :
  IndexerStream.polling s = Some p →
  cursor page = None →
  number_lt (advance (Response 200 (Some page)) (IndexerStream.knownHeight p))
    (IndexerStream.toHeight p) = false →
  IndexerStream.step s (Fetched (Response 200 (Some page)))
  = (IndexerStream.set_polling s None,
     [OnUpdate (default [] (data page))
        (if block_range page is Some range then to_height range else NaN);
      OnCompleted]).
Proof.
  intros Hp Hcursor Hknown. cbn [IndexerStream.step]. rewrite Hp.
  unfold IndexerStream.fetched. rewrite bool_decide_eq_true_2 by done.
  unfold cursor in Hcursor. rewrite Hcursor.
  unfold IndexerStream.loop_conditions.
  cbn [IndexerStream.nextKey IndexerStream.knownHeight IndexerStream.url
       IndexerStream.toHeight IndexerStream.retries advance] in *.
  by rewrite Hknown.
Qed.

Lemma advance_not_negative (r : FetchResult DataRow) (known : number) :
  number_lt known (num 0) = false →
  number_lt (advance r known) (num 0) = false.
Proof.
  intros Hknown. destruct r as [status [page|]|e]; cbn; try done;
    [|by repeat case_match].
  repeat case_match; try done; simplify_eq.
  apply not_true_is_false. intros Hn.
  match goal with H : number_gt _ _ = true |- _ =>
    by rewrite (number_lt_trans known _ (num 0) H Hn) in Hknown
  end.
Qed.

Lemma stream_errors_nil (out : list (output DataRow)) :
  (∀ e, OnError e ∉ out) → stream_errors out = [].
Proof.
  induction out as [|o out IH]; [done|]. intros Hout.
  unfold stream_errors in *. destruct o; cbn;
    try (apply IH; intros e He; apply (Hout e); by right).
  exfalso. eapply Hout. by left.
Qed.

Lemma completed_nil (out : list (output DataRow)) :
  OnCompleted ∉ out → List.filter is_OnCompleted out = [].
Proof.
  induction out as [|o out IH]; [done|]. intros Hout.
  destruct o; cbn;
    try (apply IH; intros He; apply Hout; by right).
  exfalso. apply Hout. by left.
Qed.

End Polling.

Section Requests.
Context {DataRow : Type}.
Implicit Types (s : IndexerStream.t) (p : IndexerStream.LongPolling).

Lemma requests_app (out1 out2 : list (output DataRow)) :
  requests (out1 ++ out2) = requests out1 ++ requests out2.
Proof. apply omap_app. Qed.

(** What [request] leaves: the request it issues is the pending one. *)
Lemma request_spec s p :
  let result := IndexerStream.request (DataRow:=DataRow) s p in
  (IndexerStream.started result.1 = IndexerStream.started s
   ∧ IndexerStream.negotiating result.1 = IndexerStream.negotiating s
   ∧ IndexerStream.disableSSE result.1 = IndexerStream.disableSSE s
   ∧ IndexerStream.endpoint result.1 = IndexerStream.endpoint s
   ∧ (IndexerStream.listening s = false →
      IndexerStream.listening result.1 = false))
  ∧ (IndexerStream.polling result.1 = None ∧ requests result.2 = []
     ∧ (OnCompleted ∉ result.2)
     ∨ ∃ p', IndexerStream.polling result.1 = Some p'
             ∧ requests result.2 = [IndexerStream.url p']
             ∧ (OnCompleted ∉ result.2)
             ∧ IndexerStream.knownHeight p' = IndexerStream.knownHeight p
             ∧ IndexerStream.toHeight p' = IndexerStream.toHeight p
             ∧ (number_truthy (IndexerStream.knownHeight p') = true →
                block_range_from_height (IndexerStream.url p')
                = Some (IndexerStream.knownHeight p'))
             ∧ (is_Some (pagination_key (IndexerStream.url p)) →
                is_Some (pagination_key (IndexerStream.url p')))
             ∧ (∀ k, IndexerStream.nextKey p = Some k →
                     pagination_key (IndexerStream.url p') = Some k)).
Proof.
  unfold IndexerStream.request.
  destruct (aborted (IndexerStream.abortController s)); cbn.
  - split; [done|]. left. split_and!; [done..|].
    repeat (apply not_elem_of_cons; split; [done|]). apply not_elem_of_nil.
  - split; [done|]. right. eexists. split; [reflexivity|]. cbn.
    split_and!; try done.
    + repeat (apply not_elem_of_cons; split; [done|]). apply not_elem_of_nil.
    + by intros ->.
    + by destruct (IndexerStream.nextKey p).
    + by intros k ->.
Qed.


Lemma loop_conditions_spec s p :
  let result := IndexerStream.loop_conditions (DataRow:=DataRow) s p in
  same_flags s result.1
  ∧ (OnCompleted ∈ result.2 →
     number_lt (IndexerStream.knownHeight p) (IndexerStream.toHeight p)
     = false)
  ∧ (IndexerStream.polling result.1 = None ∧ requests result.2 = []
     ∨ ∃ p', IndexerStream.polling result.1 = Some p'
             ∧ next_request p p' result.2).
Proof.
  assert (∀ s0 p0,
    let result := IndexerStream.request (DataRow:=DataRow) s0 p0 in
    same_flags s0 result.1
    ∧ (OnCompleted ∉ result.2)
    ∧ (IndexerStream.polling result.1 = None ∧ requests result.2 = []
       ∨ ∃ p', IndexerStream.polling result.1 = Some p'
               ∧ next_request p0 p' result.2)) as Hrequest.
  { intros s0 p0.
    destruct (request_spec s0 p0) as [Hflags [(?&?&?)|(p'&?&?&?&?&?&?&?&?)]].
    - split_and!; [done..|by left].
    - split_and!; [done..|]. right. by exists p'. }
  unfold IndexerStream.loop_conditions.
  destruct (IndexerStream.nextKey p) as [k|] eqn:Hkey.
  - destruct (Hrequest s p) as (? & ? & ?). by split_and!.
  - destruct (number_lt (IndexerStream.knownHeight p)
                (IndexerStream.toHeight p)) eqn:Hlt.
    + unfold IndexerStream.outer_pass.
      match goal with |- context [IndexerStream.request ?s0 ?p0] =>
        destruct (Hrequest s0 p0) as (Hflags & Hcompleted & Hnext);
        destruct (IndexerStream.request (DataRow:=DataRow) s0 p0)
          as [s1 out1]
      end.
      cbn [fst snd] in *. split_and!; [done| |].
      * intros [?|?]%elem_of_cons; done.
      * destruct Hnext as [[? ?]|(p' & ? & Hreq & ? & ? & ? & ?)];
          [by left|right]. exists p'. by split_and!.
    + cbn. split_and!; [done..|by left].
Qed.

Lemma subscribeToLongPolling_spec s :
  let result := IndexerStream.subscribeToLongPolling (DataRow:=DataRow) s in
  same_flags s result.1
  ∧ (OnCompleted ∉ result.2)
  ∧ (IndexerStream.polling result.1 = None ∧ requests result.2 = []
     ∨ ∃ p', IndexerStream.polling result.1 = Some p'
             ∧ requests result.2 = [IndexerStream.url p']
             ∧ IndexerStream.knownHeight p' = num 0
             ∧ IndexerStream.toHeight p'
               = upper_height (IndexerStream.endpoint s)
             ∧ (is_Some (pagination_key (IndexerStream.endpoint s)) →
                is_Some (pagination_key (IndexerStream.url p')))).
Proof.
  unfold IndexerStream.subscribeToLongPolling, IndexerStream.outer_pass.
  match goal with |- context [IndexerStream.request ?s0 ?p0] =>
    destruct (request_spec s0 p0)
      as [Hflags [(?&?&?)|(p'&?&?&?&?&?&?&?&?)]];
    destruct (IndexerStream.request (DataRow:=DataRow) s0 p0) as [s1 out1]
  end; cbn [fst snd] in *.
  - split_and!; [done| |by left]. by intros [?|?]%elem_of_cons.
  - split_and!; [done| |right]; [by intros [?|?]%elem_of_cons|].
    exists p'. by split_and!.
Qed.

Lemma fetched_spec s p (r : FetchResult DataRow) :
  let result := IndexerStream.fetched s p r in
  same_flags s result.1
  ∧ (OnCompleted ∈ result.2 →
     number_lt (advance r (IndexerStream.knownHeight p))
       (IndexerStream.toHeight p) = false)
  ∧ (IndexerStream.polling result.1 = None ∧ requests result.2 = []
     ∨ ∃ p', IndexerStream.polling result.1 = Some p'
             ∧ requests result.2 = [IndexerStream.url p']
             ∧ IndexerStream.knownHeight p'
               = advance r (IndexerStream.knownHeight p)
             ∧ IndexerStream.toHeight p' = IndexerStream.toHeight p
             ∧ (number_truthy (IndexerStream.knownHeight p') = true →
                block_range_from_height (IndexerStream.url p')
                = Some (IndexerStream.knownHeight p'))
             ∧ (is_Some (pagination_key (IndexerStream.url p)) →
                is_Some (pagination_key (IndexerStream.url p')))).
Proof.
  assert (∀ e, let result := IndexerStream.reject_polling (DataRow:=DataRow)
                               s e in
    same_flags s result.1
    ∧ (OnCompleted ∈ result.2 →
       number_lt (advance r (IndexerStream.knownHeight p))
         (IndexerStream.toHeight p) = false)
    ∧ (IndexerStream.polling result.1 = None ∧ requests result.2 = []
       ∨ ∃ p', IndexerStream.polling result.1 = Some p'
               ∧ requests result.2 = [IndexerStream.url p']
               ∧ IndexerStream.knownHeight p'
                 = advance r (IndexerStream.knownHeight p)
               ∧ IndexerStream.toHeight p' = IndexerStream.toHeight p
               ∧ (number_truthy (IndexerStream.knownHeight p') = true →
                  block_range_from_height (IndexerStream.url p')
                  = Some (IndexerStream.knownHeight p'))
               ∧ (is_Some (pagination_key (IndexerStream.url p)) →
                  is_Some (pagination_key (IndexerStream.url p')))))
    as Hreject.
  { intros e. cbn. split_and!; [done| |by left].
    intros Hin. by repeat (apply elem_of_cons in Hin as [?|Hin]; [done|]);
      apply elem_of_nil in Hin. }
  assert (∀ q front,
    (∀ o, o ∈ front → o ≠ OnCompleted ∧ (∀ u, o ≠ Fetch u)) →
    IndexerStream.knownHeight q = advance r (IndexerStream.knownHeight p) →
    IndexerStream.toHeight q = IndexerStream.toHeight p →
    IndexerStream.url q = IndexerStream.url p →
    let result :=
      (let '(s', out) := IndexerStream.loop_conditions (DataRow:=DataRow) s q
       in (s', front ++ out)) in
    same_flags s result.1
    ∧ (OnCompleted ∈ result.2 →
       number_lt (advance r (IndexerStream.knownHeight p))
         (IndexerStream.toHeight p) = false)
    ∧ (IndexerStream.polling result.1 = None ∧ requests result.2 = []
       ∨ ∃ p', IndexerStream.polling result.1 = Some p'
               ∧ requests result.2 = [IndexerStream.url p']
               ∧ IndexerStream.knownHeight p'
                 = advance r (IndexerStream.knownHeight p)
               ∧ IndexerStream.toHeight p' = IndexerStream.toHeight p
               ∧ (number_truthy (IndexerStream.knownHeight p') = true →
                  block_range_from_height (IndexerStream.url p')
                  = Some (IndexerStream.knownHeight p'))
               ∧ (is_Some (pagination_key (IndexerStream.url p)) →
                  is_Some (pagination_key (IndexerStream.url p')))))
    as Hloop.
  { intros q front Hfront Hknown Hto Hurl.
    destruct (loop_conditions_spec s q) as (Hflags & Hcompleted & Hnext).
    destruct (IndexerStream.loop_conditions (DataRow:=DataRow) s q)
      as [s1 out1]. cbn [fst snd] in *.
    assert (requests (front ++ out1) = requests out1) as Hreq.
    { rewrite requests_app.
      assert (requests front = []) as ->; [|done].
      clear -Hfront. induction front as [|o front IH]; [done|].
      unfold requests in *. cbn.
      destruct (Hfront o ltac:(by left)) as [_ Ho].
      destruct o; try (by exfalso; eapply Ho);
        apply IH; intros; apply Hfront; by right. }
    rewrite Hreq. split_and!; [done| |].
    - rewrite elem_of_app. intros [Hin|Hin].
      + by destruct (Hfront _ Hin).
      + rewrite <-Hknown, <-Hto. by apply Hcompleted.
    - destruct Hnext as [?|(p' & ? & ? & ? & ? & ? & ?)]; [by left|right].
      exists p'. rewrite <-Hurl. split_and!; try done; congruence. }
  destruct r as [status json|e]; [|apply Hreject].
  unfold IndexerStream.fetched. case_bool_decide as Hstatus.
  - destruct json as [page|]; [|apply Hreject]. subst status.
    match goal with
    | |- context [IndexerStream.loop_conditions _ ?q] =>
        match goal with
        | |- context [(_, ?o :: _)] =>
            pose proof (Hloop q [o]) as H
        end
    end.
    cbn [app] in H. apply H; try done.
    all: try (intros o ->%list_elem_of_singleton; by split).
    all: try (cbn; by destruct (block_range page)).
  - case_bool_decide as Hretries; [|apply Hreject].
    match goal with
    | |- context [IndexerStream.loop_conditions _ ?q] =>
        match goal with
        | |- context [(_, ?o1 :: ?o2 :: _)] =>
            pose proof (Hloop q [o1; o2]) as H
        end
    end.
    cbn [app] in H. apply H; try done.
    all: try (intros o Hin;
      by repeat (apply elem_of_cons in Hin as [->|Hin]; [by split|]);
        apply elem_of_nil in Hin).
    all: try (cbn; repeat case_match; by simplify_eq).
Qed.

Lemma reject_sse_spec s :
  let result := IndexerStream.reject_sse (DataRow:=DataRow) s in
  IndexerStream.negotiating s = false ∧ result = (s, [])
  ∨ IndexerStream.negotiating s = true
    ∧ IndexerStream.started result.1 = IndexerStream.started s
    ∧ IndexerStream.negotiating result.1 = false
    ∧ IndexerStream.disableSSE result.1 = IndexerStream.disableSSE s
    ∧ (OnCompleted ∉ result.2)
    ∧ (IndexerStream.polling result.1 = None ∧ requests result.2 = []
       ∨ ∃ p', IndexerStream.polling result.1 = Some p'
               ∧ requests result.2 = [IndexerStream.url p']
               ∧ IndexerStream.knownHeight p' = num 0).
Proof.
  unfold IndexerStream.reject_sse.
  destruct (IndexerStream.negotiating s) eqn:Hne; [right|by left].
  split; [done|].
  match goal with |- context [IndexerStream.subscribeToLongPolling ?s0] =>
    destruct (subscribeToLongPolling_spec s0)
      as ((? & ? & ? & ? & ?) & ? & Hnext)
  end.
  split_and!; try done.
  destruct Hnext as [?|(p' & ? & ? & ? & ?)]; [by left|right].
  by exists p'.
Qed.



(** X11.  A page cursor that is written to the URL is never removed: the
    request after a page with a cursor carries that cursor, and every later
    request carries some cursor, also in later passes of the outer loop. *)
Theorem page_cursor_stays s p (rows : list DataRow) (key : string)
    (height : option number) (inputs : list (input DataRow)) :
  IndexerStream.polling s = Some p →
  IndexerStream.started s = true →
  IndexerStream.negotiating s = false →
  aborted (IndexerStream.abortController s) = false →
  string_truthy key = true →
  let result :=
    IndexerStream.run s (success (page_of rows (Some key) height) :: inputs) in
  ∃ u, head (requests result.2) = Some u
       ∧ pagination_key u = Some key
       ∧ Forall (λ u, is_Some (pagination_key u)) (requests result.2).
Proof.
  intros Hp Hst Hne Hab Hkey.
  assert (∀ s0 (i : input DataRow),
    IndexerStream.started s0 = true →
    IndexerStream.negotiating s0 = false →
    (∀ q, IndexerStream.polling s0 = Some q →
          is_Some (pagination_key (IndexerStream.url q))) →
    let r := IndexerStream.step s0 i in
    (IndexerStream.started r.1 = true
     ∧ IndexerStream.negotiating r.1 = false
     ∧ ∀ q, IndexerStream.polling r.1 = Some q →
            is_Some (pagination_key (IndexerStream.url q)))
    ∧ Forall (λ u, is_Some (pagination_key u)) (requests r.2)) as Hstep.
  { intros s0 i Hst0 Hne0 Hkeyed.
    assert (∀ out : list (output DataRow), requests out = [] →
      let r := (s0, out) in
      (IndexerStream.started r.1 = true
       ∧ IndexerStream.negotiating r.1 = false
       ∧ ∀ q, IndexerStream.polling r.1 = Some q →
              is_Some (pagination_key (IndexerStream.url q)))
      ∧ Forall (λ u, is_Some (pagination_key u)) (requests r.2)) as Hsame.
    { intros out Hout. cbn [fst snd]. rewrite Hout. by split_and!. }
    destruct i as [eventSource|d h| | |r|]; cbn [IndexerStream.step].
    - rewrite Hst0. by apply Hsame.
    - destruct (IndexerStream.listening s0); [|by apply Hsame].
      unfold IndexerStream.on_update, IndexerStream.reject_sse.
      rewrite Hne0. destruct d as [| |[?|]]; by apply Hsame.
    - destruct (IndexerStream.listening s0); [|by apply Hsame].
      cbn. by split_and!.
    - destruct (IndexerStream.listening s0); [|by apply Hsame].
      unfold IndexerStream.on_error, IndexerStream.reject_sse.
      rewrite Hne0. by apply Hsame.
    - destruct (IndexerStream.polling s0) as [q|] eqn:Hq; [|by apply Hsame].
      destruct (fetched_spec s0 q r)
        as ((Hst' & Hne' & _) & _
            & [[Hnone Hreq]|(q' & Hq' & Hreq & _ & _ & _ & Hsticky)]).
      + rewrite Hreq, Hst', Hne', Hnone. by split_and!.
      + rewrite Hreq, Hst', Hne'. split_and!; try done.
        * intros q'' Hq''. rewrite Hq' in Hq''. injection Hq'' as <-.
          by apply Hsticky, Hkeyed.
        * repeat constructor. by apply Hsticky, Hkeyed.
    - unfold IndexerStream.unsubscribe.
      destruct (aborted (IndexerStream.abortController s0));
        [by apply Hsame|].
      cbn. destruct (IndexerStream.polling s0) eqn:Hq; cbn;
        rewrite ?Hq; by split_and!. }
  assert (∀ (l : list (input DataRow)) s0,
    IndexerStream.started s0 = true →
    IndexerStream.negotiating s0 = false →
    (∀ q, IndexerStream.polling s0 = Some q →
          is_Some (pagination_key (IndexerStream.url q))) →
    Forall (λ u, is_Some (pagination_key u))
      (requests (IndexerStream.run s0 l).2)) as Hrun.
  { induction l as [|i rest IH]; intros s0 Hst0 Hne0 Hkeyed; [done|].
    rewrite run_cons. cbn [snd]. rewrite requests_app.
    destruct (Hstep s0 i Hst0 Hne0 Hkeyed) as [(? & ? & ?) ?].
    apply Forall_app. split; [done|]. by apply IH. }
  cbn zeta. rewrite run_cons. cbn [snd]. rewrite requests_app.
  assert (∃ s1 q u,
    IndexerStream.step s (success (page_of rows (Some key) height))
    = (s1, [OnUpdate rows (default NaN height); Fetch u])
    ∧ pagination_key u = Some key
    ∧ IndexerStream.polling s1 = Some q ∧ IndexerStream.url q = u
    ∧ IndexerStream.started s1 = true
    ∧ IndexerStream.negotiating s1 = false)
    as (s1 & q & u & -> & Hu & Hq & Hurl & Hst1 & Hne1).
  { unfold success, page_of. cbn [IndexerStream.step]. rewrite Hp.
    unfold IndexerStream.fetched.
    rewrite bool_decide_eq_true_2 by done.
    cbn [block_range pagination data next_key mbind option_bind default].
    rewrite Hkey.
    unfold IndexerStream.loop_conditions, IndexerStream.request.
    cbn [IndexerStream.nextKey IndexerStream.knownHeight IndexerStream.url
         IndexerStream.toHeight IndexerStream.retries].
    rewrite Hab. do 3 eexists. split.
    { f_equal. f_equal. f_equal. by destruct height. }
    cbn. by split_and!. }
  cbn [fst snd]. exists u. split_and!; [done..|].
  apply Forall_app. split.
  - repeat constructor. by rewrite Hu.
  - apply Hrun; [done..|]. intros q' Hq'. rewrite Hq in Hq'.
    injection Hq' as <-. by rewrite Hurl, Hu.
Qed.

(** X12.  In pull mode on a URL without [pagination.before] and without
    [block_range.to_height] the upper height is infinite, and the stream
    never completes, whatever the endpoint answers, as long as no page
    reports an infinite height. *)
Theorem unbounded_never_completes (endpoint : URL)
    (backoff : option (nat → number)) (inputs : list (input DataRow)) :
  upper_height endpoint = Infinity →
  Forall finite_height inputs →
  OnCompleted
  ∉ (IndexerStream.run
       (IndexerStream.constructor endpoint (pull_mode backoff)) inputs).2.
Proof.
  intros Hupper Hfinite.
  assert (∀ k t, number_lt k t = true → t ≠ Infinity →
                 number_lt t Infinity = true) as Hbelow.
  { intros k t Hlt Ht. by destruct k, t. }
  set (U := λ s : IndexerStream.t,
    IndexerStream.disableSSE s = true
    ∧ IndexerStream.listening s = false
    ∧ IndexerStream.negotiating s = false
    ∧ upper_height (IndexerStream.endpoint s) = Infinity
    ∧ ∀ p, IndexerStream.polling s = Some p →
           IndexerStream.toHeight p = Infinity
           ∧ number_lt (IndexerStream.knownHeight p) Infinity = true).
  assert (∀ s (i : input DataRow), U s → finite_height i →
    U (IndexerStream.step s i).1 ∧ OnCompleted ∉ (IndexerStream.step s i).2)
    as Hstep.
  { intros s i HU Hi. pose proof HU as (Hdis & Hli & Hne & Hup & Hpoll).
    destruct i as [eventSource|d h| | |r|]; cbn [IndexerStream.step].
    - destruct (IndexerStream.started s);
        [split; [exact HU|apply not_elem_of_nil]|].
      cbn [IndexerStream.disableSSE IndexerStream.set_chain]. rewrite Hdis.
      match goal with |- context [IndexerStream.subscribeToLongPolling ?s0] =>
        destruct (subscribeToLongPolling_spec s0)
          as ((? & ? & ? & Hend & Hli') & ? & Hnext)
      end.
      cbn [IndexerStream.started IndexerStream.negotiating
           IndexerStream.disableSSE IndexerStream.endpoint
           IndexerStream.listening IndexerStream.set_chain] in *.
      split; [|done]. unfold U. split_and!; try done; try congruence.
      + by apply Hli'.
      + intros p Hp.
        destruct Hnext as [[Hnone _]|(p' & Hp' & _ & Hknown & Hto & _)].
        * by rewrite Hnone in Hp.
        * rewrite Hp' in Hp. injection Hp as <-.
          rewrite Hto, Hknown. cbn. by rewrite Hup.
    - rewrite Hli. split; [exact HU|apply not_elem_of_nil].
    - rewrite Hli. split; [exact HU|apply not_elem_of_nil].
    - rewrite Hli. split; [exact HU|apply not_elem_of_nil].
    - destruct (IndexerStream.polling s) as [p|] eqn:Hp;
        [|split; [exact HU|apply not_elem_of_nil]].
      destruct (Hpoll p eq_refl) as [Hto Hknown].
      assert (number_lt (advance r (IndexerStream.knownHeight p)) Infinity
              = true) as Hadv.
      { destruct r as [status [page|]|e]; cbn; try done;
          [|by repeat case_match].
        cbn in Hi. repeat case_match; try done; simplify_eq.
        by eapply Hbelow. }
      destruct (fetched_spec s p r)
        as ((? & ? & ? & Hend & Hli') & Hcompleted & Hnext).
      split.
      + unfold U. split_and!; try congruence; [by apply Hli'|].
        intros q Hq.
        destruct Hnext as [[Hnone _]|(p' & Hp' & _ & Hknown' & Hto' & _)].
        * by rewrite Hnone in Hq.
        * rewrite Hp' in Hq. injection Hq as <-.
          by rewrite Hto', Hknown', Hto.
      + intros Hin. apply Hcompleted in Hin. rewrite Hto in Hin. congruence.
    - unfold IndexerStream.unsubscribe.
      destruct (aborted (IndexerStream.abortController s));
        [split; [exact HU|apply not_elem_of_nil]|].
      cbn. destruct (IndexerStream.polling s) eqn:Hp; cbn.
      + split; [by unfold U|].
        by repeat (apply not_elem_of_cons; split; [done|]);
          apply not_elem_of_nil.
      + split; [|apply not_elem_of_nil]. unfold U. cbn.
        split_and!; [done..|]. intros q Hq. congruence. }
  assert (∀ s, U s → Forall finite_height inputs →
               OnCompleted ∉ (IndexerStream.run s inputs).2) as Hrun.
  { clear Hfinite. induction inputs as [|i rest IH]; intros s Hs Hall.
    - apply not_elem_of_nil.
    - apply Forall_cons in Hall as [Hi Hall]. rewrite run_cons. cbn [snd].
      destruct (Hstep s i Hs Hi) as [Hs' Hout].
      rewrite elem_of_app. intros [?|?]; [done|]. by eapply IH. }
  apply Hrun; [|done]. by unfold U.
Qed.

(** X13.  A page whose cursor is missing, null or empty ends the page
    sequence.  When the known height has reached the upper height, the
    stream completes and no request is pending; otherwise the outer loop
    makes another pass, whose request starts with no retry counted and no
    cursor in the loop variables. *)
Theorem end_of_page_sequence s p (page : IndexerPage DataRow) :
  IndexerStream.polling s = Some p →
  aborted (IndexerStream.abortController s) = false →
  cursor page = None →
  let r := Response 200 (Some page) in
  let known := advance r (IndexerStream.knownHeight p) in
  let height := if block_range page is Some range then to_height range
                else NaN in
  let result := IndexerStream.step s (Fetched r) in
  (number_lt known (IndexerStream.toHeight p) = false →
   result = (IndexerStream.set_polling s None,
             [OnUpdate (default [] (data page)) height; OnCompleted]))
  ∧ (number_lt known (IndexerStream.toHeight p) = true →
     ∃ p', IndexerStream.polling result.1 = Some p'
           ∧ result.2 = [OnUpdate (default [] (data page)) height;
                         OuterPass; Fetch (IndexerStream.url p')]
           ∧ IndexerStream.retries p' = 0
           ∧ IndexerStream.nextKey p' = None
           ∧ IndexerStream.knownHeight p' = known).
Proof.
  intros Hp Hab Hcursor. cbn [IndexerStream.step]. rewrite Hp.
  unfold IndexerStream.fetched. rewrite bool_decide_eq_true_2 by done.
  unfold cursor in Hcursor. rewrite Hcursor.
  unfold IndexerStream.loop_conditions.
  cbn [IndexerStream.nextKey IndexerStream.knownHeight IndexerStream.url
       IndexerStream.toHeight IndexerStream.retries advance].
  split.
  - by intros ->.
  - intros ->. unfold IndexerStream.outer_pass, IndexerStream.request.
    cbn [IndexerStream.nextKey IndexerStream.knownHeight IndexerStream.url
         IndexerStream.toHeight IndexerStream.retries].
    rewrite Hab. eexists. split; [reflexivity|]. by split_and!.
Qed.

End Requests.


Lemma page_cursor_stays_witness :
  ∃ u,
    head
      (requests
         (IndexerStream.run (DataRow:=BaseDataRow)
            (IndexerStream.step (DataRow:=BaseDataRow)
               (IndexerStream.constructor plain_url (pull_mode None))
               (Start true)).1
            (success (page_of [] (Some "a") None)
             :: [success (page_of [] None None); failure 500])).2)
    = Some u
    ∧ pagination_key u = Some "a"
    ∧ Forall (λ u, is_Some (pagination_key u))
        (requests
           (IndexerStream.run (DataRow:=BaseDataRow)
              (IndexerStream.step (DataRow:=BaseDataRow)
                 (IndexerStream.constructor plain_url (pull_mode None))
                 (Start true)).1
              (success (page_of [] (Some "a") None)
               :: [success (page_of [] None None); failure 500])).2).
Proof.
  refine (page_cursor_stays (DataRow:=BaseDataRow)
    (IndexerStream.step (DataRow:=BaseDataRow)
       (IndexerStream.constructor plain_url (pull_mode None)) (Start true)).1
    _ [] "a" None [success (page_of [] None None); failure 500] _ _ _ _ _).
  - reflexivity.
  - reflexivity.
  - reflexivity.
  - reflexivity.
  - reflexivity.
Defined.

Lemma unbounded_never_completes_witness :
  OnCompleted
  ∉ (IndexerStream.run (DataRow:=BaseDataRow)
       (IndexerStream.constructor plain_url (pull_mode None))
       [Start true; success (page_of [] None (Some (num 5)))]).2.
Proof.
  refine (unbounded_never_completes (DataRow:=BaseDataRow) plain_url None
    [Start true; success (page_of [] None (Some (num 5)))] _ _).
  - reflexivity.
  - repeat constructor. simpl. discriminate.
Defined.

Lemma end_of_page_sequence_witness :
  IndexerStream.step (DataRow:=BaseDataRow)
    (IndexerStream.step (DataRow:=BaseDataRow)
       (IndexerStream.constructor capped_url (pull_mode None)) (Start true)).1
    (Fetched (Response 200 (Some (page_of [] None None))))
  = (IndexerStream.set_polling
       (IndexerStream.step (DataRow:=BaseDataRow)
          (IndexerStream.constructor capped_url (pull_mode None))
          (Start true)).1 None,
     [OnUpdate [] NaN; OnCompleted]).
Proof.
  refine (proj1 (end_of_page_sequence (DataRow:=BaseDataRow)
    (IndexerStream.step (DataRow:=BaseDataRow)
       (IndexerStream.constructor capped_url (pull_mode None)) (Start true)).1
    {| IndexerStream.url := capped_url; IndexerStream.toHeight := num 0;
       IndexerStream.knownHeight := num 0; IndexerStream.retries := 0;
       IndexerStream.nextKey := None |}
    (page_of [] None None) _ _ _) _).
  - vm_compute. reflexivity.
  - reflexivity.
  - reflexivity.
  - reflexivity.
Defined.

Lemma known_height_never_decreases_witness :
  number_le (num 0) (num 5) = true.
Proof.
  refine (known_height_never_decreases (DataRow:=BaseDataRow) plain_url
    (pull_mode None) [Start true]
    (success (page_of [] None (Some (num 5))))
    {| IndexerStream.url := plain_url; IndexerStream.toHeight := Infinity;
       IndexerStream.knownHeight := num 0; IndexerStream.retries := 0;
       IndexerStream.nextKey := None |}
    {| IndexerStream.url :=
         {| pagination_before := None; pagination_key := None;
            block_range_from_height := Some (num 5);
            block_range_to_height := None |};
       IndexerStream.toHeight := Infinity;
       IndexerStream.knownHeight := num 5;
       IndexerStream.retries := 0;
       IndexerStream.nextKey := None |} _ _).
  - vm_compute. reflexivity.
  - vm_compute. reflexivity.
Defined.

(** *** Cancellation *)

Section Cancelled.
Context {DataRow : Type}.
Implicit Types (s : IndexerStream.t) (p : IndexerStream.LongPolling).

Lemma step_cancelled s (i : input DataRow) :
  cancelled s →
  cancelled (IndexerStream.step s i).1
  ∧ Forall (λ o, active o = false) (IndexerStream.step s i).2.
Proof.
  intros (Hab & Hli & Hpo).
  destruct i as [eventSource|d height| | |r|]; cbn [IndexerStream.step].
  - destruct (IndexerStream.started s); [done|].
    cbn [IndexerStream.disableSSE IndexerStream.set_chain].
    destruct (IndexerStream.disableSSE s).
    + unfold IndexerStream.subscribeToLongPolling,
        IndexerStream.outer_pass, IndexerStream.request.
      cbn [IndexerStream.abortController IndexerStream.set_chain].
      rewrite Hab. cbn. split; [done|]. by repeat constructor.
    + unfold IndexerStream.subscribeToSSE. destruct eventSource.
      * unfold cancelled. cbn. rewrite Hab, Hpo. by split.
      * unfold IndexerStream.reject_sse.
        cbn [IndexerStream.negotiating IndexerStream.set_chain].
        unfold IndexerStream.subscribeToLongPolling,
          IndexerStream.outer_pass, IndexerStream.request.
        cbn [IndexerStream.abortController IndexerStream.set_chain].
        rewrite Hab. cbn. split; [done|]. by repeat constructor.
  - by rewrite Hli.
  - by rewrite Hli.
  - by rewrite Hli.
  - by rewrite Hpo.
  - unfold IndexerStream.unsubscribe. by rewrite Hab.
Qed.

Lemma run_cancelled s (inputs : list (input DataRow)) :
  cancelled s →
  cancelled (IndexerStream.run s inputs).1
  ∧ Forall (λ o, active o = false) (IndexerStream.run s inputs).2.
Proof.
  revert s. induction inputs as [|i rest IH]; intros s Hs; [done|].
  rewrite run_cons. cbn [fst snd].
  destruct (step_cancelled s i Hs) as [Hs' Hout].
  destruct (IH _ Hs') as [? ?]. split; [done|]. by apply Forall_app.
Qed.

Lemma request_cancelled s p :
  cancelled_if_aborted (IndexerStream.request (DataRow:=DataRow) s p).1.
Proof.
  unfold IndexerStream.request.
  destruct (aborted (IndexerStream.abortController s)) eqn:Hab; [done|].
  intros Hab'. cbn in Hab'. congruence.
Qed.

Lemma loop_conditions_cancelled s p :
  IndexerStream.listening s = false
  ∨ aborted (IndexerStream.abortController s) = false →
  cancelled_if_aborted
    (IndexerStream.loop_conditions (DataRow:=DataRow) s p).1.
Proof.
  intros Hs. unfold IndexerStream.loop_conditions.
  destruct (IndexerStream.nextKey p); [apply request_cancelled|].
  destruct (number_lt _ _).
  - unfold IndexerStream.outer_pass.
    match goal with |- context [IndexerStream.request ?s0 ?p0] =>
      pose proof (request_cancelled s0 p0) as H;
      by destruct (IndexerStream.request (DataRow:=DataRow) s0 p0)
    end.
  - intros Hab. destruct Hs as [Hli|Hab']; [by split_and!|].
    cbn in Hab. congruence.
Qed.

Lemma subscribeToLongPolling_cancelled s :
  cancelled_if_aborted
    (IndexerStream.subscribeToLongPolling (DataRow:=DataRow) s).1.
Proof.
  unfold IndexerStream.subscribeToLongPolling, IndexerStream.outer_pass.
  match goal with |- context [IndexerStream.request ?s0 ?p0] =>
    pose proof (request_cancelled s0 p0) as H;
    by destruct (IndexerStream.request (DataRow:=DataRow) s0 p0)
  end.
Qed.

Lemma step_cancelled_if_aborted s (i : input DataRow) :
  cancelled_if_aborted s →
  cancelled_if_aborted (IndexerStream.step s i).1.
Proof.
  intros Hs.
  destruct (aborted (IndexerStream.abortController s)) eqn:Hab.
  { intros _. by apply step_cancelled, Hs. }
  destruct i as [eventSource|d height| | |r|]; cbn [IndexerStream.step].
  - destruct (IndexerStream.started s); [done|].
    cbn [IndexerStream.disableSSE IndexerStream.set_chain].
    destruct (IndexerStream.disableSSE s);
      [apply subscribeToLongPolling_cancelled|].
    unfold IndexerStream.subscribeToSSE. destruct eventSource.
    + intros Hab'. cbn in Hab'. congruence.
    + unfold IndexerStream.reject_sse.
      cbn [IndexerStream.negotiating IndexerStream.set_chain].
      apply subscribeToLongPolling_cancelled.
  - destruct (IndexerStream.listening s); [|done].
    unfold IndexerStream.on_update, IndexerStream.reject_sse.
    destruct d as [| |[rows|]]; try done.
    destruct (IndexerStream.negotiating s); [|done].
    apply subscribeToLongPolling_cancelled.
  - destruct (IndexerStream.listening s); [|done].
    intros Hab'. cbn in Hab'. congruence.
  - destruct (IndexerStream.listening s); [|done].
    unfold IndexerStream.on_error, IndexerStream.reject_sse.
    destruct (IndexerStream.negotiating s); [|done].
    pose proof (subscribeToLongPolling_cancelled
                  (IndexerStream.set_chain s (IndexerStream.started s)
                     (IndexerStream.listening s) false
                     (IndexerStream.polling s))) as H.
    by destruct (IndexerStream.subscribeToLongPolling _).
  - destruct (IndexerStream.polling s) as [p|] eqn:Hp; [|done].
    unfold IndexerStream.fetched.
    destruct r as [status [page|]|e]; try done.
    + case_bool_decide as Hstatus.
      * match goal with |- context [IndexerStream.loop_conditions ?s0 ?p0] =>
          pose proof (loop_conditions_cancelled s0 p0 ltac:(by right))
            as Hloop;
          by destruct (IndexerStream.loop_conditions (DataRow:=DataRow) s0 p0)
        end.
      * case_bool_decide as Hretries; [|done].
        match goal with |- context [IndexerStream.loop_conditions ?s0 ?p0] =>
          pose proof (loop_conditions_cancelled s0 p0 ltac:(by right))
            as Hloop;
          by destruct (IndexerStream.loop_conditions (DataRow:=DataRow) s0 p0)
        end.
    + case_bool_decide as Hstatus; [done|]. case_bool_decide as Hretries; [|done].
      match goal with |- context [IndexerStream.loop_conditions ?s0 ?p0] =>
        pose proof (loop_conditions_cancelled s0 p0 ltac:(by right))
            as Hloop;
        by destruct (IndexerStream.loop_conditions (DataRow:=DataRow) s0 p0)
      end.
  - unfold IndexerStream.unsubscribe. rewrite Hab.
    cbn [IndexerStream.abort IndexerStream.polling].
    destruct (IndexerStream.polling s) eqn:Hp; intros _; [done|].
    unfold cancelled. cbn. by rewrite Hp.
Qed.

Lemma run_cancelled_if_aborted (endpoint : URL) (opts : StreamOptions.t)
    (inputs : list (input DataRow)) :
  cancelled_if_aborted
    (IndexerStream.run (DataRow:=DataRow)
       (IndexerStream.constructor endpoint opts) inputs).1.
Proof.
  assert (∀ s, cancelled_if_aborted s →
               cancelled_if_aborted
                 (IndexerStream.run (DataRow:=DataRow) s inputs).1) as Hrun.
  { induction inputs as [|i rest IH]; intros s Hs; [done|].
    rewrite run_cons. cbn [fst]. by apply IH, step_cancelled_if_aborted. }
  apply Hrun. intros Hab. by split.
Qed.

Lemma unsubscribe_cancels s :
  cancelled_if_aborted s →
  cancelled (IndexerStream.step (DataRow:=DataRow) s Unsubscribe).1.
Proof.
  intros Hs. cbn [IndexerStream.step]. unfold IndexerStream.unsubscribe.
  destruct (aborted (IndexerStream.abortController s)) eqn:Hab;
    [by apply Hs|].
  cbn [IndexerStream.abort IndexerStream.polling].
  destruct (IndexerStream.polling s) eqn:Hp; [done|].
  unfold cancelled. cbn. by rewrite Hp.
Qed.

End Cancelled.

(** No output that follows a cancellation is active. *)
Lemma unsubscribed_run {DataRow} (endpoint : URL) (opts : StreamOptions.t)
    (inputs more : list (input DataRow)) :
  Forall (λ o, active o = false)
    (IndexerStream.run
       (IndexerStream.run (IndexerStream.constructor endpoint opts) inputs).1
       (Unsubscribe :: more)).2.
Proof.
  rewrite run_cons. cbn [fst snd].
  pose proof (run_cancelled_if_aborted endpoint opts inputs) as Hbefore.
  set (before := IndexerStream.run _ inputs) in *.
  pose proof (unsubscribe_cancels (DataRow:=DataRow) before.1 Hbefore)
    as Hcancelled.
  destruct (run_cancelled _ more Hcancelled) as [_ Hout].
  apply Forall_app. split; [|done].
  cbn [IndexerStream.step]. unfold IndexerStream.unsubscribe.
  destruct (aborted (IndexerStream.abortController before.1));
    [by constructor|].
  cbn [IndexerStream.abort IndexerStream.polling].
  destruct (IndexerStream.polling before.1); by repeat constructor.
Qed.


(** X15.  A stream constructed with a controller that is already aborted
    never delivers, completes or requests; in live mode with an event
    source it reports nothing at all, no error either. *)
Theorem aborted_before_start {DataRow} (endpoint : URL)
    (opts : StreamOptions.t) (inputs : list (input DataRow)) :
  default false (aborted <$> StreamOptions.abortController opts) = true →
  let result :=
    IndexerStream.run (IndexerStream.constructor endpoint opts) inputs in
  Forall (λ o, active o = false) result.2
  ∧ (StreamOptions.disableSSE opts = false →
     Forall (λ i, i ≠ Start false) inputs →
     result.2 = []).
Proof.
  intros Hsignal result.
  assert (aborted (default {| aborted := false |}
                     (StreamOptions.abortController opts)) = true) as Hab.
  { by destruct (StreamOptions.abortController opts). }
  split.
  - apply run_cancelled. by split.
  - intros Hsse Hinputs. subst result.
    assert (∀ s : IndexerStream.t,
      cancelled s → IndexerStream.disableSSE s = false →
      (IndexerStream.run s inputs).2 = []) as Hrun.
    { induction Hinputs as [|i rest Hi _ IH]; intros s Hs Hdis; [done|].
      rewrite run_cons. cbn [snd].
      assert ((IndexerStream.step s i).2 = []
              ∧ IndexerStream.disableSSE (IndexerStream.step s i).1 = false)
        as [-> Hdis'].
      { destruct Hs as (Hab' & Hli & Hpo).
        destruct i as [eventSource|d height| | |r|];
          cbn [IndexerStream.step]; rewrite ?Hli, ?Hpo; try done.
        - destruct (IndexerStream.started s); [done|].
          cbn [IndexerStream.disableSSE IndexerStream.set_chain].
          rewrite Hdis. by destruct eventSource.
        - unfold IndexerStream.unsubscribe. by rewrite Hab'. }
      rewrite IH; [done| |done]. by apply step_cancelled. }
    apply Hrun; [by split|done].
Qed.

Lemma aborted_before_start_witness :
  Forall (λ o, active o = false)
    (IndexerStream.run (DataRow:=BaseDataRow)
       (IndexerStream.constructor plain_url
          {| StreamOptions.abortController := Some {| aborted := true |};
             StreamOptions.disableSSE := true;
             StreamOptions.backoffFunc := None |})
       [Start true; success (page_of [] None None)]).2.
Proof.
  refine (proj1 (aborted_before_start (DataRow:=BaseDataRow) plain_url
    {| StreamOptions.abortController := Some {| aborted := true |};
       StreamOptions.disableSSE := true;
       StreamOptions.backoffFunc := None |}
    [Start true; success (page_of [] None None)] _)).
  reflexivity.
Defined.

(** *** A stream without an event source *)

Section DisableSSE.
Context {DataRow : Type}.
Implicit Types (s : IndexerStream.t) (p : IndexerStream.LongPolling).

Lemma request_ignores p :
  ignores_disableSSE (DataRow:=DataRow) (λ s, IndexerStream.request s p).
Proof.
  intros s b. unfold IndexerStream.request. cbn.
  by destruct (aborted (IndexerStream.abortController s)).
Qed.

Lemma outer_pass_ignores (u : URL) (toHeight knownHeight : number) :
  ignores_disableSSE (DataRow:=DataRow)
    (λ s, IndexerStream.outer_pass s u toHeight knownHeight).
Proof.
  intros s b. unfold IndexerStream.outer_pass. rewrite request_ignores.
  by destruct (IndexerStream.request s _).
Qed.

Lemma loop_conditions_ignores p :
  ignores_disableSSE (DataRow:=DataRow)
    (λ s, IndexerStream.loop_conditions s p).
Proof.
  intros s b. unfold IndexerStream.loop_conditions.
  destruct (IndexerStream.nextKey p); [apply request_ignores|].
  destruct (number_lt _ _); [apply outer_pass_ignores|done].
Qed.

Lemma subscribeToLongPolling_ignores :
  ignores_disableSSE (IndexerStream.subscribeToLongPolling (DataRow:=DataRow)).
Proof.
  intros s b. unfold IndexerStream.subscribeToLongPolling.
  apply outer_pass_ignores.
Qed.

Lemma fetched_ignores p (r : FetchResult DataRow) :
  ignores_disableSSE (DataRow:=DataRow) (λ s, IndexerStream.fetched s p r).
Proof.
  intros s b. unfold IndexerStream.fetched.
  destruct r as [status [page|]|e]; try done.
  - case_bool_decide as Hstatus.
    + rewrite loop_conditions_ignores.
      by destruct (IndexerStream.loop_conditions s _).
    + cbn [IndexerStream.maxRetries with_disableSSE].
      case_bool_decide as Hretries; [|done].
      rewrite loop_conditions_ignores.
      by destruct (IndexerStream.loop_conditions s _).
  - case_bool_decide as Hstatus; [done|].
    cbn [IndexerStream.maxRetries with_disableSSE].
    case_bool_decide as Hretries; [|done].
    rewrite loop_conditions_ignores.
    by destruct (IndexerStream.loop_conditions s _).
Qed.

Lemma reject_sse_ignores :
  ignores_disableSSE (IndexerStream.reject_sse (DataRow:=DataRow)).
Proof.
  intros s b. unfold IndexerStream.reject_sse.
  cbn [IndexerStream.negotiating with_disableSSE].
  destruct (IndexerStream.negotiating s); [|done].
  apply (subscribeToLongPolling_ignores
           (IndexerStream.set_chain s (IndexerStream.started s)
              (IndexerStream.listening s) false (IndexerStream.polling s))).
Qed.

(** Once the chain has started, no step reads the option. *)
Lemma step_ignores s (b : bool) (i : input DataRow) :
  IndexerStream.started s = true →
  IndexerStream.step (with_disableSSE s b) i
  = (with_disableSSE (IndexerStream.step s i).1 b,
     (IndexerStream.step s i).2)
  ∧ IndexerStream.started (IndexerStream.step s i).1 = true.
Proof.
  intros Hst.
  destruct i as [eventSource|d height| | |r|]; cbn [IndexerStream.step].
  - cbn [IndexerStream.started with_disableSSE]. by rewrite Hst.
  - cbn [IndexerStream.listening with_disableSSE].
    destruct (IndexerStream.listening s); [|done].
    unfold IndexerStream.on_update.
    destruct d as [| |[rows|]]; try done.
    split; [apply reject_sse_ignores|].
    unfold IndexerStream.reject_sse.
    destruct (IndexerStream.negotiating s); [|done].
    match goal with |- context [IndexerStream.subscribeToLongPolling ?s0] =>
      by destruct (subscribeToLongPolling_spec (DataRow:=DataRow) s0)
        as ((-> & _) & _)
    end.
  - cbn [IndexerStream.listening with_disableSSE].
    by destruct (IndexerStream.listening s).
  - cbn [IndexerStream.listening with_disableSSE].
    destruct (IndexerStream.listening s); [|done].
    unfold IndexerStream.on_error. rewrite reject_sse_ignores.
    destruct (reject_sse_spec (DataRow:=DataRow) s)
      as [[_ ->]|(_ & Hst' & _)]; [done|].
    destruct (IndexerStream.reject_sse s). cbn in *. by rewrite Hst'.
  - cbn [IndexerStream.polling with_disableSSE].
    destruct (IndexerStream.polling s) as [p|]; [|done].
    split; [apply fetched_ignores|].
    by destruct (fetched_spec s p r) as ((-> & _) & _).
  - unfold IndexerStream.unsubscribe.
    cbn [IndexerStream.abortController with_disableSSE].
    destruct (aborted (IndexerStream.abortController s)); [done|].
    cbn [IndexerStream.abort IndexerStream.polling with_disableSSE].
    by destruct (IndexerStream.polling s).
Qed.

Lemma run_ignores s (b : bool) (inputs : list (input DataRow)) :
  IndexerStream.started s = true →
  (IndexerStream.run (with_disableSSE s b) inputs).2
  = (IndexerStream.run s inputs).2.
Proof.
  revert s. induction inputs as [|i rest IH]; intros s Hst; [done|].
  rewrite !run_cons. cbn [snd].
  destruct (step_ignores s b i Hst) as [-> Hst']. cbn [fst snd].
  by rewrite IH.
Qed.

End DisableSSE.

(** X28.  A stream whose event source cannot be constructed behaves as a
    stream with [disableSSE: true]: whatever comes in, both report the same
    updates, errors and completions and make the same requests, and no
    error is reported for the event source. *)
Theorem event_source_unavailable {DataRow} (endpoint : URL)
    (opts : StreamOptions.t) (eventSource : bool)
    (rest : list (input DataRow)) :
  (IndexerStream.run (IndexerStream.constructor endpoint opts)
     (Start false :: rest)).2
  = (IndexerStream.run
       (IndexerStream.constructor endpoint (without_SSE opts))
       (Start eventSource :: rest)).2.
Proof.
  set (s := IndexerStream.set_chain
              (IndexerStream.constructor endpoint (without_SSE opts))
              true false false None).
  assert (IndexerStream.step (DataRow:=DataRow)
            (IndexerStream.constructor endpoint opts) (Start false)
          = IndexerStream.subscribeToLongPolling
              (with_disableSSE s (StreamOptions.disableSSE opts)))
    as Hunavailable.
  { cbn [IndexerStream.step IndexerStream.constructor IndexerStream.started
         IndexerStream.disableSSE IndexerStream.set_chain].
    subst s. by destruct opts as [ac [|] f]. }
  assert (IndexerStream.step (DataRow:=DataRow)
            (IndexerStream.constructor endpoint (without_SSE opts))
            (Start eventSource)
          = IndexerStream.subscribeToLongPolling s) as Hdisabled by done.
  rewrite !run_cons, Hunavailable, Hdisabled.
  rewrite subscribeToLongPolling_ignores. cbn [fst snd]. f_equal.
  apply run_ignores.
  by destruct (subscribeToLongPolling_spec (DataRow:=DataRow) s)
    as ((-> & _) & _).
Qed.

(** ** Further properties of the accumulating classes *)


Lemma single_eta (self : Single.t) :
  {| Single.dataSet := Single.dataSet self;
     Single.dataHeight := Single.dataHeight self;
     Single.stream := Single.stream self;
     Single.accumulateUpdates := Single.accumulateUpdates self;
     Single.opts := Single.opts self |} = self.
Proof. by destruct self. Qed.

Lemma options_eta (opts : AccumulatorOptions) :
  {| mapEntryRemovalValue := mapEntryRemovalValue opts |} = opts.
Proof. by destruct opts. Qed.

Lemma deliver_all_cons (self : Single.t) (h : heap)
    (o : output BaseDataRow) (out : list (output BaseDataRow)) :
  Single.deliver_all self h (o :: out)
  = let d := Single.deliver self h o in
    let r := Single.deliver_all d.1.1 d.1.2 out in
    (r.1.1, r.1.2, d.2 ++ r.2).
Proof.
  cbn [Single.deliver_all].
  destruct (Single.deliver self h o) as [[self1 h1] c1]. cbn [fst snd].
  by destruct (Single.deliver_all self1 h1 out) as [[self2 h2] c2].
Qed.

Lemma deliver_all_app (self : Single.t) (h : heap)
    (out1 out2 : list (output BaseDataRow)) :
  Single.deliver_all self h (out1 ++ out2)
  = let d := Single.deliver_all self h out1 in
    let r := Single.deliver_all d.1.1 d.1.2 out2 in
    (r.1.1, r.1.2, d.2 ++ r.2).
Proof.
  revert self h. induction out1 as [|o out1 IH]; intros self h.
  - cbn. by destruct (Single.deliver_all self h out2) as [[? ?] ?].
  - rewrite <-app_comm_cons, !deliver_all_cons. cbn zeta. rewrite IH.
    cbn. by rewrite app_assoc.
Qed.

(** The callbacks do not look at the stream. *)
Lemma deliver_all_set_stream (self : Single.t) (s : IndexerStream.t)
    (h : heap) (out : list (output BaseDataRow)) :
  Single.deliver_all (Single.set_stream self s) h out
  = let d := Single.deliver_all self h out in
    (Single.set_stream d.1.1 s, d.1.2, d.2).
Proof.
  revert self h. induction out as [|o out IH]; intros self h; [done|].
  rewrite !deliver_all_cons. cbn zeta.
  assert (Single.deliver (Single.set_stream self s) h o
          = let d := Single.deliver self h o in
            (Single.set_stream d.1.1 s, d.1.2, d.2)) as ->.
  { destruct o; try done. cbn.
    unfold Single.on_update, Single.accumulateDataSet. cbn.
    by destruct (Single.accumulateUpdates self _ _ _ _). }
  cbn. by rewrite IH.
Qed.

Lemma single_run_cons (self : Single.t) (h : heap) (i : input BaseDataRow)
    (rest : list (input BaseDataRow)) :
  Single.run self h (i :: rest)
  = let a := Single.step self h i in
    let b := Single.run a.1.1.1 a.1.1.2 rest in
    (b.1.1.1, b.1.1.2, a.1.2 ++ b.1.2, a.2 ++ b.2).
Proof.
  cbn [Single.run].
  destruct (Single.step self h i) as [[[self1 h1] out1] c1]. cbn [fst snd].
  by destruct (Single.run self1 h1 rest) as [[[self2 h2] out2] c2].
Qed.

(** A run of the class is the run of its stream, whose outputs are handed to
    the callbacks in order. *)
Lemma single_run_deliver (self : Single.t) (h : heap)
    (inputs : list (input BaseDataRow)) :
  Single.run self h inputs
  = let sr := IndexerStream.run (Single.stream self) inputs in
    let d := Single.deliver_all self h sr.2 in
    (Single.set_stream d.1.1 sr.1, d.1.2, sr.2, d.2).
Proof.
  revert self h. induction inputs as [|i rest IH]; intros self h.
  - cbn. by destruct self.
  - rewrite single_run_cons, run_cons. cbn zeta. unfold Single.step.
    destruct (IndexerStream.step (Single.stream self) i) as [s1 out1] eqn:Hs.
    rewrite deliver_all_set_stream. cbn zeta.
    destruct (Single.deliver_all self h out1) as [[self1 h1] c1] eqn:Hd1.
    cbn [fst snd]. rewrite IH. cbn zeta. cbn [Single.set_stream Single.stream].
    rewrite deliver_all_set_stream, deliver_all_app, Hd1. cbn.
    by destruct (Single.deliver_all self1 h1 _) as [[? ?] ?].
Qed.

Lemma batches_app {DataRow} (out1 out2 : list (output DataRow)) :
  batches (out1 ++ out2) = batches out1 ++ batches out2.
Proof. apply omap_app. Qed.

Lemma accumulated_concat (opts : AccumulatorOptions)
    (b : list BaseDataRow) (bs : list (list BaseDataRow)) (m : DataSet) :
  accumulated opts (concat (b :: bs)) m
  = accumulated opts (concat bs) (accumulated opts b m).
Proof. unfold accumulated. cbn. apply foldl_app. Qed.

Lemma published_app {U D} (c1 c2 : list (callback U D)) :
  published (c1 ++ c2) = published c1 ++ published c2.
Proof. apply omap_app. Qed.

(** With the default function every batch adds one object to the heap. *)
Lemma deliver_all_copying (self : Single.t) (h : heap)
    (out : list (output BaseDataRow)) :
  Single.accumulateUpdates self = accumulateUpdates →
  let d := Single.deliver_all self h out in
  d.1.2 = h ++ snapshots (Single.opts self) (h !!! Single.dataSet self)
                 (batches out)
  ∧ published d.2 = seq (length h) (length (batches out))
  ∧ Single.dataSet d.1.1 = default (Single.dataSet self) (last (published d.2))
  ∧ Single.accumulateUpdates d.1.1 = accumulateUpdates
  ∧ Single.opts d.1.1 = Single.opts self.
Proof.
  revert self h. induction out as [|o out IH]; intros self h Hf.
  - cbn. by rewrite app_nil_r.
  - rewrite deliver_all_cons. cbn zeta.
    destruct o as [dataUpdates height| | | | | |];
      try (cbn [Single.deliver fst snd app batches omap];
           by apply IH).
    cbn [Single.deliver]. unfold Single.on_update, Single.accumulateDataSet.
    rewrite Hf, accumulateUpdates_heap, options_eta. cbn [fst snd].
    match goal with |- context [Single.deliver_all ?s ?h1 out] =>
      destruct (IH s h1 eq_refl) as (Hheap & Hpub & Hset & Hacc & Hopts)
    end.
    cbn [Single.dataSet Single.opts Single.accumulateUpdates] in *.
    rewrite lookup_total_snoc in Hheap.
    rewrite length_app in Hpub. cbn [length] in Hpub.
    split_and!.
    + rewrite Hheap. cbn. by rewrite <-app_assoc.
    + rewrite (published_app [_; _]), Hpub. cbn.
      f_equal. f_equal. lia.
    + rewrite Hset, (published_app [_; _]).
      destruct (published _) as [|d ds] eqn:Hd; [done|].
      cbn -[last]. rewrite last_cons_cons.
      by destruct (proj2 (last_is_Some (d :: ds)) ltac:(done)) as [x ->].
    + done.
    + done.
Qed.

(** With the mutating function the one object is updated in place. *)
Lemma deliver_all_mutating (self : Single.t) (h : heap)
    (out : list (output BaseDataRow)) :
  Single.accumulateUpdates self = accumulateUpdatesUsingMutation →
  let d := Single.deliver_all self h out in
  d.1.2 = <[Single.dataSet self :=
              accumulated (Single.opts self) (concat (batches out))
                (h !!! Single.dataSet self)]> h
  ∧ published d.2
    = replicate (length (batches out)) (Single.dataSet self)
  ∧ Single.dataSet d.1.1 = Single.dataSet self.
Proof.
  revert self h. induction out as [|o out IH]; intros self h Hf.
  - cbn. split; [|done]. symmetry.
    destruct (decide (Single.dataSet self < length h)).
    + apply list_insert_id. by apply list_lookup_lookup_total_lt.
    + apply list_insert_ge. lia.
  - rewrite deliver_all_cons. cbn zeta.
    destruct o as [dataUpdates height| | | | | |];
      try (cbn [Single.deliver fst snd app batches omap];
           by apply IH).
    cbn [Single.deliver]. unfold Single.on_update, Single.accumulateDataSet.
    rewrite Hf, accumulateUpdatesUsingMutation_heap, options_eta.
    cbn [fst snd].
    match goal with |- context [Single.deliver_all ?s ?h1 out] =>
      destruct (IH s h1 eq_refl) as (Hheap & Hpub & Hset)
    end.
    cbn [Single.dataSet Single.opts Single.accumulateUpdates] in *.
    split_and!.
    + rewrite Hheap.
      change (batches (OnUpdate dataUpdates height :: out))
        with (dataUpdates :: batches out).
      rewrite accumulated_concat.
      destruct (decide (Single.dataSet self < length h)).
      * rewrite list_lookup_total_insert_eq by done.
        by rewrite list_insert_insert_eq.
      * by rewrite !(list_insert_ge h) by lia.
    + rewrite (published_app [_; _]), Hpub. done.
    + done.
Qed.



Lemma run_app {DataRow} (s : IndexerStream.t)
    (l1 l2 : list (input DataRow)) :
  IndexerStream.run s (l1 ++ l2)
  = ((IndexerStream.run (IndexerStream.run s l1).1 l2).1,
     (IndexerStream.run s l1).2
     ++ (IndexerStream.run (IndexerStream.run s l1).1 l2).2).
Proof.
  revert s. induction l1 as [|i l1 IH]; intros s.
  - cbn. by destruct (IndexerStream.run s l2).
  - rewrite <-app_comm_cons, !run_cons, IH. cbn [fst snd].
    by rewrite app_assoc.
Qed.

Lemma snapshots_app (opts : AccumulatorOptions) (m : DataSet)
    (bs1 bs2 : list (list BaseDataRow)) :
  snapshots opts m (bs1 ++ bs2)
  = snapshots opts m bs1
    ++ snapshots opts (accumulated opts (concat bs1) m) bs2.
Proof.
  revert m. induction bs1 as [|b bs1 IH]; intros m; [done|].
  cbn [app snapshots]. by rewrite IH, accumulated_concat.
Qed.

Lemma snapshots_length (opts : AccumulatorOptions) (m : DataSet)
    (bs : list (list BaseDataRow)) :
  length (snapshots opts m bs) = length bs.
Proof.
  revert m. induction bs as [|b bs IH]; intros m; [done|].
  cbn. by rewrite IH.
Qed.

Lemma snapshots_lookup (opts : AccumulatorOptions) (m : DataSet)
    (bs : list (list BaseDataRow)) (i : nat) :
  i < length bs →
  snapshots opts m bs !! i
  = Some (accumulated opts (concat (take (S i) bs)) m).
Proof.
  revert m i. induction bs as [|b bs IH]; intros m i Hi; [cbn in Hi; lia|].
  destruct i as [|i].
  - cbn [snapshots take lookup list_lookup]. f_equal.
    unfold accumulated. cbn. by rewrite app_nil_r.
  - cbn [snapshots]. rewrite lookup_cons_ne_0 by done. cbn [pred].
    rewrite IH by (cbn in Hi; lia).
    change (take (S (S i)) (b :: bs)) with (b :: take (S i) bs).
    by rewrite accumulated_concat.
Qed.

(** With the default function the heap only grows, by one object for each
    batch; the object of the batch [i] holds the merge of the batches up to
    [i], whatever is handed over afterwards. *)
Lemma deliver_all_copies (self : Single.t) (h : heap)
    (out1 out2 : list (output BaseDataRow)) :
  Single.accumulateUpdates self = accumulateUpdates →
  let before := Single.deliver_all self h out1 in
  let after := Single.deliver_all self h (out1 ++ out2) in
  before.1.2
  = h ++ snapshots (Single.opts self) (h !!! Single.dataSet self)
           (batches out1)
  ∧ after.1.2
    = before.1.2
      ++ snapshots (Single.opts self)
           (accumulated (Single.opts self) (concat (batches out1))
              (h !!! Single.dataSet self))
           (batches out2)
  ∧ published before.2 = seq (length h) (length (batches out1))
  ∧ ∀ i d, published before.2 !! i = Some d →
           after.1.2 !! d
           = Some (accumulated (Single.opts self)
                     (concat (take (S i) (batches out1)))
                     (h !!! Single.dataSet self)).
Proof.
  intros Hf. cbn zeta.
  destruct (deliver_all_copying self h out1 Hf) as (-> & -> & _).
  destruct (deliver_all_copying self h (out1 ++ out2) Hf) as (-> & _).
  rewrite batches_app, snapshots_app.
  split_and!.
  - done.
  - by rewrite app_assoc.
  - done.
  - intros i d Hd. apply lookup_seq in Hd as [-> Hi].
    rewrite lookup_app_r by lia.
    replace (length h + i - length h) with i by lia.
    rewrite lookup_app_l by (by rewrite snapshots_length).
    by apply snapshots_lookup.
Qed.


(** X18.  With the mutating function the class hands the same object to
    [onAccumulated] every time, creates no object and changes no other
    one. *)
Theorem mutation_publishes_one_object (self : Single.t) (h : heap)
    (inputs : list (input BaseDataRow)) :
  Single.accumulateUpdates self = accumulateUpdatesUsingMutation →
  let result := Single.run self h inputs in
  published result.2
  = replicate (length (batches result.1.2)) (Single.dataSet self)
  ∧ Single.dataSet result.1.1.1 = Single.dataSet self
  ∧ length result.1.1.2 = length h
  ∧ ∀ r, r ≠ Single.dataSet self → result.1.1.2 !! r = h !! r.
Proof.
  intros Hf. rewrite single_run_deliver. cbn zeta. cbn [fst snd].
  set (out := (IndexerStream.run (Single.stream self) inputs).2).
  clearbody out. cbn [Single.set_stream Single.dataSet].
  destruct (deliver_all_mutating self h out Hf) as (-> & -> & ->).
  split_and!; [done..|by rewrite length_insert|].
  intros r Hr. by rewrite list_lookup_insert_ne.
Qed.

Lemma deliver_forwards (self : Single.t) (h : heap)
    (out : list (output BaseDataRow)) :
  let calls := (Single.deliver_all self h out).2 in
  forwarded_updates calls = stream_updates out
  ∧ forwarded_errors calls = stream_errors out
  ∧ accumulated_heights calls = update_heights out
  ∧ length (completions calls) = length (List.filter is_OnCompleted out).
Proof.
  revert self h. induction out as [|o out IH]; intros self h; [done|].
  rewrite deliver_all_cons. cbn zeta. cbn [snd].
  unfold forwarded_updates, forwarded_errors, accumulated_heights,
    completions in *.
  rewrite !omap_app, List.filter_app, length_app.
  match goal with |- context [Single.deliver_all ?s ?h1 out] =>
    destruct (IH s h1) as (-> & -> & -> & ->)
  end.
  destruct o as [dataUpdates height| | | | | |]; try done.
  cbn [Single.deliver]. unfold Single.on_update.
  by destruct (Single.accumulateDataSet _ _ _ _).
Qed.

(** X19.  The single class forwards the updates and the errors of its
    stream unchanged and in order, publishes one data set per update with
    the height of that update, and completes as often as its stream does;
    its stream runs as a stream alone would. *)
Theorem single_forwards (self : Single.t) (h : heap)
    (inputs : list (input BaseDataRow)) :
  let result := Single.run self h inputs in
  forwarded_updates result.2 = stream_updates result.1.2
  ∧ forwarded_errors result.2 = stream_errors result.1.2
  ∧ accumulated_heights result.2 = update_heights result.1.2
  ∧ length (completions result.2)
    = length (List.filter is_OnCompleted result.1.2)
  ∧ result.1.2 = (IndexerStream.run (Single.stream self) inputs).2.
Proof.
  rewrite single_run_deliver. cbn zeta. cbn [fst snd].
  destruct (deliver_forwards self h
              (IndexerStream.run (Single.stream self) inputs).2)
    as (? & ? & ? & ?).
  by split_and!.
Qed.

(** X20.  The [onUpdate] callback of the dual class throws exactly on a
    batch of fewer than two arrays, and ignores the arrays after the
    second. *)
Theorem dual_batch_shape (self : Dual.t) (h : heap)
    (dataUpdates : list (list BaseDataRow)) (height : number) :
  (Dual.on_update self dataUpdates height h = None
   ↔ length dataUpdates < 2)
  ∧ ∀ u0 u1 rest,
      dataUpdates = u0 :: u1 :: rest →
      ∃ self' h',
        Dual.on_update self dataUpdates height h
        = Some (self', h',
                [onUpdate dataUpdates height;
                 onAccumulated (Dual.dataSets self') height])
        ∧ Dual.on_update self [u0; u1] height h
          = Some (self', h',
                  [onUpdate [u0; u1] height;
                   onAccumulated (Dual.dataSets self') height]).
Proof.
  unfold Dual.on_update, Dual.accumulateDataSet.
  cbn [Dual.dataSets Dual.dataHeight Dual.accumulateUpdates Dual.opts
       Dual.stream].
  split.
  - destruct dataUpdates as [|u0 [|u1 rest]]; cbn; try (split; [lia|done]).
    destruct (Dual.accumulateUpdates self _ _ _ _) as [d0 h1].
    destruct (Dual.accumulateUpdates self _ _ _ _) as [d1 h2].
    cbn. split; [done|lia].
  - intros u0 u1 rest ->. cbn.
    destruct (Dual.accumulateUpdates self _ _ _ _) as [d0 h1].
    destruct (Dual.accumulateUpdates self _ _ _ _) as [d1 h2].
    cbn.
    by exists {| Dual.dataSets := (d0, d1); Dual.dataHeight := height;
                 Dual.stream := Dual.stream self;
                 Dual.accumulateUpdates := Dual.accumulateUpdates self;
                 Dual.opts := Dual.opts self |}, h2.
Qed.



Lemma mutation_publishes_one_object_witness :
  Single.dataSet
    (Single.run
       (Single.set_accumulateUpdates
          (Single.constructor plain_url {| mapEntryRemovalValue := None |}
             live_mode []).1 accumulateUpdatesUsingMutation)
       (Single.constructor plain_url {| mapEntryRemovalValue := None |}
          live_mode []).2
       [Start true; update_input ([(Str "a", One (Str "x"))], num 7)]).1.1.1
  = Single.dataSet
      (Single.set_accumulateUpdates
         (Single.constructor plain_url {| mapEntryRemovalValue := None |}
            live_mode []).1 accumulateUpdatesUsingMutation).
Proof.
  refine (proj1 (proj2 (mutation_publishes_one_object
    (Single.set_accumulateUpdates
       (Single.constructor plain_url {| mapEntryRemovalValue := None |}
          live_mode []).1 accumulateUpdatesUsingMutation)
    (Single.constructor plain_url {| mapEntryRemovalValue := None |}
       live_mode []).2
    [Start true; update_input ([(Str "a", One (Str "x"))], num 7)] _))).
  reflexivity.
Defined.

(** ** Properties of [fetchSingleDataSetFromIndexer] *)

Lemma fetch_run_cons (self : fetch.t) (h : heap) (i : input BaseDataRow)
    (rest : list (input BaseDataRow)) :
  fetch.run self h (i :: rest)
  = let a := fetch.step self h i in
    let b := fetch.run a.1.1 a.1.2 rest in
    (b.1.1, b.1.2, a.2 ++ b.2).
Proof.
  cbn [fetch.run].
  destruct (fetch.step self h i) as [[self1 h1] out1]. cbn [fst snd].
  by destruct (fetch.run self1 h1 rest) as [[self2 h2] out2].
Qed.

Lemma fetch_run_app (self : fetch.t) (h : heap)
    (l1 l2 : list (input BaseDataRow)) :
  fetch.run self h (l1 ++ l2)
  = let a := fetch.run self h l1 in
    let b := fetch.run a.1.1 a.1.2 l2 in
    (b.1.1, b.1.2, a.2 ++ b.2).
Proof.
  revert self h. induction l1 as [|i l1 IH]; intros self h.
  - cbn. by destruct (fetch.run self h l2) as [[? ?] ?].
  - rewrite <-app_comm_cons, !fetch_run_cons. cbn zeta. rewrite IH.
    cbn. by rewrite app_assoc.
Qed.

(** Calls that are neither errors nor completions leave the promise and the
    stream alone. *)
Lemma handle_all_quiet (self : fetch.t) (h : heap)
    (calls : list (callback (list BaseDataRow) ref)) :
  forwarded_errors calls = [] →
  completions calls = [] →
  fetch.handle_all self h calls = (self, h, []).
Proof.
  induction calls as [|c calls IH]; [done|].
  intros Herrors Hcompletions. destruct c; try done.
  - cbn. by rewrite IH.
  - cbn. by rewrite IH.
Qed.

Lemma fetch_set_stream_stream (self : fetch.t) :
  fetch.set_stream self (fetch.stream self) = self.
Proof. by destruct self. Qed.

Lemma fetch_run_quiet (self : fetch.t) (h : heap)
    (inputs : list (input BaseDataRow)) :
  let r := Single.run (fetch.stream self) h inputs in
  forwarded_errors r.2 = [] →
  completions r.2 = [] →
  fetch.run self h inputs = (fetch.set_stream self r.1.1.1, r.1.1.2, r.1.2).
Proof.
  revert self h. induction inputs as [|i rest IH]; intros self h.
  - cbn. intros _ _. by rewrite fetch_set_stream_stream.
  - rewrite single_run_cons, fetch_run_cons. cbn zeta. cbn [fst snd].
    unfold forwarded_errors, completions in *.
    rewrite omap_app, List.filter_app.
    intros [He1 He2]%app_eq_nil [Hc1 Hc2]%app_eq_nil.
    unfold fetch.step.
    destruct (Single.step (fetch.stream self) h i) as [[[s1 h1] out1] c1].
    cbn [fst snd] in *. rewrite handle_all_quiet by done.
    cbn [fst snd]. specialize (IH (fetch.set_stream self s1) h1).
    cbn [fetch.set_stream fetch.stream] in IH.
    rewrite IH by done. cbn. by rewrite app_nil_r.
Qed.

(** Pull mode up to the last page of a page sequence. *)
Lemma paged_run {DataRow} (endpoint : URL) (sopts : StreamOptions.t)
    (eventSource : bool) (answers : list (answer DataRow)) :
  StreamOptions.disableSSE sopts = true ∨ eventSource = false →
  default false (aborted <$> StreamOptions.abortController sopts) = false →
  Forall answer_ok answers →
  starts_with_page answers →
  (failures answers ≤ 5)%nat →
  let result :=
    IndexerStream.run (IndexerStream.constructor endpoint sopts)
      (Start eventSource :: (answer_input <$> answers)) in
  (∃ p, IndexerStream.polling result.1 = Some p
        ∧ IndexerStream.toHeight p = upper_height endpoint
        ∧ number_lt (IndexerStream.knownHeight p) (num 0) = false)
  ∧ aborted (IndexerStream.abortController result.1) = false
  ∧ batches result.2 = answer_rows answers
  ∧ length (requests result.2) = S (length answers)
  ∧ stream_errors result.2 = []
  ∧ List.filter is_OnCompleted result.2 = []
  ∧ delays result.2
    = default IndexerStream.default_backoffFunc
        (StreamOptions.backoffFunc sopts)
      <$> seq 0 (failures answers).
Proof.
  intros Hpull Hsignal Hall Hstart Hbudget.
  destruct (start_polling (DataRow:=DataRow) endpoint sopts eventSource
              Hpull Hsignal)
    as (s1 & p1 & u1 & Hstep1 & Hp1 & Hab1 & Hknown1 & Hto1 & Hkey1 & Hr1
        & Hmax1 & Hli1 & Hb1).
  cbn zeta. rewrite run_cons, Hstep1. cbn [fst snd].
  destruct (answers_run s1 p1 answers Hp1 Hab1 Hall) as
    (Hpaging & Hnil & Hknown & (Hmax & Hb & Hst & Hli & Hne) & Hd & Hbat
     & Hreq & He & Hc).
  { by left. }
  { lia. }
  cbn zeta in *.
  assert (known_height_not_negative s1) as Hknown1'.
  { intros q Hq. rewrite Hp1 in Hq. injection Hq as <-. by rewrite Hknown1. }
  specialize (Hknown Hknown1').
  split_and!.
  - destruct answers as [|a answers].
    + rewrite Hnil by done. exists p1. split_and!; [done..|].
      by rewrite Hknown1.
    + destruct (Hpaging ltac:(done)) as (_ & p & key & Hp & _ & _ & Hto).
      exists p. split_and!; [done|congruence|by apply Hknown].
  - destruct answers as [|a answers]; [by rewrite Hnil|].
    by destruct (Hpaging ltac:(done)) as (? & _).
  - done.
  - rewrite (requests_app [_; _]), length_app, Hreq. done.
  - unfold stream_errors. cbn. by apply stream_errors_nil.
  - cbn. by apply completed_nil.
  - change (delays ([OuterPass; Fetch u1] ++ ?l)) with (delays l).
    by rewrite Hd, Hb1, Hr1.
Qed.

Lemma single_step_deliver (self : Single.t) (h : heap)
    (i : input BaseDataRow) :
  Single.step self h i
  = let sr := IndexerStream.step (Single.stream self) i in
    let d := Single.deliver_all self h sr.2 in
    (Single.set_stream d.1.1 sr.1, d.1.2, sr.2, d.2).
Proof.
  unfold Single.step.
  destruct (IndexerStream.step (Single.stream self) i) as [s out].
  rewrite deliver_all_set_stream. cbn zeta. cbn [fst snd].
  by destruct (Single.deliver_all self h out) as [[? ?] ?].
Qed.

(** The callbacks keep the accumulation function and the options. *)
Lemma deliver_all_fields (self : Single.t) (h : heap)
    (out : list (output BaseDataRow)) :
  let d := Single.deliver_all self h out in
  Single.accumulateUpdates d.1.1 = Single.accumulateUpdates self
  ∧ Single.opts d.1.1 = Single.opts self
  ∧ Single.stream d.1.1 = Single.stream self.
Proof.
  revert self h. induction out as [|o out IH]; intros self h; [done|].
  rewrite deliver_all_cons. cbn zeta. cbn [fst snd].
  destruct o as [dataUpdates height| | | | | |];
    try (cbn [Single.deliver fst snd]; by apply IH).
  cbn [Single.deliver]. unfold Single.on_update.
  destruct (Single.accumulateDataSet _ _ _ _) as [d1 h1]. cbn [fst snd].
  match goal with |- context [Single.deliver_all ?s ?h1 out] =>
    destruct (IH s h1) as (-> & -> & ->)
  end.
  done.
Qed.

(** The last page under the mutating function: the promise is resolved with
    the data set of the class, and the stream is cancelled. *)
Lemma fetch_last_page (self : fetch.t) (h : heap) p
    (page : IndexerPage BaseDataRow) :
  fetch.promise self = Pending →
  Single.accumulateUpdates (fetch.stream self)
  = accumulateUpdatesUsingMutation →
  IndexerStream.polling (Single.stream (fetch.stream self)) = Some p →
  aborted (IndexerStream.abortController (Single.stream (fetch.stream self)))
  = false →
  cursor page = None →
  number_lt (advance (Response 200 (Some page)) (IndexerStream.knownHeight p))
    (IndexerStream.toHeight p) = false →
  let result := fetch.step self h (success page) in
  let d := Single.dataSet (fetch.stream self) in
  fetch.promise result.1.1 = Resolved d
  ∧ result.1.2
    = <[d := accumulated (Single.opts (fetch.stream self))
               (default [] (data page)) (h !!! d)]> h
  ∧ length (requests result.2) = 0
  ∧ aborted (IndexerStream.abortController
               (Single.stream (fetch.stream result.1.1))) = true
  ∧ IndexerStream.polling (Single.stream (fetch.stream result.1.1)) = None
  ∧ IndexerStream.listening (Single.stream (fetch.stream result.1.1))
    = false.
Proof.
  intros Hpending Hf Hp Hab Hcursor Hknown.
  pose proof (last_page_completes _ p page Hp Hcursor Hknown) as Hlast.
  unfold fetch.step, success. rewrite single_step_deliver. cbn zeta.
  rewrite Hlast. cbn [fst snd].
  cbn [Single.deliver_all Single.deliver]. unfold Single.on_update,
    Single.accumulateDataSet.
  rewrite Hf, accumulateUpdatesUsingMutation_heap, options_eta.
  cbn [fst snd app Single.set_stream Single.dataSet Single.dataHeight
       Single.stream Single.accumulateUpdates Single.opts
       fetch.handle_all fetch.handle fetch.set_stream].
  unfold fetch.on_completed, Single.unsubscribe.
  rewrite single_step_deliver. cbn zeta.
  cbn [IndexerStream.step]. unfold IndexerStream.unsubscribe.
  cbn [fetch.stream fetch.set_stream Single.set_stream Single.stream
       IndexerStream.set_polling IndexerStream.set_chain
       IndexerStream.abortController IndexerStream.abort
       IndexerStream.polling].
  rewrite Hab. cbn. by rewrite Hpending.
Qed.

(** X21.  [fetchSingleDataSetFromIndexer] in pull mode.  When the endpoint
    answers with pages that carry a cursor and with at most five failures,
    the first answer being a page, and then with a page without a cursor,
    the promise is resolved with a data set that holds the merge of the
    rows of all pages; one request is made per answer, and the stream is
    cancelled. *)
Theorem fetch_resolves_with_all_pages (baseURL : URL) (before : string)
    (aopts : AccumulatorOptions) (sopts : StreamOptions.t) (h0 : heap)
    (eventSource : bool) (answers : list (answer BaseDataRow))
    (page : IndexerPage BaseDataRow) :
  string_truthy (default before (pagination_before baseURL)) = true →
  StreamOptions.disableSSE sopts = true ∨ eventSource = false →
  default false (aborted <$> StreamOptions.abortController sopts) = false →
  Forall answer_ok answers →
  starts_with_page answers →
  (failures answers ≤ 5)%nat →
  cursor page = None →
  let created :=
    fetch.fetchSingleDataSetFromIndexer baseURL before aopts sopts h0 in
  let result :=
    fetch.run created.1 created.2
      (Start eventSource :: (answer_input <$> answers) ++ [success page]) in
  ∃ d, fetch.promise result.1.1 = Resolved d
       ∧ result.1.2 !!! d
         = accumulated aopts
             (concat (answer_rows answers ++ [default [] (data page)])) ∅
       ∧ length (requests result.2) = S (length answers)
       ∧ aborted (IndexerStream.abortController
                    (Single.stream (fetch.stream result.1.1))) = true.
Proof.
  intros Hcap Hpull Hsignal Hall Hstart Hbudget Hcursor created result.
  subst created result.
  unfold fetch.fetchSingleDataSetFromIndexer, Single.constructor, new_Map,
    Single.set_accumulateUpdates.
  cbn [fst snd Single.dataSet Single.dataHeight Single.stream Single.opts
       Single.accumulateUpdates].
  set (url := fetch.append_pagination_before baseURL before).
  set (self := {| fetch.stream := _; fetch.promise := Pending |}).
  set (h := h0 ++ [∅]).
  destruct (paged_run url (inner_options sopts) eventSource answers
              Hpull Hsignal Hall Hstart Hbudget)
    as ((p & Hp & Hto & Hknown) & Hab & Hbat & Hreq & Herr & Hcom & _).
  cbn zeta in *.
  assert (upper_height url = num 0) as Hupper.
  { unfold upper_height, url. cbn. by rewrite Hcap. }
  rewrite app_comm_cons, fetch_run_app. cbn zeta.
  pose proof (fetch_run_quiet self h
                (Start eventSource :: (answer_input <$> answers))) as Hquiet.
  cbn zeta in Hquiet. rewrite single_run_deliver in Hquiet.
  cbn zeta in Hquiet. cbn [fst snd] in Hquiet.
  change (Single.stream (fetch.stream self))
    with (IndexerStream.constructor url (inner_options sopts)) in Hquiet.
  set (sr := IndexerStream.run _ _) in *.
  destruct (deliver_forwards (fetch.stream self) h sr.2)
    as (_ & Hferr & _ & Hfcom).
  destruct (deliver_all_mutating (fetch.stream self) h sr.2 eq_refl)
    as (Hheap & _ & Hset).
  destruct (deliver_all_fields (fetch.stream self) h sr.2)
    as (Hacc & Hopts & _).
  cbn zeta in *.
  rewrite Hquiet; [|congruence|].
  2:{ apply nil_length_inv. by rewrite Hfcom, Hcom. }
  cbn [fst snd].
  match goal with |- context [fetch.run ?s ?h1 [?i]] =>
    assert (fetch.run s h1 [i]
            = ((fetch.step s h1 i).1.1, (fetch.step s h1 i).1.2,
               (fetch.step s h1 i).2)) as ->
      by (rewrite fetch_run_cons; cbn; by rewrite app_nil_r);
    destruct (fetch_last_page s h1 p page)
      as (Hpromise & Hheap' & Hreq' & Hab' & _)
  end; try done.
  { by rewrite Hto, Hupper, advance_not_negative. }
  cbn [fst snd]. eexists. split; [exact Hpromise|].
  split_and!.
  - rewrite Hheap'. cbn [fetch.set_stream fetch.stream Single.set_stream
                         Single.dataSet Single.opts].
    rewrite Hset, Hopts, Hheap. cbn [fetch.stream self Single.dataSet
                                     Single.opts].
    rewrite list_insert_insert_eq.
    rewrite list_lookup_total_insert_eq
      by (unfold h; rewrite length_app; cbn; lia).
    rewrite list_lookup_total_insert_eq
      by (unfold h; rewrite length_app; cbn; lia).
    unfold h. rewrite lookup_total_snoc, Hbat, concat_app, accumulated_app.
    cbn. by rewrite app_nil_r.
  - rewrite requests_app, length_app, Hreq, Hreq'. lia.
  - done.
Qed.
(** How [fetchSingleDataSetFromIndexer] starts in pull mode. *)
Lemma fetch_start (baseURL : URL) (before : string)
    (aopts : AccumulatorOptions) (sopts : StreamOptions.t) (h0 : heap)
    (eventSource : bool) :
  StreamOptions.disableSSE sopts = true ∨ eventSource = false →
  default false (aborted <$> StreamOptions.abortController sopts) = false →
  let created :=
    fetch.fetchSingleDataSetFromIndexer baseURL before aopts sopts h0 in
  ∃ s p u,
    fetch.step created.1 created.2 (Start eventSource)
    = (fetch.set_stream created.1
         (Single.set_stream (fetch.stream created.1) s),
       created.2, [OuterPass; Fetch u])
    ∧ IndexerStream.polling s = Some p
    ∧ aborted (IndexerStream.abortController s) = false
    ∧ IndexerStream.knownHeight p = num 0
    ∧ IndexerStream.toHeight p
      = upper_height (fetch.append_pagination_before baseURL before)
    ∧ IndexerStream.nextKey p = None
    ∧ IndexerStream.retries p = 0
    ∧ IndexerStream.maxRetries s = 5
    ∧ IndexerStream.backoffFunc s = IndexerStream.default_backoffFunc.
Proof.
  intros Hpull Hsignal created.
  destruct (start_polling (DataRow:=BaseDataRow)
              (fetch.append_pagination_before baseURL before)
              (inner_options sopts) eventSource Hpull Hsignal)
    as (s & p & u & Hstep & Hp & Hab & Hknown & Hto & Hkey & Hr & Hmax & _
        & Hb).
  exists s, p, u. split; [|by split_and!].
  unfold fetch.step. rewrite single_step_deliver. cbn zeta.
  change (Single.stream (fetch.stream created.1))
    with (IndexerStream.constructor
            (fetch.append_pagination_before baseURL before)
            (inner_options sopts)).
  by rewrite Hstep.
Qed.

(** A failure of the first request of a pass whose known height has reached
    the upper height: the stream completes, and the promise is resolved. *)
Lemma fetch_failure_completes (self : fetch.t) (h : heap) p (status : Z) :
  fetch.promise self = Pending →
  IndexerStream.polling (Single.stream (fetch.stream self)) = Some p →
  aborted (IndexerStream.abortController (Single.stream (fetch.stream self)))
  = false →
  IndexerStream.nextKey p = None →
  (IndexerStream.retries p
   < IndexerStream.maxRetries (Single.stream (fetch.stream self)))%nat →
  number_lt (IndexerStream.knownHeight p) (IndexerStream.toHeight p)
  = false →
  status ≠ 200%Z →
  let result := fetch.step self h (failure status) in
  fetch.promise result.1.1 = Resolved (Single.dataSet (fetch.stream self))
  ∧ result.1.2 = h
  ∧ result.2
    = [ConsoleError "Could not fetch long-polling data";
       SetTimeout
         (IndexerStream.backoffFunc (Single.stream (fetch.stream self))
            (IndexerStream.retries p));
       OnCompleted].
Proof.
  intros Hpending Hp Hab Hkey Hretries Hknown Hstatus.
  unfold fetch.step, failure. rewrite single_step_deliver. cbn zeta.
  cbn [IndexerStream.step]. rewrite Hp. unfold IndexerStream.fetched.
  rewrite bool_decide_eq_false_2 by done.
  rewrite bool_decide_eq_true_2 by done.
  unfold IndexerStream.loop_conditions.
  cbn [IndexerStream.nextKey IndexerStream.knownHeight IndexerStream.url
       IndexerStream.toHeight IndexerStream.retries].
  rewrite Hkey, Hknown. cbn [fst snd].
  cbn [fst snd Single.deliver_all Single.deliver app fetch.handle_all
       fetch.handle fetch.set_stream Single.set_stream Single.dataSet].
  unfold fetch.on_completed, Single.unsubscribe.
  rewrite single_step_deliver. cbn zeta.
  cbn [IndexerStream.step]. unfold IndexerStream.unsubscribe.
  cbn [fetch.stream fetch.set_stream Single.set_stream Single.stream
       IndexerStream.set_polling IndexerStream.set_chain
       IndexerStream.abortController IndexerStream.abort
       IndexerStream.polling].
  rewrite Hab. cbn. by rewrite Hpending.
Qed.

(** A request that fails for good rejects the promise. *)
Lemma fetch_rejected (self : fetch.t) (h : heap) p
    (r : FetchResult BaseDataRow) (e : Error) :
  fetch.promise self = Pending →
  IndexerStream.polling (Single.stream (fetch.stream self)) = Some p →
  IndexerStream.fetched (Single.stream (fetch.stream self)) p r
  = IndexerStream.reject_polling (Single.stream (fetch.stream self)) e →
  fetch.promise (fetch.step self h (Fetched r)).1.1
  = Rejected (ErrCause "Long-Polling Error" e).
Proof.
  intros Hpending Hp Hr.
  unfold fetch.step. rewrite single_step_deliver. cbn zeta.
  cbn [IndexerStream.step]. rewrite Hp, Hr. cbn. by rewrite Hpending.
Qed.

Lemma fetch_run_two (self : fetch.t) (h : heap) (i j : input BaseDataRow) :
  fetch.run self h [i; j]
  = ((fetch.step (fetch.step self h i).1.1 (fetch.step self h i).1.2 j).1.1,
     (fetch.step (fetch.step self h i).1.1 (fetch.step self h i).1.2 j).1.2,
     (fetch.step self h i).2
     ++ (fetch.step (fetch.step self h i).1.1 (fetch.step self h i).1.2 j).2).
Proof.
  cbn [fetch.run]. destruct (fetch.step self h i) as [[self1 h1] out1].
  cbn [fst snd]. destruct (fetch.step self1 h1 j) as [[self2 h2] out2].
  cbn. by rewrite app_nil_r.
Qed.

(** X22.  How the first response settles the promise in pull mode: a
    status other than 200 resolves it with an empty data set, after one
    delay of 0 ms and without a second request; a network error and a body
    that is not JSON reject it. *)
Theorem fetch_first_response (baseURL : URL) (before : string)
    (aopts : AccumulatorOptions) (sopts : StreamOptions.t) (h0 : heap)
    (eventSource : bool) (status : Z) (e : Error) :
  string_truthy (default before (pagination_before baseURL)) = true →
  StreamOptions.disableSSE sopts = true ∨ eventSource = false →
  default false (aborted <$> StreamOptions.abortController sopts) = false →
  status ≠ 200%Z →
  let created :=
    fetch.fetchSingleDataSetFromIndexer baseURL before aopts sopts h0 in
  let failed :=
    fetch.run created.1 created.2 [Start eventSource; failure status] in
  let broken :=
    fetch.run created.1 created.2
      [Start eventSource; Fetched (NetworkError e)] in
  let unreadable :=
    fetch.run created.1 created.2
      [Start eventSource; Fetched (Response 200 None)] in
  (∃ d, fetch.promise failed.1.1 = Resolved d
        ∧ failed.1.2 !!! d = ∅
        ∧ delays failed.2 = [num 0]
        ∧ length (requests failed.2) = 1)
  ∧ fetch.promise broken.1.1 = Rejected (ErrCause "Long-Polling Error" e)
  ∧ fetch.promise unreadable.1.1
    = Rejected (ErrCause "Long-Polling Error" (Err "SyntaxError")).
Proof.
  intros Hcap Hpull Hsignal Hstatus created failed broken unreadable.
  destruct (fetch_start baseURL before aopts sopts h0 eventSource
              Hpull Hsignal)
    as (s & p & u & Hstart & Hp & Hab & Hknown & Hto & Hkey & Hr & Hmax
        & Hb).
  fold created in Hstart.
  assert (upper_height (fetch.append_pagination_before baseURL before)
          = num 0) as Hupper.
  { unfold upper_height. cbn. by rewrite Hcap. }
  subst failed broken unreadable.
  rewrite !fetch_run_two, Hstart. cbn [fst snd].
  split_and!.
  - destruct (fetch_failure_completes
                (fetch.set_stream created.1
                   (Single.set_stream (fetch.stream created.1) s))
                created.2 p status) as (Hpromise & Hheap & Hout);
      try done.
    { cbn. rewrite Hr, Hmax. lia. }
    { by rewrite Hknown, Hto, Hupper. }
    cbn zeta in *. eexists. split; [exact Hpromise|].
    rewrite Hheap, Hout. cbn [fetch.set_stream
      fetch.stream Single.set_stream Single.stream]. rewrite Hb, Hr.
    split_and!; [|done..]. cbn. apply lookup_total_snoc.
  - by eapply fetch_rejected.
  - by eapply fetch_rejected.
Qed.

(** A settled promise is not settled again. *)
Lemma handle_all_settled (self : fetch.t) (h : heap)
    (calls : list (callback (list BaseDataRow) ref)) :
  fetch.promise self ≠ Pending →
  fetch.promise (fetch.handle_all self h calls).1.1 = fetch.promise self.
Proof.
  assert (∀ (l : list (callback (list BaseDataRow) ref)) (x : fetch.t),
    fetch.promise x ≠ Pending →
    fetch.promise
      (foldl (λ self c, if c is onError e then fetch.reject self e else self)
         x l) = fetch.promise x) as Hfold.
  { induction l as [|c l IH]; intros x Hx; [done|].
    cbn [foldl]. destruct c; try by apply IH.
    rewrite IH; cbn; by destruct (fetch.promise x). }
  revert self h. induction calls as [|c calls IH]; intros self h Hp; [done|].
  cbn [fetch.handle_all].
  destruct (fetch.handle self h c) as [[self1 h1] out1] eqn:Hc.
  assert (fetch.promise self1 = fetch.promise self) as Hsame.
  { destruct c; cbn in Hc; simplify_eq; try done.
    - unfold fetch.on_completed in Hc.
      destruct (Single.unsubscribe _ _) as [[[? ?] ?] ?].
      simplify_eq. rewrite Hfold; cbn; by destruct (fetch.promise self).
    - cbn. by destruct (fetch.promise self). }
  specialize (IH self1 h1). rewrite Hsame in IH.
  destruct (fetch.handle_all self1 h1 calls) as [[self2 h2] out2].
  cbn in *. by apply IH.
Qed.

Lemma fetch_run_settled (self : fetch.t) (h : heap)
    (inputs : list (input BaseDataRow)) :
  fetch.promise self ≠ Pending →
  fetch.promise (fetch.run self h inputs).1.1 = fetch.promise self.
Proof.
  revert self h. induction inputs as [|i rest IH]; intros self h Hp; [done|].
  rewrite fetch_run_cons. cbn zeta. cbn [fst snd].
  assert (fetch.promise (fetch.step self h i).1.1 = fetch.promise self)
    as Hstep.
  { unfold fetch.step.
    destruct (Single.step _ _ _) as [[[s1 h1] out1] c1].
    pose proof (handle_all_settled (fetch.set_stream self s1) h1 c1 Hp) as H.
    by destruct (fetch.handle_all _ _ _) as [[? ?] ?]. }
  rewrite IH; [done|]. by rewrite Hstep.
Qed.

(** How [fetchSingleDataSetFromIndexer] starts in live mode. *)
Lemma fetch_start_live (baseURL : URL) (before : string)
    (aopts : AccumulatorOptions) (sopts : StreamOptions.t) (h0 : heap) :
  StreamOptions.disableSSE sopts = false →
  default false (aborted <$> StreamOptions.abortController sopts) = false →
  let created :=
    fetch.fetchSingleDataSetFromIndexer baseURL before aopts sopts h0 in
  ∃ s,
    fetch.step created.1 created.2 (Start true)
    = (fetch.set_stream created.1
         (Single.set_stream (fetch.stream created.1) s),
       created.2, [])
    ∧ live_state s.
Proof.
  intros Hsse Hsignal created.
  destruct (start_live (DataRow:=BaseDataRow)
              (fetch.append_pagination_before baseURL before)
              (inner_options sopts) Hsse Hsignal)
    as (s & Hstep & Hlive & _).
  exists s. split; [|done].
  unfold fetch.step. rewrite single_step_deliver. cbn zeta.
  change (Single.stream (fetch.stream created.1))
    with (IndexerStream.constructor
            (fetch.append_pagination_before baseURL before)
            (inner_options sopts)).
  by rewrite Hstep.
Qed.

(** X23.  In live mode the first ['error'] event rejects the promise,
    although the stream falls back to long polling and issues a request;
    nothing that comes later changes the promise. *)
Theorem fetch_rejects_on_sse_error (baseURL : URL) (before : string)
    (aopts : AccumulatorOptions) (sopts : StreamOptions.t) (h0 : heap)
    (rest : list (input BaseDataRow)) :
  StreamOptions.disableSSE sopts = false →
  default false (aborted <$> StreamOptions.abortController sopts) = false →
  let created :=
    fetch.fetchSingleDataSetFromIndexer baseURL before aopts sopts h0 in
  let first := fetch.run created.1 created.2 [Start true; SseError] in
  let result :=
    fetch.run created.1 created.2 (Start true :: SseError :: rest) in
  length (requests first.2) = 1
  ∧ fetch.promise first.1.1 = Rejected sse_error
  ∧ fetch.promise result.1.1 = Rejected sse_error.
Proof.
  intros Hsse Hsignal created first result.
  destruct (fetch_start_live baseURL before aopts sopts h0 Hsse Hsignal)
    as (s & Hstart & Hlive).
  fold created in Hstart.
  destruct (first_sse_error (DataRow:=BaseDataRow) s Hlive)
    as (s' & u & Herror & _).
  assert (first
          = (fetch.reject
               (fetch.set_stream created.1
                  (Single.set_stream (fetch.stream created.1) s'))
               sse_error,
             created.2, [OnError sse_error; OuterPass; Fetch u])) as Hfirst.
  { subst first. rewrite fetch_run_two, Hstart. cbn [fst snd].
    unfold fetch.step. rewrite single_step_deliver. cbn zeta.
    cbn [fetch.set_stream fetch.stream Single.set_stream Single.stream].
    by rewrite Herror. }
  split_and!.
  - by rewrite Hfirst.
  - by rewrite Hfirst.
  - subst result.
    change (Start true :: SseError :: rest)
      with ([Start true; SseError] ++ rest).
    rewrite fetch_run_app. cbn zeta. cbn [fst snd]. fold first.
    rewrite fetch_run_settled; by rewrite Hfirst.
Qed.

(** X24.  In live mode the ['end'] event resolves the promise with the
    merge of the batches received; no request is made, and the cancellation
    removes the listeners. *)
Theorem fetch_resolves_on_end (baseURL : URL) (before : string)
    (aopts : AccumulatorOptions) (sopts : StreamOptions.t) (h0 : heap)
    (updates : list (list BaseDataRow * number)) :
  StreamOptions.disableSSE sopts = false →
  default false (aborted <$> StreamOptions.abortController sopts) = false →
  let created :=
    fetch.fetchSingleDataSetFromIndexer baseURL before aopts sopts h0 in
  let result :=
    fetch.run created.1 created.2
      (Start true :: (update_input <$> updates) ++ [SseEnd]) in
  ∃ d, fetch.promise result.1.1 = Resolved d
       ∧ result.1.2 !!! d = accumulated aopts (concat updates.*1) ∅
       ∧ requests result.2 = []
       ∧ aborted (IndexerStream.abortController
                    (Single.stream (fetch.stream result.1.1))) = true
       ∧ IndexerStream.listening (Single.stream (fetch.stream result.1.1))
         = false.
Proof.
  intros Hsse Hsignal created result.
  destruct (fetch_start_live baseURL before aopts sopts h0 Hsse Hsignal)
    as (s & Hstart & Hlive).
  fold created in Hstart.
  pose proof Hlive as (Hst & Hli & Hne & Hpo & Hab).
  subst result. rewrite fetch_run_cons. cbn zeta. rewrite Hstart.
  cbn [fst snd app]. rewrite fetch_run_app. cbn zeta.
  set (self1 := fetch.set_stream created.1
                  (Single.set_stream (fetch.stream created.1) s)).
  pose proof (fetch_run_quiet self1 created.2 (update_input <$> updates))
    as Hquiet.
  cbn zeta in Hquiet. rewrite single_run_deliver in Hquiet.
  cbn zeta in Hquiet. cbn [fst snd] in Hquiet.
  change (Single.stream (fetch.stream self1)) with s in Hquiet.
  rewrite live_updates in Hquiet by done. cbn [fst snd] in Hquiet.
  set (out := (λ u : list BaseDataRow * number, OnUpdate u.1 u.2)
              <$> updates) in *.
  assert (batches out = updates.*1) as Hbatches.
  { unfold out. clear. induction updates as [|u updates IH]; [done|].
    cbn. by rewrite <-IH. }
  assert (stream_errors out = [] ∧ List.filter is_OnCompleted out = []
          ∧ requests out = [])
    as (Herr & Hcom & Hreq).
  { unfold out. clear. by induction updates as [|u updates IH]. }
  destruct (deliver_forwards (fetch.stream self1) created.2 out)
    as (_ & Hferr & _ & Hfcom).
  destruct (deliver_all_mutating (fetch.stream self1) created.2 out eq_refl)
    as (Hheap & _ & Hset).
  destruct (deliver_all_fields (fetch.stream self1) created.2 out)
    as (Hacc & Hopts & _).
  cbn zeta in *.
  rewrite Hquiet; [|congruence|].
  2:{ apply nil_length_inv. by rewrite Hfcom, Hcom. }
  cbn [fst snd].
  set (d1 := Single.deliver_all (fetch.stream self1) created.2 out) in *.
  assert (fetch.run
            (fetch.set_stream self1 (Single.set_stream d1.1.1 s)) d1.1.2
            [SseEnd]
          = ({| fetch.stream :=
                  Single.set_stream d1.1.1
                    (IndexerStream.abort
                       (IndexerStream.set_chain s true true false None));
                fetch.promise := Resolved (Single.dataSet d1.1.1) |},
             d1.1.2, [OnCompleted])) as ->.
  { rewrite fetch_run_cons. cbn zeta. cbn [fetch.run fst snd].
    unfold fetch.step. rewrite single_step_deliver. cbn zeta.
    cbn [fetch.set_stream fetch.stream Single.set_stream Single.stream
         IndexerStream.step].
    rewrite Hli. cbn [IndexerStream.on_end fst snd].
    cbn [Single.deliver_all Single.deliver app fetch.handle_all
         fetch.handle fetch.set_stream Single.set_stream Single.dataSet
         fst snd].
    unfold fetch.on_completed, Single.unsubscribe.
    rewrite single_step_deliver. cbn zeta.
    cbn [IndexerStream.step]. unfold IndexerStream.unsubscribe.
    cbn [fetch.stream fetch.set_stream Single.set_stream Single.stream
         IndexerStream.set_polling IndexerStream.set_chain
         IndexerStream.abortController IndexerStream.abort
         IndexerStream.polling].
    rewrite Hab, Hst, Hli, Hpo. cbn. done. }
  cbn [fst snd fetch.promise fetch.stream Single.set_stream Single.stream].
  eexists. split; [done|]. split_and!; [|by rewrite requests_app, Hreq|done..].
  rewrite Hset, Hheap.
  rewrite list_lookup_total_insert_eq
    by (cbn; rewrite length_app; cbn; lia).
  cbn. by rewrite lookup_total_snoc, Hbatches.
Qed.

(** X25.  A cancellation through the controller leaves the promise pending
    for ever in live mode, and rejects it with the abort error in pull
    mode. *)
Theorem fetch_cancelled (baseURL : URL) (before : string)
    (aopts : AccumulatorOptions) (sopts : StreamOptions.t) (h0 : heap)
    (eventSource : bool) (rest : list (input BaseDataRow)) :
  default false (aborted <$> StreamOptions.abortController sopts) = false →
  let created :=
    fetch.fetchSingleDataSetFromIndexer baseURL before aopts sopts h0 in
  let result :=
    fetch.run created.1 created.2
      (Start eventSource :: Unsubscribe :: rest) in
  (StreamOptions.disableSSE sopts = false → eventSource = true →
   fetch.promise result.1.1 = Pending ∧ result.2 = [])
  ∧ (StreamOptions.disableSSE sopts = true ∨ eventSource = false →
     fetch.promise result.1.1
     = Rejected (ErrCause "Long-Polling Error" AbortError)).
Proof.
  intros Hsignal created result. split.
  - intros Hsse ->.
    pose proof (fetch_run_quiet created.1 created.2
                  (Start true :: Unsubscribe :: rest)) as Hquiet.
    cbn zeta in Hquiet. rewrite single_run_deliver in Hquiet.
    cbn zeta in Hquiet. cbn [fst snd] in Hquiet.
    change (Single.stream (fetch.stream created.1))
      with (IndexerStream.constructor
              (fetch.append_pagination_before baseURL before)
              (inner_options sopts)) in Hquiet.
    destruct (start_live (DataRow:=BaseDataRow)
                (fetch.append_pagination_before baseURL before)
                (inner_options sopts) Hsse Hsignal)
      as (s & Hstep & (Hst & Hli & Hne & Hpo & Hab) & _).
    assert (IndexerStream.run
              (IndexerStream.constructor
                 (fetch.append_pagination_before baseURL before)
                 (inner_options sopts))
              (Start (DataRow:=BaseDataRow) true :: Unsubscribe :: rest)
            = (IndexerStream.abort s, [])) as Hrun.
    { rewrite run_cons, Hstep. cbn [fst snd]. rewrite run_cons.
      cbn [IndexerStream.step]. unfold IndexerStream.unsubscribe.
      rewrite Hab. cbn [IndexerStream.abort IndexerStream.polling].
      rewrite Hpo. cbn [fst snd]. by rewrite run_inert. }
    rewrite Hrun in Hquiet. cbn [fst snd Single.deliver_all] in Hquiet.
    subst result. by rewrite Hquiet.
  - intros Hpull.
    destruct (fetch_start baseURL before aopts sopts h0 eventSource
                Hpull Hsignal)
      as (s & p & u & Hstart & Hp & Hab & _).
    fold created in Hstart. subst result.
    change (Start eventSource :: Unsubscribe :: rest)
      with ([Start eventSource; Unsubscribe] ++ rest).
    rewrite fetch_run_app. cbn zeta. cbn [fst snd].
    assert (fetch.promise
              (fetch.run created.1 created.2
                 [Start eventSource; Unsubscribe]).1.1
            = Rejected (ErrCause "Long-Polling Error" AbortError)) as Hfirst.
    { rewrite fetch_run_two, Hstart. cbn [fst snd].
      unfold fetch.step. rewrite single_step_deliver. cbn zeta.
      cbn [fetch.set_stream fetch.stream Single.set_stream Single.stream
           IndexerStream.step].
      unfold IndexerStream.unsubscribe. rewrite Hab.
      cbn [IndexerStream.abort IndexerStream.polling]. by rewrite Hp. }
    rewrite fetch_run_settled; by rewrite Hfirst.
Qed.

Lemma fetch_resolves_with_all_pages_witness :
  ∃ d,
    fetch.promise
      (fetch.run
         (fetch.fetchSingleDataSetFromIndexer plain_url
            "1700000000" {| mapEntryRemovalValue := None |} (pull_mode None)
            []).1
         (fetch.fetchSingleDataSetFromIndexer plain_url
            "1700000000" {| mapEntryRemovalValue := None |} (pull_mode None)
            []).2
         (Start true
          :: (answer_input
              <$> [Paged [(Str "a", One (Str "x"))] "k" None; Failed 500])
             ++ [success (page_of [(Str "b", One (Str "y"))] None None)])
      ).1.1
    = Resolved d
    ∧ (fetch.run
         (fetch.fetchSingleDataSetFromIndexer plain_url
            "1700000000" {| mapEntryRemovalValue := None |} (pull_mode None)
            []).1
         (fetch.fetchSingleDataSetFromIndexer plain_url
            "1700000000" {| mapEntryRemovalValue := None |} (pull_mode None)
            []).2
         (Start true
          :: (answer_input
              <$> [Paged [(Str "a", One (Str "x"))] "k" None; Failed 500])
             ++ [success (page_of [(Str "b", One (Str "y"))] None None)])
      ).1.2 !!! d
      = accumulated {| mapEntryRemovalValue := None |}
          (concat
             (answer_rows
                [Paged [(Str "a", One (Str "x"))] "k" None; Failed 500]
              ++ [default []
                    (data (page_of [(Str "b", One (Str "y"))] None None))]))
          ∅
    ∧ length
        (requests
           (fetch.run
              (fetch.fetchSingleDataSetFromIndexer plain_url
                 "1700000000" {| mapEntryRemovalValue := None |}
                 (pull_mode None) []).1
              (fetch.fetchSingleDataSetFromIndexer plain_url
                 "1700000000" {| mapEntryRemovalValue := None |}
                 (pull_mode None) []).2
              (Start true
               :: (answer_input
                   <$> [Paged [(Str "a", One (Str "x"))] "k" None;
                        Failed 500])
                  ++ [success
                        (page_of [(Str "b", One (Str "y"))] None None)])).2)
      = S (length [Paged [(Str "a", One (Str "x"))] "k" None; Failed 500])
    ∧ aborted
        (IndexerStream.abortController
           (Single.stream
              (fetch.stream
                 (fetch.run
                    (fetch.fetchSingleDataSetFromIndexer
                       plain_url "1700000000"
                       {| mapEntryRemovalValue := None |} (pull_mode None)
                       []).1
                    (fetch.fetchSingleDataSetFromIndexer
                       plain_url "1700000000"
                       {| mapEntryRemovalValue := None |} (pull_mode None)
                       []).2
                    (Start true
                     :: (answer_input
                         <$> [Paged [(Str "a", One (Str "x"))] "k" None;
                              Failed 500])
                        ++ [success
                              (page_of [(Str "b", One (Str "y"))] None
                                 None)])).1.1)))
      = true.
Proof.
  refine (fetch_resolves_with_all_pages plain_url "1700000000"
    {| mapEntryRemovalValue := None |} (pull_mode None) [] true
    [Paged [(Str "a", One (Str "x"))] "k" None; Failed 500]
    (page_of [(Str "b", One (Str "y"))] None None) _ _ _ _ _ _ _).
  - reflexivity.
  - left. reflexivity.
  - reflexivity.
  - repeat constructor; simpl; lia.
  - simpl. exact I.
  - unfold failures. simpl. lia.
  - reflexivity.
Defined.

Lemma fetch_first_response_witness :
  fetch.promise
    (fetch.run
       (fetch.fetchSingleDataSetFromIndexer plain_url
          "1700000000" {| mapEntryRemovalValue := None |} (pull_mode None)
          []).1
       (fetch.fetchSingleDataSetFromIndexer plain_url
          "1700000000" {| mapEntryRemovalValue := None |} (pull_mode None)
          []).2
       [Start true; Fetched (Response 200 None)]).1.1
  = Rejected (ErrCause "Long-Polling Error" (Err "SyntaxError")).
Proof.
  refine (proj2 (proj2 (fetch_first_response plain_url "1700000000"
    {| mapEntryRemovalValue := None |} (pull_mode None) [] true 500
    (Err "offline") _ _ _ _))).
  - reflexivity.
  - left. reflexivity.
  - reflexivity.
  - lia.
Defined.

Lemma fetch_rejects_on_sse_error_witness :
  fetch.promise
    (fetch.run
       (fetch.fetchSingleDataSetFromIndexer plain_url
          "1700000000" {| mapEntryRemovalValue := None |} live_mode []).1
       (fetch.fetchSingleDataSetFromIndexer plain_url
          "1700000000" {| mapEntryRemovalValue := None |} live_mode []).2
       (Start true :: SseError :: [success (page_of [] None None)])).1.1
  = Rejected sse_error.
Proof.
  refine (proj2 (proj2 (fetch_rejects_on_sse_error plain_url "1700000000"
    {| mapEntryRemovalValue := None |} live_mode []
    [success (page_of [] None None)] _ _))).
  - reflexivity.
  - reflexivity.
Defined.

Lemma fetch_resolves_on_end_witness :
  ∃ d,
    fetch.promise
      (fetch.run
         (fetch.fetchSingleDataSetFromIndexer plain_url
            "1700000000" {| mapEntryRemovalValue := None |} live_mode []).1
         (fetch.fetchSingleDataSetFromIndexer plain_url
            "1700000000" {| mapEntryRemovalValue := None |} live_mode []).2
         (Start true
          :: (update_input <$> [([(Str "a", One (Str "x"))], num 7)])
             ++ [SseEnd])).1.1
    = Resolved d
    ∧ (fetch.run
         (fetch.fetchSingleDataSetFromIndexer plain_url
            "1700000000" {| mapEntryRemovalValue := None |} live_mode []).1
         (fetch.fetchSingleDataSetFromIndexer plain_url
            "1700000000" {| mapEntryRemovalValue := None |} live_mode []).2
         (Start true
          :: (update_input <$> [([(Str "a", One (Str "x"))], num 7)])
             ++ [SseEnd])).1.2 !!! d
      = accumulated {| mapEntryRemovalValue := None |}
          (concat [([(Str "a", One (Str "x"))], num 7)].*1) ∅
    ∧ requests
        (fetch.run
           (fetch.fetchSingleDataSetFromIndexer plain_url
              "1700000000" {| mapEntryRemovalValue := None |} live_mode
              []).1
           (fetch.fetchSingleDataSetFromIndexer plain_url
              "1700000000" {| mapEntryRemovalValue := None |} live_mode
              []).2
           (Start true
            :: (update_input <$> [([(Str "a", One (Str "x"))], num 7)])
               ++ [SseEnd])).2
      = []
    ∧ aborted
        (IndexerStream.abortController
           (Single.stream
              (fetch.stream
                 (fetch.run
                    (fetch.fetchSingleDataSetFromIndexer
                       plain_url "1700000000"
                       {| mapEntryRemovalValue := None |} live_mode []).1
                    (fetch.fetchSingleDataSetFromIndexer
                       plain_url "1700000000"
                       {| mapEntryRemovalValue := None |} live_mode []).2
                    (Start true
                     :: (update_input
                         <$> [([(Str "a", One (Str "x"))], num 7)])
                        ++ [SseEnd])).1.1)))
      = true
    ∧ IndexerStream.listening
        (Single.stream
           (fetch.stream
              (fetch.run
                 (fetch.fetchSingleDataSetFromIndexer plain_url
                    "1700000000" {| mapEntryRemovalValue := None |}
                    live_mode []).1
                 (fetch.fetchSingleDataSetFromIndexer plain_url
                    "1700000000" {| mapEntryRemovalValue := None |}
                    live_mode []).2
                 (Start true
                  :: (update_input
                      <$> [([(Str "a", One (Str "x"))], num 7)])
                     ++ [SseEnd])).1.1))
      = false.
Proof.
  refine (fetch_resolves_on_end plain_url "1700000000"
    {| mapEntryRemovalValue := None |} live_mode []
    [([(Str "a", One (Str "x"))], num 7)] _ _).
  - reflexivity.
  - reflexivity.
Defined.

Lemma fetch_cancelled_witness :
  fetch.promise
    (fetch.run
       (fetch.fetchSingleDataSetFromIndexer plain_url
          "1700000000" {| mapEntryRemovalValue := None |} live_mode []).1
       (fetch.fetchSingleDataSetFromIndexer plain_url
          "1700000000" {| mapEntryRemovalValue := None |} live_mode []).2
       (Start true :: Unsubscribe :: [SseEnd])).1.1
  = Pending
  ∧ (fetch.run
       (fetch.fetchSingleDataSetFromIndexer plain_url
          "1700000000" {| mapEntryRemovalValue := None |} live_mode []).1
       (fetch.fetchSingleDataSetFromIndexer plain_url
          "1700000000" {| mapEntryRemovalValue := None |} live_mode []).2
       (Start true :: Unsubscribe :: [SseEnd])).2
    = [].
Proof.
  refine (proj1 (fetch_cancelled plain_url "1700000000"
    {| mapEntryRemovalValue := None |} live_mode [] true [SseEnd] _) _ _).
  - reflexivity.
  - reflexivity.
  - reflexivity.
Defined.

(** *** After the promise has resolved *)












(** ** Properties of the subscription of [useIndexerStream] *)

(** A run of the subscription is a run of the class, whose calls are handed
    to [next]. *)
Lemma subscription_run (stream : Single.t) (h : heap)
    (inputs : list (input BaseDataRow)) :
  useIndexerStream.run stream h inputs
  = let r := Single.run stream h inputs in
    (r.1.1.1, r.1.1.2, r.2 ≫= useIndexerStream.handle).
Proof.
  revert stream h. induction inputs as [|i rest IH]; intros stream h; [done|].
  rewrite single_run_cons. cbn zeta. cbn [useIndexerStream.run].
  unfold useIndexerStream.step.
  destruct (Single.step stream h i) as [[[s1 h1] out1] c1].
  cbn [fst snd]. rewrite IH. cbn zeta. cbn [fst snd].
  by rewrite bind_app.
Qed.

Lemma handled_data (calls : list (callback (list BaseDataRow) ref)) :
  omap useIndexerStream.data (calls ≫= useIndexerStream.handle)
  = published calls.
Proof.
  induction calls as [|c calls IH]; [done|].
  rewrite bind_cons, omap_app, IH. by destruct c.
Qed.

Lemma handled_errors (calls : list (callback (list BaseDataRow) ref)) :
  omap useIndexerStream.error (calls ≫= useIndexerStream.handle)
  = forwarded_errors calls.
Proof.
  induction calls as [|c calls IH]; [done|].
  rewrite bind_cons, omap_app, IH. by destruct c.
Qed.

Lemma inactive_calls (self : Single.t) (h : heap)
    (out : list (output BaseDataRow)) :
  Forall (λ o, active o = false) out →
  Forall (λ n, useIndexerStream.data n = None)
    ((Single.deliver_all self h out).2 ≫= useIndexerStream.handle).
Proof.
  intros Hout. revert self h.
  induction Hout as [|o out Ho _ IH]; intros self h; [done|].
  rewrite deliver_all_cons. cbn zeta. cbn [snd].
  rewrite bind_app. apply Forall_app. split; [|apply IH].
  destruct o; try done. by repeat constructor.
Qed.

(** X26.  Every data set that the subscription of the hook hands to [next]
    is a new object, which keeps the merge of the batches up to its
    publication; the errors of the stream are handed to [next] as they
    come. *)
Theorem subscription_publishes_new_objects (url : URL)
    (opts : AccumulatorOptions) (h0 : heap)
    (inputs more : list (input BaseDataRow)) :
  let created := useIndexerStream.subscribe url opts h0 in
  let before := useIndexerStream.run created.1 created.2 inputs in
  let after :=
    useIndexerStream.run created.1 created.2 (inputs ++ more) in
  let out := (IndexerStream.run (Single.stream created.1) inputs).2 in
  omap useIndexerStream.data before.2
  = seq (S (length h0)) (length (batches out))
  ∧ omap useIndexerStream.error before.2 = stream_errors out
  ∧ ∀ i d, omap useIndexerStream.data before.2 !! i = Some d →
           after.1.2 !! d
           = Some (accumulated opts (concat (take (S i) (batches out))) ∅).
Proof.
  intros created before after out. subst before after.
  rewrite !subscription_run. cbn zeta. cbn [fst snd].
  rewrite handled_data, handled_errors.
  rewrite !single_run_deliver. cbn zeta. cbn [fst snd].
  rewrite run_app. cbn [fst snd]. fold out.
  destruct (deliver_all_copies created.1 created.2 out
              (IndexerStream.run
                 (IndexerStream.run (Single.stream created.1) inputs).1
                 more).2 eq_refl)
    as (_ & _ & Hpublished & Hkept).
  destruct (deliver_forwards created.1 created.2 out) as (_ & Herr & _).
  cbn zeta in *. split_and!.
  - rewrite Hpublished. cbn. rewrite length_app. cbn.
    f_equal. lia.
  - exact Herr.
  - intros i d Hd. rewrite (Hkept i d Hd). cbn.
    by rewrite lookup_total_snoc.
Qed.

(** X27.  Once the subscription is disposed of, no data set is handed to
    [next]. *)
Theorem subscription_disposed (url : URL) (opts : AccumulatorOptions)
    (h0 : heap) (inputs more : list (input BaseDataRow)) :
  let created := useIndexerStream.subscribe url opts h0 in
  let before := useIndexerStream.run created.1 created.2 inputs in
  let disposed := useIndexerStream.dispose before.1.1 before.1.2 in
  let after := useIndexerStream.run disposed.1.1 disposed.1.2 more in
  Forall (λ n, useIndexerStream.data n = None) (disposed.2 ++ after.2).
Proof.
  intros created before disposed after.
  assert (disposed.2 ++ after.2
          = (useIndexerStream.run before.1.1 before.1.2
               (Unsubscribe :: more)).2) as ->.
  { subst after disposed. unfold useIndexerStream.dispose.
    cbn [useIndexerStream.run].
    destruct (useIndexerStream.step _ _ _) as [[s1 h1] c1]. cbn [fst snd].
    by destruct (useIndexerStream.run s1 h1 more) as [[s2 h2] c2]. }
  subst before. rewrite !subscription_run. cbn zeta. cbn [fst snd].
  rewrite !single_run_deliver. cbn zeta. cbn [fst snd].
  cbn [Single.set_stream Single.stream].
  apply inactive_calls.
  apply (unsubscribed_run url
           {| StreamOptions.abortController := None;
              StreamOptions.disableSSE := false;
              StreamOptions.backoffFunc := None |} inputs more).
Qed.
